(** * RepoPush edge functions: request handlers over the GitHub REST API

    A shallow embedding of the Deno request handlers under
    [supabase/functions/*/index.ts]: the zod schemas that validate the
    request body, the credential lookup, the ownership gate, and the
    upstream calls each handler issues with [fetch]; and of the request
    bodies that the dialogs of the front end send to these handlers.

    A handler is a computation in a small monad [M] that threads a trace of
    the network events it causes (identity-store lookups, upstream requests
    issued, upstream replies awaited) and can throw, as the JavaScript does.
    The upstream service is an arbitrary function from the requests issued
    so far and the current request to a reply.

    Left out: [console.log] and [console.error]; a failure of
    [response.text()]; the normalisation [fetch] applies to a URL (the trace
    holds the string the handler built). *)

From Stdlib Require Import String Ascii ZArith List Lia Bool DecimalString.
Import ListNotations.
Open Scope string_scope.
Open Scope list_scope.

Set Implicit Arguments.

(** String concatenation, as [+] on strings and template literals. *)
Infix "+:+" := String.append (at level 60, right associativity).
Set Warnings "-register-all".

(** ** JavaScript values

    Request bodies, reply bodies and the objects handlers build are JSON
    documents seen as JavaScript values; [VUndef] is [undefined], what the
    read of a missing property gives.  Numbers are restricted to integers,
    strings to sequences of one-byte code units. *)

Inductive value : Type :=
| VUndef
| VNull
| VBool (b : bool)
| VNum (n : Z)
| VStr (s : string)
| VArr (items : list value)
| VObj (fields : list (string * value)).

Fixpoint lookup (k : string) (fields : list (string * value)) : option value :=
  match fields with
  | [] => None
  | (k', v) :: rest => if String.eqb k k' then Some v else lookup k rest
  end.

(** [o[k]] on an object: a missing key reads as [undefined]. *)
Definition field (k : string) (fields : list (string * value)) : value :=
  match lookup k fields with
  | Some v => v
  | None => VUndef
  end.

(** Truthiness, as [if (v)], [v ? a : b], [!v], [a || b] test it. *)
Definition truthy (v : value) : bool :=
  match v with
  | VUndef | VNull => false
  | VBool b => b
  | VNum n => negb (n =? 0)%Z
  | VStr s => negb (String.eqb s "")
  | VArr _ | VObj _ => true
  end.

(** [v === s] for a string [s]. *)
Definition strict_eq_str (v : value) (s : string) : bool :=
  match v with
  | VStr s' => String.eqb s' s
  | _ => false
  end.

Definition string_of_Z (n : Z) : string := NilZero.string_of_int (Z.to_int n).
Definition string_of_nat (n : nat) : string := NilZero.string_of_uint (Nat.to_uint n).

(** [`${v}`]: the string a template literal inserts for a value. *)
Fixpoint String_ (v : value) : string :=
  match v with
  | VUndef => "undefined"
  | VNull => "null"
  | VBool true => "true"
  | VBool false => "false"
  | VNum n => string_of_Z n
  | VStr s => s
  | VArr items =>
      String.concat ","
        (map (fun x => match x with
                       | VUndef | VNull => ""
                       | _ => String_ x
                       end) items)
  | VObj _ => "[object Object]"
  end.

(** [JSON.stringify] seen on documents: a property whose value is
    [undefined] is left out, an [undefined] array element becomes [null].
    The result stands for the text sent on the wire. *)
Fixpoint JSON_stringify (v : value) : value :=
  match v with
  | VArr items =>
      VArr (map (fun x => match x with
                          | VUndef => VNull
                          | _ => JSON_stringify x
                          end) items)
  | VObj fields =>
      VObj ((fix props (fs : list (string * value)) : list (string * value) :=
               match fs with
               | [] => []
               | (k, VUndef) :: rest => props rest
               | (k, x) :: rest => (k, JSON_stringify x) :: props rest
               end) fields)
  | _ => v
  end.

(** ** Strings *)

(** [s.startsWith(p)] *)
Fixpoint startsWith (s p : string) {struct p} : bool :=
  match p with
  | EmptyString => true
  | String a p' =>
      match s with
      | EmptyString => false
      | String b s' => Ascii.eqb a b && startsWith s' p'
      end
  end.

(** [s.includes(sub)] *)
Fixpoint includes (s sub : string) : bool :=
  startsWith s sub ||
  match s with
  | EmptyString => false
  | String _ rest => includes rest sub
  end.

(** [s.endsWith("/")] *)
Fixpoint endsWith_slash (s : string) : bool :=
  match s with
  | EmptyString => false
  | String c EmptyString => Ascii.eqb c "/"
  | String _ rest => endsWith_slash rest
  end.

(** [s.split('/')]: never empty; the segments between the slashes. *)
Fixpoint split_slash (s : string) : list string :=
  match s with
  | EmptyString => [EmptyString]
  | String c rest =>
      if Ascii.eqb c "/" then EmptyString :: split_slash rest
      else match split_slash rest with
           | seg :: segs => String c seg :: segs
           | [] => [String c EmptyString]
           end
  end.

(** [xs.pop()] on the result of a split: its last element. *)
Definition pop (segs : list string) : string := last segs EmptyString.

Fixpoint all_chars (p : ascii -> bool) (s : string) : bool :=
  match s with
  | EmptyString => true
  | String c rest => p c && all_chars p rest
  end.

Definition in_range (lo hi c : ascii) : bool :=
  (nat_of_ascii lo <=? nat_of_ascii c)%nat && (nat_of_ascii c <=? nat_of_ascii hi)%nat.

Definition alnum (c : ascii) : bool :=
  in_range "a" "z" c || in_range "A" "Z" c || in_range "0" "9" c.

(** The character classes of the schemas' regular expressions. *)
Definition owner_char (c : ascii) : bool := alnum c || Ascii.eqb c "-".
Definition repo_char (c : ascii) : bool :=
  alnum c || Ascii.eqb c "." || Ascii.eqb c "_" || Ascii.eqb c "-".
Definition branch_char (c : ascii) : bool :=
  alnum c || Ascii.eqb c "." || Ascii.eqb c "_" || Ascii.eqb c "/" || Ascii.eqb c "-".

(** [/^[class]+$/.test(s)]: one or more characters, all of the class. *)
Definition matches_plus (class : ascii -> bool) (s : string) : bool :=
  negb (String.eqb s "") && all_chars class s.

Inductive FileType : Type := file | dir.

(** ** zod 3.22: the part of the validation library the schemas use

    A schema maps a value to the parsed data or to the list of issues it
    raises; an issue has the path of the offending field and a message.
    Checks on a string do not stop at the first failure. *)

Module z.

Inductive PathSeg : Type :=
| Key (k : string)
| Idx (i : nat).

Record ZodIssue : Type := mkIssue { path : list PathSeg; message : string }.

Definition Parsed (A : Type) : Type := (list ZodIssue + A)%type.
Definition Schema (A : Type) : Type := value -> Parsed A.

Definition issues_of {A} (r : Parsed A) : list ZodIssue :=
  match r with
  | inl errs => errs
  | inr _ => []
  end.

(** zod's name of the type of a value, used in its messages. *)
Definition parsedType (v : value) : string :=
  match v with
  | VUndef => "undefined"
  | VNull => "null"
  | VBool _ => "boolean"
  | VNum _ => "number"
  | VStr _ => "string"
  | VArr _ => "array"
  | VObj _ => "object"
  end.

Definition invalid_type {A} (expected : string) (v : value) : Parsed A :=
  inl [mkIssue []
         match v with
         | VUndef => "Required"
         | _ => "Expected " +:+ expected +:+ ", received " +:+ parsedType v
         end].

Definition StrCheck : Type := string -> option string.

(** [.min(n)] *)
Definition min (n : Z) : StrCheck := fun s =>
  if (Z.of_nat (String.length s) <? n)%Z
  then Some ("String must contain at least " +:+ string_of_Z n +:+ " character(s)")
  else None.

(** [.max(n)] *)
Definition max (n : Z) : StrCheck := fun s =>
  if (n <? Z.of_nat (String.length s))%Z
  then Some ("String must contain at most " +:+ string_of_Z n +:+ " character(s)")
  else None.

(** [.regex(/^[class]+$/, msg)] *)
Definition regex (class : ascii -> bool) (msg : string) : StrCheck := fun s =>
  if matches_plus class s then None else Some msg.

(** [.refine(p, msg)]; it runs after the checks before it, also when they
    have raised issues. *)
Definition refine (p : string -> bool) (msg : string) : StrCheck := fun s =>
  if p s then None else Some msg.

Definition run_checks (checks : list StrCheck) (s : string) : list ZodIssue :=
  flat_map (fun c => match c s with
                     | Some msg => [mkIssue [] msg]
                     | None => []
                     end) checks.

(** [z.boolean()] *)
Definition boolean : Schema bool := fun v =>
  match v with
  | VBool b => inr b
  | _ => invalid_type "boolean" v
  end.

(** [schema.optional()] *)
Definition optional {A} (s : Schema A) : Schema (option A) := fun v =>
  match v with
  | VUndef => inr None
  | _ => match s v with
         | inl errs => inl errs
         | inr a => inr (Some a)
         end
  end.

(** [schema.default(d)] *)
Definition default {A} (s : Schema A) (d : value) : Schema A := fun v =>
  match v with
  | VUndef => s d
  | _ => s v
  end.

Definition at_seg {A} (seg : PathSeg) (r : Parsed A) : Parsed A :=
  match r with
  | inl errs => inl (map (fun i => mkIssue (seg :: path i) (message i)) errs)
  | inr a => inr a
  end.

(** A property of a [z.object]: the schema run on the value under the key,
    its issues reported under that key. *)
Definition prop_of {A} (k : string) (s : Schema A) (fields : list (string * value))
  : Parsed A :=
  at_seg (Key k) (s (field k fields)).

(** The elements of a [z.array], each reported under its index. *)
Fixpoint elements {A} (s : Schema A) (i : nat) (items : list value) : Parsed (list A) :=
  match items with
  | [] => inr []
  | x :: rest =>
      match at_seg (Idx i) (s x), elements s (S i) rest with
      | inr a, inr out => inr (a :: out)
      | r, rs => inl (issues_of r ++ issues_of rs)
      end
  end.

(** [z.array(s)] with optional [.min(lo)] and [.max(hi)]; the size issues
    come before the issues of the elements. *)
Definition array {A} (s : Schema A) (lo hi : option Z) : Schema (list A) := fun v =>
  match v with
  | VArr items =>
      let small := match lo with
                   | Some n => if (Z.of_nat (length items) <? n)%Z
                               then [mkIssue [] ("Array must contain at least " +:+
                                                 string_of_Z n +:+ " element(s)")]
                               else []
                   | None => []
                   end in
      let big := match hi with
                 | Some n => if (n <? Z.of_nat (length items))%Z
                             then [mkIssue [] ("Array must contain at most " +:+
                                               string_of_Z n +:+ " element(s)")]
                             else []
                 | None => []
                 end in
      match small ++ big, elements s 0 items with
      | [], inr out => inr out
      | sizes, r => inl (sizes ++ issues_of r)
      end
  | _ => invalid_type "array" v
  end.

(** [z.object({...})] applied to a value: the body must be an object. *)
Definition object {A} (shape : list (string * value) -> Parsed A) : Schema A := fun v =>
  match v with
  | VObj fields => shape fields
  | _ => invalid_type "object" v
  end.

(** [z.enum(['file', 'dir'])] *)
Definition enum_file_dir : Schema FileType := fun v =>
  match v with
  | VStr s =>
      if String.eqb s "file" then inr file
      else if String.eqb s "dir" then inr dir
      else inl [mkIssue [] ("Invalid enum value. Expected 'file' | 'dir', received '"
                            +:+ s +:+ "'")]
  | _ => invalid_type "'file' | 'dir'" v
  end.

(** [z.string()] followed by its checks. *)
Definition string (checks : list StrCheck) : Schema string := fun v =>
  match v with
  | VStr s => match run_checks checks s with
              | [] => inr s
              | errs => inl errs
              end
  | _ => invalid_type "string" v
  end.

End z.

Definition seg_string (seg : z.PathSeg) : string :=
  match seg with
  | z.Key k => k
  | z.Idx i => string_of_nat i
  end.

(** [e => `${e.path.join('.')}: ${e.message}`] *)
Definition detail (e : z.ZodIssue) : string :=
  String.concat "." (map seg_string (z.path e)) +:+ ": " +:+ z.message e.

(** ** The platform: fetch, the identity store, exceptions *)

(** An upstream request, as the arguments of [fetch(url, {method, headers,
    body})]; [body] is the document handed to [JSON.stringify]. *)
Record Request : Type := mkRequest {
  method : string;
  url : string;
  headers : list (string * string);
  body : option value
}.

(** What [fetch] resolves to: the status, the body as text, and the body
    parsed by [.json()], or the message of the [SyntaxError] it throws. *)
Record FetchResponse : Type := mkFetchResponse {
  status : Z;
  text : string;
  json : string + value
}.

(** [response.ok] *)
Definition ok (r : FetchResponse) : bool :=
  (200 <=? status r)%Z && (status r <=? 299)%Z.

(** The upstream either answers or the call fails on the network, which
    rejects the promise of [fetch]. *)
Inductive Reply : Type :=
| Settled (r : FetchResponse)
| Rejected (msg : string).

(** A pending [fetch]: the request, and the reply it will settle to. *)
Record Promise : Type := mkPromise { request : Request; settles : Reply }.

(** A row of the [profiles] table; a column is [None] when it is NULL or was
    not selected. *)
Record Profile : Type := mkProfile {
  github_access_token : option string;
  github_username : option string
}.

Inductive Event : Type :=
| AuthGetUser
| ProfilesSelect (columns : list string) (id : string)
| Issue (r : Request)
| Await (r : Request) (reply : Reply).

Inductive exn : Type :=
| Error (msg : string)
| TypeError (msg : string)
| SyntaxError (msg : string)
| RangeError (msg : string)
| ZodError (issues : list z.ZodIssue).

(** What a handler runs against: the user the [Authorization] header
    resolves to, the [profiles] table, the upstream service (its reply to a
    request may depend on the requests issued before it), and the text zod
    gives a [ZodError] (its pretty-printed issue list). *)
Record Env : Type := mkEnv {
  auth_user : option string;
  profiles : string -> option Profile;
  upstream : list Request -> Request -> Reply;
  zod_message : list z.ZodIssue -> string
}.

(** [error.message] *)
Definition exn_message (env : Env) (e : exn) : string :=
  match e with
  | Error msg | TypeError msg | SyntaxError msg | RangeError msg => msg
  | ZodError issues => zod_message env issues
  end.

Definition Trace : Type := list Event.

(** The requests issued so far, oldest first. *)
Fixpoint issued (tr : Trace) : list Request :=
  match tr with
  | [] => []
  | Issue r :: rest => r :: issued rest
  | _ :: rest => issued rest
  end.

Inductive Result (A : Type) : Type :=
| Ok (a : A)
| Throw (e : exn).

Arguments Throw {A} e.

(** A computation reads the environment, extends the trace, and returns or
    throws; the trace survives a throw. *)
Definition M (A : Type) : Type := Env -> Trace -> Result A * Trace.

Definition ret {A} (a : A) : M A := fun _ tr => (Ok a, tr).

Definition bind {A B} (c : M A) (k : A -> M B) : M B := fun env tr =>
  match c env tr with
  | (Ok a, tr') => k a env tr'
  | (Throw e, tr') => (Throw e, tr')
  end.

Definition throw {A} (e : exn) : M A := fun _ tr => (Throw e, tr).

(** [try { c } catch (error) { h(error) }] *)
Definition try_catch {A} (c : M A) (h : exn -> M A) : M A := fun env tr =>
  match c env tr with
  | (Ok a, tr') => (Ok a, tr')
  | (Throw e, tr') => h e env tr'
  end.

Definition ask : M Env := fun env tr => (Ok env, tr).

Definition emit (e : Event) : M unit := fun _ tr => (Ok tt, tr ++ [e]).

Declare Scope js_scope.
Delimit Scope js_scope with js.
Notation "x <- c ;; k" := (bind c (fun x => k))
  (at level 61, c at next level, right associativity) : js_scope.
Notation "c ;; k" := (bind c (fun _ => k))
  (at level 61, right associativity) : js_scope.
Open Scope js_scope.

(** [fetch(...)] up to, and without, the [await]: the request leaves. *)
Definition dispatch (r : Request) : M Promise := fun env tr =>
  (Ok (mkPromise r (upstream env (issued tr) r)), tr ++ [Issue r]).

(** [await promise] *)
Definition await (p : Promise) : M FetchResponse :=
  emit (Await (request p) (settles p)) ;;
  match settles p with
  | Settled r => ret r
  | Rejected msg => throw (TypeError msg)
  end.

(** [await fetch(url, init)] *)
Definition fetch (r : Request) : M FetchResponse :=
  p <- dispatch r ;; await p.

(** [await response.json()] *)
Definition json_ (r : FetchResponse) : M value :=
  match json r with
  | inr v => ret v
  | inl msg => throw (SyntaxError msg)
  end.

(** [v.k]: reading a property of [undefined] or [null] throws. *)
Definition get (v : value) (k : string) : M value :=
  match v with
  | VUndef => throw (TypeError ("Cannot read properties of undefined (reading '"
                                +:+ k +:+ "')"))
  | VNull => throw (TypeError ("Cannot read properties of null (reading '"
                               +:+ k +:+ "')"))
  | VObj fields => ret (field k fields)
  | _ => ret VUndef
  end.

(** [v?.k] *)
Definition get_opt (v : value) (k : string) : M value :=
  match v with
  | VUndef | VNull => ret VUndef
  | _ => get v k
  end.

(** [for (const x of xs) { ... }] with the variables the body updates. *)
Fixpoint for_of {A S} (xs : list A) (s : S) (body : A -> S -> M S) : M S :=
  match xs with
  | [] => ret s
  | x :: rest => s' <- body x s ;; for_of rest s' body
  end.

(** [await supabase.auth.getUser()] *)
Definition getUser : M (option string) :=
  emit AuthGetUser ;; env <- ask ;; ret (auth_user env).

Definition selected (columns : list string) (c : string) (v : option string)
  : option string :=
  if existsb (String.eqb c) columns then v else None.

(** [await supabase.from('profiles').select(columns).eq('id', id).single()] *)
Definition select_single (columns : list string) (id : string) : M (option Profile) :=
  emit (ProfilesSelect columns id) ;;
  env <- ask ;;
  ret (match profiles env id with
       | Some p => Some (mkProfile
                           (selected columns "github_access_token" (github_access_token p))
                           (selected columns "github_username" (github_username p)))
       | None => None
       end).

(** [profile?.github_access_token] and [profile?.github_username] *)
Definition token_of (profile : option Profile) : option string :=
  match profile with
  | Some p => github_access_token p
  | None => None
  end.

Definition username_of (profile : option Profile) : option string :=
  match profile with
  | Some p => github_username p
  | None => None
  end.

(** The string in a column known to hold one. *)
Definition the (s : option string) : string :=
  match s with
  | Some s' => s'
  | None => ""
  end.

(** [!s] for a nullable string: true when it is null or empty. *)
Definition absent (s : option string) : bool :=
  match s with
  | Some s' => String.eqb s' ""
  | None => true
  end.

(** [owner !== name] for a nullable [name]. *)
Definition differs (owner : string) (name : option string) : bool :=
  match name with
  | Some n => negb (String.eqb owner n)
  | None => true
  end.

(** The inbound request: its method and what [req.json()] gives. *)
Record Req : Type := mkReq { req_method : string; req_json : string + value }.

(** The handler's [new Response(body, {status, headers})]. *)
Record Response : Type := mkResponse {
  res_status : Z;
  res_headers : list (string * string);
  res_body : option value
}.

(** [await req.json()] *)
Definition req_body (req : Req) : M value :=
  match req_json req with
  | inr v => ret v
  | inl msg => throw (SyntaxError msg)
  end.

Definition corsHeaders : list (string * string) :=
  [("Access-Control-Allow-Origin", "*");
   ("Access-Control-Allow-Headers", "authorization, x-client-info, apikey, content-type")].

(** [new Response(JSON.stringify(doc), {status, headers: {...corsHeaders,
    'Content-Type': 'application/json'}})].  The construction is taken to
    succeed: the statuses it refuses (outside 200-599, or 204, 205 and 304
    with a body) are not told apart. *)
Definition respond (code : Z) (doc : value) : Response :=
  mkResponse code (corsHeaders ++ [("Content-Type", "application/json")])
    (Some (JSON_stringify doc)).

(** The outer [catch (error)] every handler ends with. *)
Definition internal_error (e : exn) : M Response :=
  env <- ask ;;
  ret (respond 500 (VObj [("error", VStr (exn_message env e))])).

(** The answer to [safeParse] failing. *)
Definition invalid_input (issues : list z.ZodIssue) : Response :=
  respond 400 (VObj [("error", VStr "Invalid input");
                     ("details", VArr (map (fun e => VStr (detail e)) issues))]).

(** [schema.parse(body)]: throws on issues. *)
Definition parse {A} (s : z.Schema A) (v : value) : M A :=
  match s v with
  | inr a => ret a
  | inl issues => throw (ZodError issues)
  end.

Definition api : string := "https://api.github.com".

Definition bearer (token : string) : string * string :=
  ("Authorization", "Bearer " +:+ token).

(** [a || d] for an optional string [a]. *)
Definition or_else (a : option string) (d : string) : string :=
  match a with
  | Some s => if String.eqb s "" then d else s
  | None => d
  end.

Fixpoint mapM {A B} (f : A -> M B) (xs : list A) : M (list B) :=
  match xs with
  | [] => ret []
  | x :: rest => y <- f x ;; ys <- mapM f rest ;; ret (y :: ys)
  end.

(** Modelled from the spec: [getGitHubToken] of [_shared/github-helper.ts],
    which is not among the sources.  The credential resolver, "given an
    inbound request's session, returns the caller's stored upstream access
    token and upstream account identifier, or signals absence"; the callers
    read [github_access_token] and [github_username] of what it returns. *)
Definition getGitHubToken : M (option Profile) :=
  user <- getUser ;;
  match user with
  | None => ret None
  | Some id =>
      profile <- select_single ["github_access_token"; "github_username"] id ;;
      if absent (token_of profile) || absent (username_of profile)
      then ret None
      else ret profile
  end.

(** [v.filter(...)]: [v] has to be an array. *)
Definition filter_receiver (v : value) (what : string) : M (list value) :=
  match v with
  | VArr items => ret items
  | VUndef => throw (TypeError "Cannot read properties of undefined (reading 'filter')")
  | VNull => throw (TypeError "Cannot read properties of null (reading 'filter')")
  | _ => throw (TypeError (what +:+ ".filter is not a function"))
  end.

(** [v.startsWith(p)]: [v] has to be a string. *)
Definition startsWith_ (v : value) (what p : string) : M bool :=
  match v with
  | VStr s => ret (startsWith s p)
  | VUndef => throw (TypeError "Cannot read properties of undefined (reading 'startsWith')")
  | VNull => throw (TypeError "Cannot read properties of null (reading 'startsWith')")
  | _ => throw (TypeError (what +:+ ".startsWith is not a function"))
  end.

Fixpoint filterM {A} (p : A -> M bool) (xs : list A) : M (list A) :=
  match xs with
  | [] => ret []
  | x :: rest =>
      keep <- p x ;;
      kept <- filterM p rest ;;
      ret (if keep then x :: kept else kept)
  end.

Definition base64_alphabet : string :=
  "ABCDEFGHIJKLMNOPQRSTUVWXYZabcdefghijklmnopqrstuvwxyz0123456789+/".

Definition base64_digit (n : N) : ascii :=
  match String.get (N.to_nat n) base64_alphabet with
  | Some c => c
  | None => "="%char
  end.

(** [btoa(s)] for a string whose code units are all below 256: the base64
    text of these bytes. *)
Fixpoint btoa (s : string) : string :=
  match s with
  | EmptyString => EmptyString
  | String a EmptyString =>
      let n := (N_of_ascii a * 65536)%N in
      String (base64_digit (n / 262144))
        (String (base64_digit ((n / 4096) mod 64)) "==")
  | String a (String b EmptyString) =>
      let n := (N_of_ascii a * 65536 + N_of_ascii b * 256)%N in
      String (base64_digit (n / 262144))
        (String (base64_digit ((n / 4096) mod 64))
           (String (base64_digit ((n / 64) mod 64)) "="))
  | String a (String b (String c rest)) =>
      let n := (N_of_ascii a * 65536 + N_of_ascii b * 256 + N_of_ascii c)%N in
      String (base64_digit (n / 262144))
        (String (base64_digit ((n / 4096) mod 64))
           (String (base64_digit ((n / 64) mod 64))
              (String (base64_digit (n mod 64)) (btoa rest))))
  end.

(** [new TextEncoder().encode(s)]: the UTF-8 bytes of [s].  A code unit
    below 128 is one byte; one from 128 to 255 is the two bytes
    [0xC0 | (c >> 6)] and [0x80 | (c & 0x3F)]. *)
Fixpoint TextEncoder_encode (s : string) : list ascii :=
  match s with
  | EmptyString => []
  | String c rest =>
      let n := N_of_ascii c in
      if (n <? 128)%N then c :: TextEncoder_encode rest
      else ascii_of_N (192 + n / 64) :: ascii_of_N (128 + n mod 64)
             :: TextEncoder_encode rest
  end.

(** [String.fromCharCode(...bytes)]: the string of these code units.  The
    spread passes every byte as an argument of one call; [max_arguments] is
    the number of arguments the engine can take, and with more the call
    throws a [RangeError] (the text is the one V8 gives it). *)
Definition fromCharCode (max_arguments : Z) (bytes : list ascii) : M string :=
  if (max_arguments <? Z.of_nat (length bytes))%Z
  then throw (RangeError "Maximum call stack size exceeded")
  else ret (string_of_list_ascii bytes).

(** [!p.includes('..') && !p.startsWith('/')] *)
Definition no_traversal (p : string) : bool :=
  negb (includes p "..") && negb (startsWith p "/").

(** The schemas of [owner], [repo] and [path] that create-file, upload-files
    and delete-file each spell out. *)
Definition ownerSchema : z.Schema string :=
  z.string [z.min 1; z.max 39; z.regex owner_char "Invalid owner name"].

Definition repoSchema : z.Schema string :=
  z.string [z.min 1; z.max 100; z.regex repo_char "Invalid repo name"].

Definition pathSchema : z.Schema string :=
  z.string [z.min 1; z.max 4096; z.refine no_traversal "Path traversal not allowed"].

(** ** create-file/index.ts *)

Module create_file.

Record Input : Type := mkInput {
  owner : string;
  repo : string;
  path : string;
  content : string;
  message : option string;
  branch : option string
}.

Definition createFileSchema : z.Schema Input :=
  z.object (fun o =>
    match z.prop_of "owner" ownerSchema o,
          z.prop_of "repo" repoSchema o,
          z.prop_of "path" pathSchema o,
          z.prop_of "content" (z.string [z.max 10485760]) o,
          z.prop_of "message" (z.optional (z.string [z.min 1; z.max 500])) o,
          z.prop_of "branch" (z.optional (z.string [z.min 1; z.max 255;
                                                    z.regex branch_char "Invalid branch name"])) o
    with
    | inr ow, inr re, inr pa, inr co, inr me, inr br => inr (mkInput ow re pa co me br)
    | ow, re, pa, co, me, br =>
        inl (z.issues_of ow ++ z.issues_of re ++ z.issues_of pa ++ z.issues_of co
             ++ z.issues_of me ++ z.issues_of br)
    end).

Definition put (input : Input) (token base64Content : string) : Request :=
  mkRequest "PUT"
    (api +:+ "/repos/" +:+ owner input +:+ "/" +:+ repo input +:+ "/contents/" +:+ path input)
    [bearer token;
     ("Accept", "application/vnd.github.v3+json");
     ("Content-Type", "application/json");
     ("User-Agent", "RepoPush")]
    (Some (JSON_stringify
             (VObj [("message", VStr (or_else (message input) ("Create " +:+ path input)));
                    ("content", VStr base64Content);
                    ("branch", VStr (or_else (branch input) "main"))]))).

Section Engine.

(** The number of arguments one call can take in the engine that runs the
    handler. *)
Variable max_arguments : Z.

(** [btoa(String.fromCharCode(...encoder.encode(content || '')))]
    (lines 82-84) *)
Definition base64Content (content : string) : M string :=
  binary <- fromCharCode max_arguments (TextEncoder_encode content) ;;
  ret (btoa binary).

Definition serve (req : Req) : M Response :=
  if String.eqb (req_method req) "OPTIONS" then ret (mkResponse 200 corsHeaders None)
  else
  try_catch
    (body <- req_body req ;;
     match createFileSchema body with
     | inl issues => ret (invalid_input issues)
     | inr input =>
         user <- getUser ;;
         match user with
         | None => ret (respond 401 (VObj [("error", VStr "Unauthorized")]))
         | Some id =>
             profile <- select_single ["github_access_token"; "github_username"] id ;;
             if absent (token_of profile) || absent (username_of profile)
             then ret (respond 403 (VObj [("error", VStr "GitHub profile not found")]))
             else if differs (owner input) (username_of profile)
             then ret (respond 403
                         (VObj [("error",
                                 VStr "Unauthorized: can only access your own repositories")]))
             else
               encoded <- base64Content (content input) ;;
               githubResponse <- fetch (put input (the (token_of profile)) encoded) ;;
               if negb (ok githubResponse)
               then
                 if (status githubResponse =? 422)%Z
                 then ret (respond 422 (VObj [("error", VStr "File already exists")]))
                 else ret (respond (status githubResponse)
                             (VObj [("error", VStr "Failed to create file");
                                    ("details", VStr (text githubResponse))]))
               else
                 result <- json_ githubResponse ;;
                 ret (respond 200 (VObj [("success", VBool true); ("data", result)]))
         end
     end)
    internal_error.

End Engine.

End create_file.

(** ** upload-files/index.ts *)

Module upload_files.

Record File : Type := mkFile { path : string; content : string }.

Record Input : Type := mkInput {
  owner : string;
  repo : string;
  files : list File;
  message : option string;
  branch : option string
}.

Definition fileSchema : z.Schema File :=
  z.object (fun o =>
    match z.prop_of "path" pathSchema o,
          z.prop_of "content" (z.string [z.max 10485760]) o with
    | inr p, inr c => inr (mkFile p c)
    | p, c => inl (z.issues_of p ++ z.issues_of c)
    end).

Definition uploadFilesSchema : z.Schema Input :=
  z.object (fun o =>
    match z.prop_of "owner" ownerSchema o,
          z.prop_of "repo" repoSchema o,
          z.prop_of "files" (z.array fileSchema (Some 1%Z) (Some 100%Z)) o,
          z.prop_of "message" (z.optional (z.string [z.min 1; z.max 500])) o,
          z.prop_of "branch" (z.optional (z.string [z.min 1; z.max 255;
                                                    z.regex branch_char "Invalid branch name"])) o
    with
    | inr ow, inr re, inr fs, inr me, inr br => inr (mkInput ow re fs me br)
    | ow, re, fs, me, br =>
        inl (z.issues_of ow ++ z.issues_of re ++ z.issues_of fs ++ z.issues_of me
             ++ z.issues_of br)
    end).

(** One entry of [results]. *)
Record Outcome : Type := mkOutcome {
  out_path : string;
  success : bool;
  error : option string
}.

Definition outcome_value (r : Outcome) : value :=
  VObj ([("path", VStr (out_path r)); ("success", VBool (success r))]
        ++ match error r with
           | Some e => [("error", VStr e)]
           | None => []
           end).

(** The [PUT] of one file (lines 90-105). *)
Definition put (input : Input) (token : string) (f : File) : Request :=
  mkRequest "PUT"
    (api +:+ "/repos/" +:+ owner input +:+ "/" +:+ repo input +:+ "/contents/" +:+ path f)
    [bearer token;
     ("Accept", "application/vnd.github.v3+json");
     ("Content-Type", "application/json");
     ("User-Agent", "RepoPush")]
    (Some (JSON_stringify
             (VObj [("message", VStr (or_else (message input) ("Upload " +:+ path f)));
                    ("content", VStr (content f));
                    ("branch", VStr (or_else (branch input) "main"))]))).

(** The callback of [files.map] after its [await fetch]: the reply is turned
    into an entry of [results]; a throw is caught and turned into one. *)
Definition settle (f : File) (p : Promise) : M Outcome :=
  try_catch
    (githubResponse <- await p ;;
     if negb (ok githubResponse)
     then ret (mkOutcome (path f) false (Some (text githubResponse)))
     else ret (mkOutcome (path f) true None))
    (fun err => env <- ask ;;
                ret (mkOutcome (path f) false (Some (exn_message env err)))).

(** [await Promise.all(files.map(async (file) => ...))].  [map] runs every
    callback up to its first [await], so all the requests are issued, in the
    order of [files], before any reply is looked at.  The callbacks then
    resume as the replies arrive; each reads its own reply only, and
    [Promise.all] returns the entries in the order of [files], so the model
    resumes them in that order. *)
Definition upload_all (input : Input) (token : string) : M (list Outcome) :=
  promises <- mapM (fun f => dispatch (put input token f)) (files input) ;;
  mapM (fun fp => settle (fst fp) (snd fp)) (combine (files input) promises).

Definition successCount (results : list Outcome) : nat :=
  length (filter success results).

Definition serve (req : Req) : M Response :=
  if String.eqb (req_method req) "OPTIONS" then ret (mkResponse 200 corsHeaders None)
  else
  try_catch
    (body <- req_body req ;;
     match uploadFilesSchema body with
     | inl issues => ret (invalid_input issues)
     | inr input =>
         user <- getUser ;;
         match user with
         | None => ret (respond 401 (VObj [("error", VStr "Unauthorized")]))
         | Some id =>
             profile <- select_single ["github_access_token"; "github_username"] id ;;
             if absent (token_of profile) || absent (username_of profile)
             then ret (respond 403 (VObj [("error", VStr "GitHub profile not found")]))
             else if differs (owner input) (username_of profile)
             then ret (respond 403
                         (VObj [("error",
                                 VStr "Unauthorized: can only access your own repositories")]))
             else
               results <- upload_all input (the (token_of profile)) ;;
               ret (respond 200
                      (VObj [("success", VBool true);
                             ("results", VArr (map outcome_value results));
                             ("summary",
                              VObj [("total", VNum (Z.of_nat (length (files input))));
                                    ("successful", VNum (Z.of_nat (successCount results)));
                                    ("failed",
                                     VNum (Z.of_nat (length (files input))
                                           - Z.of_nat (successCount results)))])]))
         end
     end)
    internal_error.

End upload_files.

(** ** move-files/index.ts (the second handler of the upload-files source) *)

Module move_files.

Record Item : Type := mkItem { path : string; sha : string; type : FileType }.

Record Input : Type := mkInput {
  owner : string;
  repo : string;
  files : list Item;
  destination : string;
  branch : string
}.

Definition itemSchema : z.Schema Item :=
  z.object (fun o =>
    match z.prop_of "path" (z.string []) o,
          z.prop_of "sha" (z.string []) o,
          z.prop_of "type" z.enum_file_dir o with
    | inr p, inr s, inr t => inr (mkItem p s t)
    | p, s, t => inl (z.issues_of p ++ z.issues_of s ++ z.issues_of t)
    end).

Definition moveFilesSchema : z.Schema Input :=
  z.object (fun o =>
    match z.prop_of "owner" (z.string [z.min 1]) o,
          z.prop_of "repo" (z.string [z.min 1]) o,
          z.prop_of "files" (z.array itemSchema None None) o,
          z.prop_of "destination" (z.string []) o,
          z.prop_of "branch" (z.default (z.string []) (VStr "main")) o with
    | inr ow, inr re, inr fs, inr de, inr br => inr (mkInput ow re fs de br)
    | ow, re, fs, de, br =>
        inl (z.issues_of ow ++ z.issues_of re ++ z.issues_of fs ++ z.issues_of de
             ++ z.issues_of br)
    end).

Definition headers (token : string) : list (string * string) :=
  [bearer token;
   ("Accept", "application/vnd.github.v3+json");
   ("User-Agent", "RepoPush")].

(** [destination ? `${destination}/${fileName}` : fileName], with
    [fileName = file.path.split('/').pop()] *)
Definition newPath (input : Input) (f : Item) : string :=
  let fileName := pop (split_slash (path f)) in
  if negb (String.eqb (destination input) "")
  then destination input +:+ "/" +:+ fileName
  else fileName.

Definition contents (input : Input) (p : string) : string :=
  api +:+ "/repos/" +:+ owner input +:+ "/" +:+ repo input +:+ "/contents/" +:+ p.

Definition get_request (input : Input) (token : string) (f : Item) : Request :=
  mkRequest "GET" (contents input (path f) +:+ "?ref=" +:+ branch input)
    (headers token) None.

Definition put_request (input : Input) (token : string) (f : Item) (content : value)
  : Request :=
  mkRequest "PUT" (contents input (newPath input f)) (headers token)
    (Some (JSON_stringify
             (VObj [("message", VStr ("Move " +:+ path f +:+ " to " +:+ newPath input f));
                    ("content", content);
                    ("branch", VStr (branch input))]))).

Definition delete_request (input : Input) (token : string) (f : Item) : Request :=
  mkRequest "DELETE" (contents input (path f)) (headers token)
    (Some (JSON_stringify
             (VObj [("message", VStr ("Delete old file " +:+ path f));
                    ("sha", VStr (sha f));
                    ("branch", VStr (branch input))]))).

(** The body of [for (const file of files)] (lines 220-275). *)
Definition move_one (input : Input) (token : string) (f : Item) : M unit :=
  getResponse <- fetch (get_request input token f) ;;
  if negb (ok getResponse) then ret tt
  else
    fileData <- json_ getResponse ;;
    content <- get fileData "content" ;;
    _ <- fetch (put_request input token f content) ;;
    _ <- fetch (delete_request input token f) ;;
    ret tt.

Definition serve (req : Req) : M Response :=
  if String.eqb (req_method req) "OPTIONS" then ret (mkResponse 200 corsHeaders None)
  else
  try_catch
    (body <- req_body req ;;
     input <- parse moveFilesSchema body ;;
     user <- getUser ;;
     match user with
     | None => ret (respond 401 (VObj [("error", VStr "Unauthorized")]))
     | Some id =>
         profile <- select_single ["github_access_token"] id ;;
         if absent (token_of profile)
         then ret (respond 401 (VObj [("error", VStr "GitHub token not found")]))
         else
           for_of (files input) tt
             (fun f _ => move_one input (the (token_of profile)) f) ;;
           ret (respond 200 (VObj [("success", VBool true)]))
     end)
    internal_error.

End move_files.

(** ** delete-file/index.ts *)

Module delete_file.

Record Input : Type := mkInput {
  owner : string;
  repo : string;
  path : string;
  sha : string;
  branch : option string;
  type : option FileType
}.

Definition deleteFileSchema : z.Schema Input :=
  z.object (fun o =>
    match z.prop_of "owner" ownerSchema o,
          z.prop_of "repo" repoSchema o,
          z.prop_of "path" pathSchema o,
          z.prop_of "sha" (z.string [z.min 1; z.max 100]) o,
          z.prop_of "branch" (z.optional (z.string [z.min 1; z.max 255])) o,
          z.prop_of "type" (z.optional z.enum_file_dir) o with
    | inr ow, inr re, inr pa, inr sh, inr br, inr ty => inr (mkInput ow re pa sh br ty)
    | ow, re, pa, sh, br, ty =>
        inl (z.issues_of ow ++ z.issues_of re ++ z.issues_of pa ++ z.issues_of sh
             ++ z.issues_of br ++ z.issues_of ty)
    end).

Definition read_headers (token : string) : list (string * string) :=
  [bearer token;
   ("Accept", "application/vnd.github.v3+json");
   ("User-Agent", "RepoPush")].

Definition write_headers (token : string) : list (string * string) :=
  [bearer token;
   ("Accept", "application/vnd.github.v3+json");
   ("Content-Type", "application/json");
   ("User-Agent", "RepoPush")].

Definition repos (input : Input) : string :=
  api +:+ "/repos/" +:+ owner input +:+ "/" +:+ repo input.

(** [branch || 'main'] *)
Definition branchName (input : Input) : string := or_else (branch input) "main".

(** [path.endsWith('/') ? path : `${path}/`] *)
Definition pathPrefix (p : string) : string :=
  if endsWith_slash p then p else p +:+ "/".

(** [(item) => !item.path.startsWith(pathPrefix) && item.path !== path] *)
Definition keeps (p : string) (item : value) : M bool :=
  item_path <- get item "path" ;;
  inside <- startsWith_ item_path "item.path" (pathPrefix p) ;;
  if negb inside then ret (negb (strict_eq_str item_path p)) else ret false.

(** [(item) => ({path: item.path, mode: item.mode, type: item.type, sha: item.sha})] *)
Definition entry (item : value) : M value :=
  p <- get item "path" ;;
  m <- get item "mode" ;;
  t <- get item "type" ;;
  s <- get item "sha" ;;
  ret (VObj [("path", p); ("mode", m); ("type", t); ("sha", s)]).

(** [treeData.tree.filter(...).map(...)] (lines 136-144) *)
Definition newTree (p : string) (treeData : value) : M (list value) :=
  tree <- get treeData "tree" ;;
  items <- filter_receiver tree "treeData.tree" ;;
  kept <- filterM (keeps p) items ;;
  mapM entry kept.

Definition get_ref (input : Input) (token : string) : Request :=
  mkRequest "GET" (repos input +:+ "/git/refs/heads/" +:+ branchName input)
    (read_headers token) None.

Definition get_commit (input : Input) (token : string) (currentCommitSha : value) : Request :=
  mkRequest "GET" (repos input +:+ "/git/commits/" +:+ String_ currentCommitSha)
    (read_headers token) None.

Definition get_tree (input : Input) (token : string) (baseTreeSha : value) : Request :=
  mkRequest "GET" (repos input +:+ "/git/trees/" +:+ String_ baseTreeSha +:+ "?recursive=1")
    (read_headers token) None.

Definition post_tree (input : Input) (token : string) (entries : list value) : Request :=
  mkRequest "POST" (repos input +:+ "/git/trees") (write_headers token)
    (Some (JSON_stringify (VObj [("tree", VArr entries)]))).

Definition post_commit (input : Input) (token : string) (treeSha currentCommitSha : value)
  : Request :=
  mkRequest "POST" (repos input +:+ "/git/commits") (write_headers token)
    (Some (JSON_stringify
             (VObj [("message", VStr ("Delete directory " +:+ path input));
                    ("tree", treeSha);
                    ("parents", VArr [currentCommitSha])]))).

Definition patch_ref (input : Input) (token : string) (commitSha : value) : Request :=
  mkRequest "PATCH" (repos input +:+ "/git/refs/heads/" +:+ branchName input)
    (write_headers token)
    (Some (JSON_stringify (VObj [("sha", commitSha)]))).

(** [deleteBody], with [branch] when one was given. *)
Definition delete_contents (input : Input) (token : string) : Request :=
  mkRequest "DELETE" (repos input +:+ "/contents/" +:+ path input) (write_headers token)
    (Some (JSON_stringify
             (VObj ([("message", VStr ("Delete " +:+ path input));
                     ("sha", VStr (sha input))]
                    ++ match branch input with
                       | Some b => if String.eqb b "" then [] else [("branch", VStr b)]
                       | None => []
                       end)))).

Definition failed (r : FetchResponse) (what : string) : M Response :=
  ret (respond (status r) (VObj [("error", VStr what)])).

Definition success : M Response := ret (respond 200 (VObj [("success", VBool true)])).

(** The directory branch (lines 63-230): the tree of the branch tip is
    rewritten without the directory and the branch moved to a new commit. *)
Definition delete_dir (input : Input) (token : string) : M Response :=
  refResponse <- fetch (get_ref input token) ;;
  if negb (ok refResponse) then failed refResponse "Failed to get branch reference" else
  refData <- json_ refResponse ;;
  object <- get refData "object" ;;
  currentCommitSha <- get object "sha" ;;
  commitResponse <- fetch (get_commit input token currentCommitSha) ;;
  if negb (ok commitResponse) then failed commitResponse "Failed to get commit" else
  commitData <- json_ commitResponse ;;
  tree <- get commitData "tree" ;;
  baseTreeSha <- get tree "sha" ;;
  treeResponse <- fetch (get_tree input token baseTreeSha) ;;
  if negb (ok treeResponse) then failed treeResponse "Failed to get tree" else
  treeData <- json_ treeResponse ;;
  entries <- newTree (path input) treeData ;;
  newTreeResponse <- fetch (post_tree input token entries) ;;
  if negb (ok newTreeResponse) then failed newTreeResponse "Failed to create new tree" else
  newTreeData <- json_ newTreeResponse ;;
  newTreeSha <- get newTreeData "sha" ;;
  newCommitResponse <- fetch (post_commit input token newTreeSha currentCommitSha) ;;
  if negb (ok newCommitResponse) then failed newCommitResponse "Failed to create commit" else
  newCommitData <- json_ newCommitResponse ;;
  newCommitSha <- get newCommitData "sha" ;;
  updateRefResponse <- fetch (patch_ref input token newCommitSha) ;;
  if negb (ok updateRefResponse) then failed updateRefResponse "Failed to update branch" else
  success.

(** The file branch (lines 231-266). *)
Definition delete_blob (input : Input) (token : string) : M Response :=
  githubResponse <- fetch (delete_contents input token) ;;
  if negb (ok githubResponse) then failed githubResponse "Failed to delete file on GitHub" else
  success.

Definition serve (req : Req) : M Response :=
  if String.eqb (req_method req) "OPTIONS" then ret (mkResponse 200 corsHeaders None)
  else
  try_catch
    (body <- req_body req ;;
     match deleteFileSchema body with
     | inl issues => ret (invalid_input issues)
     | inr input =>
         profile <- getGitHubToken ;;
         match profile with
         | None => ret (respond 401 (VObj [("error", VStr "Unauthorized")]))
         | Some p =>
             if differs (owner input) (github_username p)
             then ret (respond 403
                         (VObj [("error",
                                 VStr "Unauthorized: can only access your own repositories")]))
             else
               match type input with
               | Some dir => delete_dir input (the (github_access_token p))
               | _ => delete_blob input (the (github_access_token p))
               end
         end
     end)
    internal_error.

End delete_file.

(** ** rename-file/index.ts *)

Module rename_file.

Record Input : Type := mkInput {
  owner : string;
  repo : string;
  path : string;
  new_path : string;
  sha : string;
  branch : string
}.

Definition renameFileSchema : z.Schema Input :=
  z.object (fun o =>
    match z.prop_of "owner" (z.string [z.min 1]) o,
          z.prop_of "repo" (z.string [z.min 1]) o,
          z.prop_of "path" (z.string []) o,
          z.prop_of "new_path" (z.string []) o,
          z.prop_of "sha" (z.string [z.min 1]) o,
          z.prop_of "branch" (z.default (z.string []) (VStr "main")) o with
    | inr ow, inr re, inr pa, inr np, inr sh, inr br => inr (mkInput ow re pa np sh br)
    | ow, re, pa, np, sh, br =>
        inl (z.issues_of ow ++ z.issues_of re ++ z.issues_of pa ++ z.issues_of np
             ++ z.issues_of sh ++ z.issues_of br)
    end).

Definition headers (token : string) : list (string * string) :=
  [bearer token;
   ("Accept", "application/vnd.github.v3+json");
   ("User-Agent", "RepoPush")].

Definition contents (input : Input) (p : string) : string :=
  api +:+ "/repos/" +:+ owner input +:+ "/" +:+ repo input +:+ "/contents/" +:+ p.

Definition get_request (input : Input) (token : string) : Request :=
  mkRequest "GET" (contents input (path input) +:+ "?ref=" +:+ branch input)
    (headers token) None.

Definition put_request (input : Input) (token : string) (content : value) : Request :=
  mkRequest "PUT" (contents input (new_path input)) (headers token)
    (Some (JSON_stringify
             (VObj [("message",
                     VStr ("Rename " +:+ path input +:+ " to " +:+ new_path input));
                    ("content", content);
                    ("branch", VStr (branch input))]))).

Definition delete_request (input : Input) (token : string) : Request :=
  mkRequest "DELETE" (contents input (path input)) (headers token)
    (Some (JSON_stringify
             (VObj [("message", VStr ("Delete old file " +:+ path input));
                    ("sha", VStr (sha input));
                    ("branch", VStr (branch input))]))).

Definition serve (req : Req) : M Response :=
  if String.eqb (req_method req) "OPTIONS" then ret (mkResponse 200 corsHeaders None)
  else
  try_catch
    (body <- req_body req ;;
     input <- parse renameFileSchema body ;;
     user <- getUser ;;
     match user with
     | None => ret (respond 401 (VObj [("error", VStr "Unauthorized")]))
     | Some id =>
         profile <- select_single ["github_access_token"] id ;;
         if absent (token_of profile)
         then ret (respond 401 (VObj [("error", VStr "GitHub token not found")]))
         else
           let token := the (token_of profile) in
           getResponse <- fetch (get_request input token) ;;
           if negb (ok getResponse)
           then ret (respond (status getResponse)
                       (VObj [("error", VStr "Failed to get file content")]))
           else
             fileData <- json_ getResponse ;;
             content <- get fileData "content" ;;
             createResponse <- fetch (put_request input token content) ;;
             if negb (ok createResponse)
             then ret (respond (status createResponse)
                         (VObj [("error", VStr "Failed to create file at new location")]))
             else
               _ <- fetch (delete_request input token) ;;
               ret (respond 200 (VObj [("success", VBool true)]))
     end)
    internal_error.

End rename_file.

(** ** rename-repo/index.ts *)

Module rename_repo.

Record Input : Type := mkInput { owner : string; repo : string; new_name : string }.

Definition renameRepoSchema : z.Schema Input :=
  z.object (fun o =>
    match z.prop_of "owner" (z.string [z.min 1]) o,
          z.prop_of "repo" (z.string [z.min 1]) o,
          z.prop_of "new_name" (z.string [z.min 1]) o with
    | inr ow, inr re, inr nn => inr (mkInput ow re nn)
    | ow, re, nn => inl (z.issues_of ow ++ z.issues_of re ++ z.issues_of nn)
    end).

Definition patch (input : Input) (token : string) : Request :=
  mkRequest "PATCH" (api +:+ "/repos/" +:+ owner input +:+ "/" +:+ repo input)
    [bearer token;
     ("Accept", "application/vnd.github.v3+json");
     ("User-Agent", "RepoPush")]
    (Some (JSON_stringify (VObj [("name", VStr (new_name input))]))).

Definition serve (req : Req) : M Response :=
  if String.eqb (req_method req) "OPTIONS" then ret (mkResponse 200 corsHeaders None)
  else
  try_catch
    (body <- req_body req ;;
     input <- parse renameRepoSchema body ;;
     user <- getUser ;;
     match user with
     | None => ret (respond 401 (VObj [("error", VStr "Unauthorized")]))
     | Some id =>
         profile <- select_single ["github_access_token"; "github_username"] id ;;
         (* [profileError] is set exactly when [single()] finds no row *)
         if match profile with None => true | Some _ => false end
            || absent (token_of profile)
         then ret (respond 401 (VObj [("error", VStr "GitHub token not found")]))
         else if differs (owner input) (username_of profile)
         then ret (respond 403
                     (VObj [("error", VStr "You can only rename your own repositories")]))
         else
           githubResponse <- fetch (patch input (the (token_of profile))) ;;
           if negb (ok githubResponse)
           then ret (respond (status githubResponse)
                       (VObj [("error", VStr "Failed to rename repository")]))
           else
             result <- json_ githubResponse ;;
             name <- get result "name" ;;
             ret (respond 200 (VObj [("success", VBool true); ("new_name", name)]))
     end)
    internal_error.

End rename_repo.

(** ** update-repo/index.ts *)

Module update_repo.

Record Input : Type := mkInput {
  owner : string;
  repo : string;
  description : option string;
  homepage : option string;
  isPrivate : option bool
}.

Definition updateRepoSchema : z.Schema Input :=
  z.object (fun o =>
    match z.prop_of "owner" (z.string [z.min 1]) o,
          z.prop_of "repo" (z.string [z.min 1]) o,
          z.prop_of "description" (z.optional (z.string [z.max 350])) o,
          z.prop_of "homepage" (z.optional (z.string [z.max 255])) o,
          z.prop_of "private" (z.optional z.boolean) o with
    | inr ow, inr re, inr de, inr ho, inr pr => inr (mkInput ow re de ho pr)
    | ow, re, de, ho, pr =>
        inl (z.issues_of ow ++ z.issues_of re ++ z.issues_of de ++ z.issues_of ho
             ++ z.issues_of pr)
    end).

(** [updateData], filled with the fields that are not [undefined]. *)
Definition updateData (input : Input) : value :=
  VObj (match description input with Some d => [("description", VStr d)] | None => [] end
        ++ match homepage input with Some h => [("homepage", VStr h)] | None => [] end
        ++ match isPrivate input with Some p => [("private", VBool p)] | None => [] end).

Definition patch (input : Input) (token : string) : Request :=
  mkRequest "PATCH" (api +:+ "/repos/" +:+ owner input +:+ "/" +:+ repo input)
    [bearer token;
     ("Accept", "application/vnd.github.v3+json");
     ("Content-Type", "application/json");
     ("User-Agent", "RepoPush")]
    (Some (JSON_stringify (updateData input))).

Definition serve (req : Req) : M Response :=
  if String.eqb (req_method req) "OPTIONS" then ret (mkResponse 200 corsHeaders None)
  else
  try_catch
    (body <- req_body req ;;
     input <- parse updateRepoSchema body ;;
     user <- getUser ;;
     match user with
     | None => ret (respond 401 (VObj [("error", VStr "Unauthorized")]))
     | Some id =>
         profile <- select_single ["github_access_token"; "github_username"] id ;;
         if match profile with None => true | Some _ => false end
            || absent (token_of profile)
         then ret (respond 401 (VObj [("error", VStr "GitHub token not found")]))
         else if differs (owner input) (username_of profile)
         then ret (respond 403
                     (VObj [("error", VStr "You can only update your own repositories")]))
         else
           githubResponse <- fetch (patch input (the (token_of profile))) ;;
           if negb (ok githubResponse)
           then ret (respond (status githubResponse)
                       (VObj [("error", VStr "Failed to update repository")]))
           else
             updatedRepo <- json_ githubResponse ;;
             ret (respond 200 (VObj [("repository", updatedRepo)]))
     end)
    internal_error.

End update_repo.

(** ** star-repo/index.ts (the second handler of the update-repo source) *)

Module star_repo.

Record Input : Type := mkInput { owner : string; repo : string; starred : bool }.

Definition starRepoSchema : z.Schema Input :=
  z.object (fun o =>
    match z.prop_of "owner" (z.string [z.min 1]) o,
          z.prop_of "repo" (z.string [z.min 1]) o,
          z.prop_of "starred" z.boolean o with
    | inr ow, inr re, inr st => inr (mkInput ow re st)
    | ow, re, st => inl (z.issues_of ow ++ z.issues_of re ++ z.issues_of st)
    end).

Definition star (input : Input) (token : string) : Request :=
  mkRequest (if starred input then "PUT" else "DELETE")
    (api +:+ "/user/starred/" +:+ owner input +:+ "/" +:+ repo input)
    [bearer token;
     ("Accept", "application/vnd.github.v3+json");
     ("Content-Length", "0");
     ("User-Agent", "RepoPush")]
    None.

Definition serve (req : Req) : M Response :=
  if String.eqb (req_method req) "OPTIONS" then ret (mkResponse 200 corsHeaders None)
  else
  try_catch
    (body <- req_body req ;;
     input <- parse starRepoSchema body ;;
     user <- getUser ;;
     match user with
     | None => ret (respond 401 (VObj [("error", VStr "Unauthorized")]))
     | Some id =>
         profile <- select_single ["github_access_token"] id ;;
         if match profile with None => true | Some _ => false end
            || absent (token_of profile)
         then ret (respond 401 (VObj [("error", VStr "GitHub token not found")]))
         else
           githubResponse <- fetch (star input (the (token_of profile))) ;;
           if negb (ok githubResponse) && negb (status githubResponse =? 204)%Z
           then ret (respond (status githubResponse)
                       (VObj [("error", VStr "Failed to update star status")]))
           else ret (respond 200 (VObj [("success", VBool true);
                                        ("starred", VBool (starred input))]))
     end)
    internal_error.

End star_repo.

(** ** sync-repo-contents/index.ts *)

Module sync_repo_contents.

Record Input : Type := mkInput {
  sourceRepo : string;
  destRepo : string;
  sourceBranch : string;
  destBranch : string
}.

Definition syncRepoSchema : z.Schema Input :=
  z.object (fun o =>
    match z.prop_of "sourceRepo" (z.string [z.min 1; z.max 100;
                                            z.regex repo_char "Invalid source repo name"]) o,
          z.prop_of "destRepo" (z.string [z.min 1; z.max 100;
                                          z.regex repo_char "Invalid dest repo name"]) o,
          z.prop_of "sourceBranch" (z.string [z.min 1; z.max 255;
                                              z.regex branch_char "Invalid source branch"]) o,
          z.prop_of "destBranch" (z.string [z.min 1; z.max 255;
                                            z.regex branch_char "Invalid dest branch"]) o
    with
    | inr sr, inr dr, inr sb, inr db => inr (mkInput sr dr sb db)
    | sr, dr, sb, db =>
        inl (z.issues_of sr ++ z.issues_of dr ++ z.issues_of sb ++ z.issues_of db)
    end).

(** What [createOrGetBranch] returns. *)
Record BranchResult : Type := mkBranchResult { success : bool; error : string }.

Definition read_headers (githubToken : string) : list (string * string) :=
  [bearer githubToken;
   ("Accept", "application/vnd.github.v3+json");
   ("User-Agent", "RepoPush")].

Definition get_repo (owner githubToken repo : string) : Request :=
  mkRequest "GET" (api +:+ "/repos/" +:+ owner +:+ "/" +:+ repo) (read_headers githubToken) None.

(** [validateRepo] (lines 52-72) *)
Definition validateRepo (owner githubToken repo : string) : M unit :=
  response <- fetch (get_repo owner githubToken repo) ;;
  if negb (ok response)
  then throw (Error ("Repository " +:+ repo +:+ " not found or not accessible"))
  else
    repoData <- json_ response ;;
    repo_owner <- get repoData "owner" ;;
    login <- get repo_owner "login" ;;
    if negb (strict_eq_str login owner)
    then throw (Error ("Repository " +:+ repo +:+ " does not belong to user " +:+ owner))
    else ret tt.

Definition get_source_tree (input : Input) (owner githubToken : string) : Request :=
  mkRequest "GET"
    (api +:+ "/repos/" +:+ owner +:+ "/" +:+ sourceRepo input +:+ "/git/trees/"
     +:+ sourceBranch input +:+ "?recursive=1")
    (read_headers githubToken) None.

(** The three requests made for one file; [p] is [file.path]. *)
Definition get_source (input : Input) (owner githubToken : string) (p : value) : Request :=
  mkRequest "GET"
    (api +:+ "/repos/" +:+ owner +:+ "/" +:+ sourceRepo input +:+ "/contents/" +:+ String_ p
     +:+ "?ref=" +:+ sourceBranch input)
    (read_headers githubToken) None.

Definition probe (input : Input) (owner githubToken : string) (p : value) : Request :=
  mkRequest "GET"
    (api +:+ "/repos/" +:+ owner +:+ "/" +:+ destRepo input +:+ "/contents/" +:+ String_ p
     +:+ "?ref=" +:+ destBranch input)
    (read_headers githubToken) None.

(** [...(fileExists && existingFile?.sha ? { sha: existingFile.sha } : {})] *)
Definition sha_spread (fileExists : bool) (existing_sha : value) : list (string * value) :=
  if fileExists && truthy existing_sha then [("sha", existing_sha)] else [].

Definition put (input : Input) (owner githubToken : string) (p content : value)
  (spread : list (string * value)) : Request :=
  mkRequest "PUT"
    (api +:+ "/repos/" +:+ owner +:+ "/" +:+ destRepo input +:+ "/contents/" +:+ String_ p)
    [bearer githubToken;
     ("Accept", "application/vnd.github.v3+json");
     ("Content-Type", "application/json");
     ("User-Agent", "RepoPush")]
    (Some (JSON_stringify
             (VObj ([("message",
                      VStr ("Sync: Merged " +:+ String_ p +:+ " from " +:+ sourceRepo input
                            +:+ ":" +:+ sourceBranch input));
                     ("content", content);
                     ("branch", VStr (destBranch input))]
                    ++ spread)))).

(** The body of the loop, inside its [try] (lines 131-188); [syncedCount] is
    the counter before, the result the counter after. *)
Definition sync_file (input : Input) (owner githubToken : string) (file : value)
  (syncedCount : Z) : M Z :=
  p <- get file "path" ;;
  fileResponse <- fetch (get_source input owner githubToken p) ;;
  if ok fileResponse then
    fileData <- json_ fileResponse ;;
    checkResponse <- fetch (probe input owner githubToken p) ;;
    let fileExists := ok checkResponse in
    existingFile <- (if fileExists then json_ checkResponse else ret VNull) ;;
    content <- get fileData "content" ;;
    existing_sha <- get_opt existingFile "sha" ;;
    uploadResponse <- fetch (put input owner githubToken p content
                               (sha_spread fileExists existing_sha)) ;;
    if ok uploadResponse then ret (syncedCount + 1)%Z else ret syncedCount
  else ret syncedCount.

Definition MAX_FILES : nat := 100.

(** [for (const file of files.slice(0, MAX_FILES)) { try {...} catch {...} }] *)
Definition sync_files (input : Input) (owner githubToken : string) (files : list value)
  : M Z :=
  for_of (firstn MAX_FILES files) 0%Z
    (fun file syncedCount =>
       try_catch (sync_file input owner githubToken file syncedCount)
         (fun _ => ret syncedCount)).

(** [(item) => item.type === 'blob'] *)
Definition is_blob (item : value) : M bool :=
  t <- get item "type" ;; ret (strict_eq_str t "blob").

Definition token_expired : Response :=
  respond 401
    (VObj [("error",
            VStr "Your GitHub token is invalid or has expired. Please log out and log back in.")]).

(** From the tree listing to the response (lines 121-201): the blobs are
    kept, the first [MAX_FILES] of them synced, and the counts reported. *)
Definition report (input : Input) (owner githubToken : string) (treeData : value)
  : M Response :=
  tree <- get treeData "tree" ;;
  items <- filter_receiver tree "treeData.tree" ;;
  files <- filterM is_blob items ;;
  syncedCount <- sync_files input owner githubToken files ;;
  ret (respond 200
         (VObj [("success", VBool true);
                ("files_synced", VNum syncedCount);
                ("total_files", VNum (Z.of_nat (length files)))])).

Section Handler.

(** [createOrGetBranch(owner, repo, branch, token)] of
    [_shared/github-helper.ts], which is not among the sources: any
    computation that makes sure the destination branch exists. *)
Variable createOrGetBranch : string -> string -> string -> string -> M BranchResult.

Definition serve (req : Req) : M Response :=
  if String.eqb (req_method req) "OPTIONS" then ret (mkResponse 200 corsHeaders None)
  else
  try_catch
    (body <- req_body req ;;
     match syncRepoSchema body with
     | inl issues => ret (invalid_input issues)
     | inr input =>
         profile <- getGitHubToken ;;
         match profile with
         | None => ret token_expired
         | Some p =>
             let githubToken := the (github_access_token p) in
             let owner := the (github_username p) in
             validated <- try_catch
                            (validateRepo owner githubToken (sourceRepo input) ;;
                             validateRepo owner githubToken (destRepo input) ;;
                             ret None)
                            (fun e => env <- ask ;;
                                      ret (Some (respond 403
                                                   (VObj [("error",
                                                           VStr (exn_message env e))])))) ;;
             match validated with
             | Some rejection => ret rejection
             | None =>
                 branchResult <- createOrGetBranch owner (destRepo input) (destBranch input)
                                   githubToken ;;
                 if negb (success branchResult)
                 then ret (respond 400
                             (VObj [("error",
                                     VStr ("Failed to create/access destination branch: "
                                           +:+ error branchResult))]))
                 else
                   treeResponse <- fetch (get_source_tree input owner githubToken) ;;
                   if negb (ok treeResponse)
                   then
                     if (status treeResponse =? 401)%Z then ret token_expired
                     else throw (Error "Failed to fetch source repository tree. Please verify the branch exists.")
                   else
                     treeData <- json_ treeResponse ;;
                     report input owner githubToken treeData
             end
         end
     end)
    internal_error.

End Handler.

End sync_repo_contents.

(** ** get-repo-contents/index.ts *)

Module get_repo_contents.

(** [validation.data]; [path] has the type zod infers for
    [.optional().default('')], a string or [undefined]. *)
Record Input : Type := mkInput {
  owner : string;
  repo : string;
  path : option string;
  ref : option string
}.

Definition getContentsSchema : z.Schema Input :=
  z.object (fun o =>
    match z.prop_of "owner" ownerSchema o,
          z.prop_of "repo" repoSchema o,
          z.prop_of "path"
            (z.default
               (z.optional (z.string [z.max 4096;
                                      z.refine no_traversal "Path traversal not allowed"]))
               (VStr "")) o,
          z.prop_of "ref" (z.optional (z.string [z.min 1; z.max 255;
                                                 z.regex branch_char "Invalid ref"])) o
    with
    | inr ow, inr re, inr pa, inr rf => inr (mkInput ow re pa rf)
    | ow, re, pa, rf =>
        inl (z.issues_of ow ++ z.issues_of re ++ z.issues_of pa ++ z.issues_of rf)
    end).

(** [`${path}`] *)
Definition path_text (p : option string) : string :=
  match p with
  | Some s => s
  | None => "undefined"
  end.

(** [ref ? `.../contents/${path}?ref=${ref}` : `.../contents/${path}`] *)
Definition url_ (input : Input) : string :=
  let contents := api +:+ "/repos/" +:+ owner input +:+ "/" +:+ repo input +:+ "/contents/"
                  +:+ path_text (path input) in
  match ref input with
  | Some r => if String.eqb r "" then contents else contents +:+ "?ref=" +:+ r
  | None => contents
  end.

Definition get_contents (input : Input) (token : string) : Request :=
  mkRequest "GET" (url_ input)
    [bearer token;
     ("Accept", "application/vnd.github.v3+json");
     ("User-Agent", "RepoPush")]
    None.

(** The headers of the listing that is sent back (lines 108-114). *)
Definition no_cache : list (string * string) :=
  corsHeaders ++ [("Content-Type", "application/json");
                  ("Cache-Control", "no-cache, no-store, must-revalidate");
                  ("Pragma", "no-cache");
                  ("Expires", "0")].

Definition serve (req : Req) : M Response :=
  if String.eqb (req_method req) "OPTIONS" then ret (mkResponse 200 corsHeaders None)
  else
  try_catch
    (body <- req_body req ;;
     match getContentsSchema body with
     | inl issues => ret (invalid_input issues)
     | inr input =>
         user <- getUser ;;
         match user with
         | None => ret (respond 401 (VObj [("error", VStr "Unauthorized")]))
         | Some id =>
             profile <- select_single ["github_access_token"; "github_username"] id ;;
             if absent (token_of profile) || absent (username_of profile)
             then ret (respond 400 (VObj [("error", VStr "GitHub token not found")]))
             else if differs (owner input) (username_of profile)
             then ret (respond 403
                         (VObj [("error",
                                 VStr "Unauthorized: can only access your own repositories")]))
             else
               githubResponse <- fetch (get_contents input (the (token_of profile))) ;;
               if negb (ok githubResponse)
               then ret (respond (status githubResponse)
                           (VObj [("error", VStr "Failed to fetch repository contents")]))
               else
                 contents <- json_ githubResponse ;;
                 ret (mkResponse 200 no_cache
                        (Some (JSON_stringify (VObj [("contents", contents)]))))
         end
     end)
    internal_error.

End get_repo_contents.

(** ** get-repo-branches/index.ts *)

Module get_repo_branches.

Record Input : Type := mkInput { repositoryName : string }.

Definition getBranchesSchema : z.Schema Input :=
  z.object (fun o =>
    match z.prop_of "repositoryName"
            (z.string [z.min 1; z.max 100; z.regex repo_char "Invalid repository name"]) o
    with
    | inr name => inr (mkInput name)
    | inl issues => inl issues
    end).

Definition headers (githubToken : string) : list (string * string) :=
  [bearer githubToken;
   ("Accept", "application/vnd.github.v3+json");
   ("User-Agent", "RepoPush")].

(** The check of the repository (lines 74-83). *)
Definition get_repo (input : Input) (owner githubToken : string) : Request :=
  mkRequest "GET" (api +:+ "/repos/" +:+ owner +:+ "/" +:+ repositoryName input)
    (headers githubToken) None.

(** The listing of its branches (lines 102-111). *)
Definition get_branches (input : Input) (owner githubToken : string) : Request :=
  mkRequest "GET" (api +:+ "/repos/" +:+ owner +:+ "/" +:+ repositoryName input +:+ "/branches")
    (headers githubToken) None.

Definition serve (req : Req) : M Response :=
  if String.eqb (req_method req) "OPTIONS" then ret (mkResponse 200 corsHeaders None)
  else
  try_catch
    (body <- req_body req ;;
     match getBranchesSchema body with
     | inl issues => ret (invalid_input issues)
     | inr input =>
         user <- getUser ;;
         match user with
         | None => ret (respond 401 (VObj [("error", VStr "Unauthorized")]))
         | Some id =>
             profile <- select_single ["github_access_token"; "github_username"] id ;;
             if absent (token_of profile) || absent (username_of profile)
             then ret (respond 400 (VObj [("error", VStr "GitHub token not found")]))
             else
               let githubToken := the (token_of profile) in
               let owner := the (username_of profile) in
               repoCheckResponse <- fetch (get_repo input owner githubToken) ;;
               if negb (ok repoCheckResponse)
               then ret (respond 404
                           (VObj [("error", VStr "Repository not found or not accessible")]))
               else
                 repoData <- json_ repoCheckResponse ;;
                 repo_owner <- get repoData "owner" ;;
                 login <- get repo_owner "login" ;;
                 if negb (strict_eq_str login owner)
                 then ret (respond 403
                             (VObj [("error",
                                     VStr "Unauthorized: can only access your own repositories")]))
                 else
                   branchesResponse <- fetch (get_branches input owner githubToken) ;;
                   if negb (ok branchesResponse)
                   then ret (respond (status branchesResponse)
                               (VObj [("error", VStr "Failed to fetch branches from GitHub")]))
                   else
                     branches <- json_ branchesResponse ;;
                     (* [branches.length], read for the log line *)
                     _ <- get branches "length" ;;
                     ret (respond 200 (VObj [("branches", branches)]))
         end
     end)
    internal_error.

End get_repo_branches.

(** ** create-pull-request/index.ts *)

Module create_pull_request.

(** [validation.data]; [prBody] is the name the handler gives to [body]. *)
Record Input : Type := mkInput {
  repositoryName : string;
  title : string;
  prBody : option string;
  head : string;
  base : string
}.

Definition createPRSchema : z.Schema Input :=
  z.object (fun o =>
    match z.prop_of "repositoryName"
            (z.string [z.min 1; z.max 100; z.regex repo_char "Invalid repository name"]) o,
          z.prop_of "title" (z.string [z.min 1; z.max 256]) o,
          z.prop_of "body" (z.optional (z.string [z.max 65536])) o,
          z.prop_of "head" (z.string [z.min 1; z.max 255;
                                      z.regex branch_char "Invalid head branch"]) o,
          z.prop_of "base" (z.string [z.min 1; z.max 255;
                                      z.regex branch_char "Invalid base branch"]) o
    with
    | inr rn, inr ti, inr bo, inr he, inr ba => inr (mkInput rn ti bo he ba)
    | rn, ti, bo, he, ba =>
        inl (z.issues_of rn ++ z.issues_of ti ++ z.issues_of bo ++ z.issues_of he
             ++ z.issues_of ba)
    end).

Definition post_pull (input : Input) (owner githubToken : string) : Request :=
  mkRequest "POST" (api +:+ "/repos/" +:+ owner +:+ "/" +:+ repositoryName input +:+ "/pulls")
    [bearer githubToken;
     ("Accept", "application/vnd.github.v3+json");
     ("Content-Type", "application/json");
     ("User-Agent", "RepoPush")]
    (Some (JSON_stringify
             (VObj [("title", VStr (title input));
                    ("body", VStr (or_else (prBody input) ""));
                    ("head", VStr (head input));
                    ("base", VStr (base input))]))).

(** [v[0]] *)
Definition first_ (v : value) : M value :=
  match v with
  | VUndef => throw (TypeError "Cannot read properties of undefined (reading '0')")
  | VNull => throw (TypeError "Cannot read properties of null (reading '0')")
  | VArr items => ret (hd VUndef items)
  | VStr (String c _) => ret (VStr (String c EmptyString))
  | VObj fields => ret (field "0" fields)
  | _ => ret VUndef
  end.

Definition no_changes : value := VStr "No changes to merge between these branches".

(** [errorDetail] (lines 84-92).  [JSON.parse(errorText)] is what [.json()]
    gives on the same body.  The second read of [errorData.errors[0].message]
    gives the value the test has just read. *)
Definition errorDetail (prResponse : FetchResponse) : M value :=
  try_catch
    (errorData <- json_ prResponse ;;
     errors <- get errorData "errors" ;;
     if truthy errors
     then
       first_error <- first_ errors ;;
       message <- get_opt first_error "message" ;;
       if truthy message then ret message else ret no_changes
     else ret no_changes)
    (fun _ => ret no_changes).

(** From the credential to the response (lines 47-116). *)
Definition open_pull (input : Input) (owner githubToken : string) : M Response :=
  prResponse <- fetch (post_pull input owner githubToken) ;;
  if negb (ok prResponse)
  then
    if (status prResponse =? 401)%Z
    then ret (respond 401
                (VObj [("error",
                        VStr "Your GitHub token is invalid or has expired. Please log out and log back in.")]))
    else if (status prResponse =? 422)%Z
    then
      detail_ <- errorDetail prResponse ;;
      ret (respond 422 (VObj [("error", detail_)]))
    else ret (respond (status prResponse)
                (VObj [("error",
                        VStr "Failed to create pull request. Please check your branch selections and try again.")]))
  else
    prData <- json_ prResponse ;;
    html_url <- get prData "html_url" ;;
    number <- get prData "number" ;;
    ret (respond 200 (VObj [("success", VBool true);
                            ("pull_request_url", html_url);
                            ("pull_request_number", number)])).

Definition serve (req : Req) : M Response :=
  if String.eqb (req_method req) "OPTIONS" then ret (mkResponse 200 corsHeaders None)
  else
  try_catch
    (body <- req_body req ;;
     match createPRSchema body with
     | inl issues => ret (invalid_input issues)
     | inr input =>
         profile <- getGitHubToken ;;
         match profile with
         | None => ret (respond 401
                          (VObj [("error", VStr "Unauthorized or GitHub token not found")]))
         | Some p =>
             open_pull input (the (github_username p)) (the (github_access_token p))
         end
     end)
    internal_error.

End create_pull_request.

(** ** The dialogs that call the handlers *)

(** [supabase.functions.invoke(name, {body})]: the document is sent as JSON
    in a [POST] to the function of that name. *)
Definition invoke (body : value) : Req := mkReq "POST" (inr (JSON_stringify body)).

(** [const [owner, repoName] = repo.full_name.split('/')]: the segment at
    [n], [undefined] when there is none. *)
Definition segment (n : nat) (full_name : string) : value :=
  match nth_error (split_slash full_name) n with
  | Some s => VStr s
  | None => VUndef
  end.

(** [a || b] for two optional strings, as a value. *)
Definition or_value (a b : option string) : value :=
  match a with
  | Some s => if String.eqb s "" then match b with Some s' => VStr s' | None => VUndef end
              else VStr s
  | None => match b with Some s' => VStr s' | None => VUndef end
  end.

(** *** RepositorySettingsDialog.tsx *)

Module RepositorySettingsDialog.

(** [RepoSettingsForm], what the form hands to [onSubmit]. *)
Record RepoSettingsForm : Type := mkForm {
  description : option string;
  homepage : option string;
  private_ : bool;
  default_branch : option string;
  topics : option string
}.

(** The body [fetchBranches] sends to get-repo-branches (lines 82-85). *)
Definition fetchBranches_body (full_name : string) : value :=
  VObj [("owner", segment 0 full_name); ("repo", segment 1 full_name)].

(** The body [onSubmit] sends to update-repo (lines 101-118);
    [topicsArray] is the array made from [data.topics] at lines 104-106. *)
Definition onSubmit_body (full_name : string) (repo_default_branch : option string)
  (data : RepoSettingsForm) (topicsArray : list string) : value :=
  VObj [("owner", segment 0 full_name);
        ("repo", segment 1 full_name);
        ("description", VStr (or_else (description data) ""));
        ("homepage", VStr (or_else (homepage data) ""));
        ("private", VBool (private_ data));
        ("default_branch", or_value (default_branch data) repo_default_branch);
        ("topics", VArr (map VStr topicsArray))].

End RepositorySettingsDialog.

(** *** RenameItemDialog (the second dialog of the rename dialogs source) *)

Module RenameItemDialog.

(** The [file] property of the dialog. *)
Record FileItem : Type := mkFileItem {
  name : string;
  path : string;
  sha : string;
  type : FileType
}.

(** [currentPath ? `${currentPath}/${newName}` : newName] *)
Definition newPath (currentPath newName : string) : string :=
  if negb (String.eqb currentPath "") then currentPath +:+ "/" +:+ newName else newName.

(** [handleRename] (lines 148-171): the body it sends to rename-file, or
    nothing when the new name is empty or is the old name. *)
Definition handleRename (file_ : FileItem) (owner repo branch currentPath newName : string)
  : option value :=
  if String.eqb newName "" || String.eqb newName (name file_) then None
  else Some (VObj [("owner", VStr owner);
                   ("repo", VStr repo);
                   ("path", VStr (path file_));
                   ("new_path", VStr (newPath currentPath newName));
                   ("sha", VStr (sha file_));
                   ("branch", VStr branch)]).

End RenameItemDialog.

(** * Vocabulary of the properties *)

(** The two events of an awaited [fetch]. *)
Definition call (r : Request) (rep : Reply) : Trace := [Issue r; Await r rep].

(** The replies the upstream gives to requests issued one after the other,
    after the requests [h]. *)
Fixpoint replies (env : Env) (h : list Request) (rs : list Request) : list Reply :=
  match rs with
  | [] => []
  | r :: rest => upstream env h r :: replies env (h ++ [r]) rest
  end.

(** A write fails when the upstream answers outside 200-299 or the call
    fails on the network. *)
Definition failed_reply (rep : Reply) : bool :=
  match rep with
  | Settled r => negb (ok r)
  | Rejected _ => true
  end.

(** The entry of [results] a reply leads to. *)
Definition outcome_of (f : upload_files.File) (rep : Reply) : upload_files.Outcome :=
  match rep with
  | Settled r =>
      if negb (ok r)
      then upload_files.mkOutcome (upload_files.path f) false (Some (text r))
      else upload_files.mkOutcome (upload_files.path f) true None
  | Rejected msg => upload_files.mkOutcome (upload_files.path f) false (Some msg)
  end.

Definition count_failed (reps : list Reply) : nat := length (filter failed_reply reps).

(** A trace in which no request is issued while another is pending: every
    [Issue] is followed at once by the [Await] of its reply. *)
Inductive sequential : Trace -> Prop :=
| seq_done : sequential []
| seq_auth tr : sequential tr -> sequential (AuthGetUser :: tr)
| seq_select columns id tr : sequential tr -> sequential (ProfilesSelect columns id :: tr)
| seq_call r rep tr : sequential tr -> sequential (Issue r :: Await r rep :: tr).

(** A computation that issues no request while another is pending. *)
Definition keeps_sequential {A} (c : M A) : Prop :=
  forall env tr, sequential tr -> sequential (snd (c env tr)).

(** The answer of the ownership gate. *)
Definition forbidden (what : string) : Response :=
  respond 403 (VObj [("error", VStr what)]).

(** The answer of the outer [catch] to a [ZodError]. *)
Definition zod_500 (env : Env) (issues : list z.ZodIssue) : Response :=
  respond 500 (VObj [("error", VStr (zod_message env issues))]).

(** An upstream reply that is a success carrying the document [doc]. *)
Definition answering (doc : value) (rep : Reply) : Prop :=
  match rep with
  | Settled r => ok r = true /\ json r = inr doc
  | Rejected _ => False
  end.

(** The path of a tree entry that is an object with a string [path]. *)
Definition entry_path (item : value) : option string :=
  match item with
  | VObj fields => match field "path" fields with
                   | VStr s => Some s
                   | _ => None
                   end
  | _ => None
  end.

(** An entry whose path is neither [dir] nor starts with [prefix]. *)
Definition outside (prefix dir : string) (item : value) : bool :=
  match entry_path item with
  | Some s => negb (startsWith s prefix) && negb (String.eqb s dir)
  | None => false
  end.

(** The four properties of an entry that are sent back. *)
Definition projected (item : value) : value :=
  match item with
  | VObj fields => VObj [("path", field "path" fields);
                         ("mode", field "mode" fields);
                         ("type", field "type" fields);
                         ("sha", field "sha" fields)]
  | _ => VUndef
  end.

(** [doc?.sha] *)
Definition sha_of (doc : value) : value :=
  match doc with
  | VObj fields => field "sha" fields
  | _ => VUndef
  end.

(** The content hash a probe of the destination found: the reply is a
    success and its document carries a [sha]. *)
Definition found_sha (rep : Reply) : option value :=
  match rep with
  | Settled r =>
      if ok r
      then match json r with
           | inr doc => if truthy (sha_of doc) then Some (sha_of doc) else None
           | inl _ => None
           end
      else None
  | Rejected _ => None
  end.

(** What a write is given for the [sha] the probe found. *)
Definition spread_of (rep : Reply) : list (string * value) :=
  match found_sha rep with
  | Some s => [("sha", s)]
  | None => []
  end.

(** A field of the document a request carries. *)
Definition body_field (k : string) (r : Request) : option value :=
  match body r with
  | Some (VObj fields) => lookup k fields
  | _ => None
  end.

(** In the events [seg], every write follows at once the probe of its own
    path, and carries what that probe found. *)
Definition probed (input : sync_repo_contents.Input) (owner githubToken : string)
  (seg : Trace) : Prop :=
  forall w, In (Issue w) seg -> method w = "PUT" ->
  exists p content rep pre post,
    seg = pre ++ Await (sync_repo_contents.probe input owner githubToken p) rep
              :: Issue w :: post /\
    w = sync_repo_contents.put input owner githubToken p content (spread_of rep).

(** The number of writes in a trace that the upstream accepted. *)
Fixpoint successful_writes (tr : Trace) : Z :=
  match tr with
  | [] => 0
  | Await w (Settled r) :: rest =>
      (if String.eqb (method w) "PUT" && ok r then 1 else 0) + successful_writes rest
  | _ :: rest => successful_writes rest
  end.

(** A request made for the file at [p]. *)
Definition concerns (input : sync_repo_contents.Input) (owner githubToken : string)
  (p : value) (r : Request) : Prop :=
  r = sync_repo_contents.get_source input owner githubToken p \/
  r = sync_repo_contents.probe input owner githubToken p \/
  exists content spread, r = sync_repo_contents.put input owner githubToken p content spread.

(** The events of an attempt at the entry [file]: its content is asked
    for, and nothing is asked about another path. *)
Definition attempt (input : sync_repo_contents.Input) (owner githubToken : string)
  (file : value) (seg : Trace) : Prop :=
  exists fields rest,
    file = VObj fields /\
    seg = Issue (sync_repo_contents.get_source input owner githubToken (field "path" fields))
            :: rest /\
    Forall (concerns input owner githubToken (field "path" fields)) (issued seg).

(** An entry of a tree listing that is a blob. *)
Definition blob (item : value) : bool :=
  match item with
  | VObj fields => strict_eq_str (field "type" fields) "blob"
  | _ => false
  end.

Definition is_entry (item : value) : Prop := exists fields, item = VObj fields.

(** A computation that only extends the trace, with requests that all
    satisfy [P]. *)
Definition issues_only {A} (env : Env) (P : Request -> Prop) (c : M A) : Prop :=
  forall tr, exists seg, snd (c env tr) = tr ++ seg /\ Forall P (issued seg).

(** A value the computation can return. *)
Definition returns {A} (env : Env) (c : M A) (a : A) : Prop :=
  exists tr tr', c env tr = (Ok a, tr').

(** The caller is signed in, and the identity store holds the token and the
    account name [username] for them. *)
Definition signed_in (env : Env) (token username : string) : Prop :=
  exists id,
    auth_user env = Some id /\
    profiles env id = Some (mkProfile (Some token) (Some username)) /\
    token <> "" /\ username <> "".

(** The caller is signed in and the identity store holds a token for them. *)
Definition holds_token (env : Env) (token : string) : Prop :=
  exists id,
    auth_user env = Some id /\
    token_of (profiles env id) = Some token /\
    token <> "".

(** The requests delete-file builds from a body and a token: the steps of
    the directory branch and the one call of the file branch. *)
Definition deletes (input : delete_file.Input) (token : string) (r : Request) : Prop :=
  r = delete_file.get_ref input token \/
  (exists sha, r = delete_file.get_commit input token sha) \/
  (exists sha, r = delete_file.get_tree input token sha) \/
  (exists entries, r = delete_file.post_tree input token entries) \/
  (exists treeSha parent, r = delete_file.post_commit input token treeSha parent) \/
  (exists sha, r = delete_file.patch_ref input token sha) \/
  r = delete_file.delete_contents input token.

(** The requests sync-repo-contents builds itself from a body, an account
    name and a token: the two repository checks, the listing of the source
    tree, and the read, probe and write of a path. *)
Definition syncs (input : sync_repo_contents.Input) (owner token : string) (r : Request)
  : Prop :=
  r = sync_repo_contents.get_repo owner token (sync_repo_contents.sourceRepo input) \/
  r = sync_repo_contents.get_repo owner token (sync_repo_contents.destRepo input) \/
  r = sync_repo_contents.get_source_tree input owner token \/
  (exists p, r = sync_repo_contents.get_source input owner token p) \/
  (exists p, r = sync_repo_contents.probe input owner token p) \/
  (exists p content spread, r = sync_repo_contents.put input owner token p content spread).

(** The requests move-files builds for one item of a batch: its read, the
    write at the destination and the delete. *)
Definition moves (input : move_files.Input) (token : string) (f : move_files.Item)
  (r : Request) : Prop :=
  r = move_files.get_request input token f \/
  (exists content, r = move_files.put_request input token f content) \/
  r = move_files.delete_request input token f.

(** The base64 text create-file sends for [content]. *)
Definition encoded (content : string) : string :=
  btoa (string_of_list_ascii (TextEncoder_encode content)).

(** The bytes of [content] can be passed as the arguments of one call. *)
Definition spreads (max_arguments : Z) (content : string) : Prop :=
  (Z.of_nat (length (TextEncoder_encode content)) <= max_arguments)%Z.

(** [v.k] when the read does not throw. *)
Definition prop_ (v : value) (k : string) : value :=
  match v with
  | VObj fields => field k fields
  | _ => VUndef
  end.

(** A computation that leaves the trace as it is. *)
Definition silent {A} (c : M A) : Prop := forall env tr, snd (c env tr) = tr.

(** The message of the first entry of [errors] in GitHub's document for a
    validation failure, when it has one. *)
Definition first_message (r : FetchResponse) : option value :=
  match json r with
  | inr (VObj fields) =>
      match field "errors" fields with
      | VArr (VObj entry :: _) =>
          if truthy (field "message" entry) then Some (field "message" entry) else None
      | _ => None
      end
  | _ => None
  end.

(** The upstream confirms a repository as the caller's: the reply to its
    check is a success whose document has [owner.login] equal to
    [username]. *)
Definition confirmed (username : string) (rep : Reply) : bool :=
  match rep with
  | Settled r =>
      ok r && match json r with
              | inr doc => strict_eq_str (prop_ (prop_ doc "owner") "login") username
              | inl _ => false
              end
  | Rejected _ => false
  end.

(** * Example requests and environments *)

Module Example.

(** A signed-in caller whose stored GitHub account is [bob]. *)
Definition profiles_ (id : string) : option Profile :=
  if String.eqb id "user-1" then Some (mkProfile (Some "gho_bob") (Some "bob")) else None.

Definition env (up : list Request -> Request -> Reply) : Env :=
  mkEnv (Some "user-1") profiles_ up (fun _ => "zod issues").

Definition post (doc : value) : Req := mkReq "POST" (inr doc).

Definition file_doc : value :=
  VObj [("type", VStr "file"); ("content", VStr "aGk="); ("sha", VStr "abc")].

Definition found : FetchResponse := mkFetchResponse 200 "" (inr file_doc).

Definition unprocessable : FetchResponse :=
  mkFetchResponse 422 "Invalid request" (inr (VObj [("message", VStr "Invalid request")])).

Definition not_found : FetchResponse :=
  mkFetchResponse 404 "Not Found" (inr (VObj [("message", VStr "Not Found")])).

(** An upstream that grants everything. *)
Definition granting : list Request -> Request -> Reply :=
  fun _ _ => Settled found.

(** An upstream that refuses every write with 422 and grants the rest. *)
Definition refusing_writes : list Request -> Request -> Reply :=
  fun _ r => if String.eqb (method r) "PUT" then Settled unprocessable else Settled found.

(** A move of [x/old.txt] to [y] in the repository [owner/site]. *)
Definition move (owner : string) : value :=
  VObj [("owner", VStr owner);
        ("repo", VStr "site");
        ("files", VArr [VObj [("path", VStr "x/old.txt");
                              ("sha", VStr "abc");
                              ("type", VStr "file")]]);
        ("destination", VStr "y");
        ("branch", VStr "main")].

Definition move_input (owner : string) : move_files.Input :=
  move_files.mkInput owner "site" [move_files.mkItem "x/old.txt" "abc" file] "y" "main".

Definition headers : list (string * string) :=
  [("Authorization", "Bearer gho_bob");
   ("Accept", "application/vnd.github.v3+json");
   ("User-Agent", "RepoPush")].

Definition move_read (owner : string) : Request :=
  mkRequest "GET"
    ("https://api.github.com/repos/" +:+ owner +:+ "/site/contents/x/old.txt?ref=main")
    headers None.

Definition move_write (owner : string) : Request :=
  mkRequest "PUT"
    ("https://api.github.com/repos/" +:+ owner +:+ "/site/contents/y/old.txt")
    headers
    (Some (VObj [("message", VStr "Move x/old.txt to y/old.txt");
                 ("content", VStr "aGk=");
                 ("branch", VStr "main")])).

Definition move_delete (owner : string) : Request :=
  mkRequest "DELETE"
    ("https://api.github.com/repos/" +:+ owner +:+ "/site/contents/x/old.txt")
    headers
    (Some (VObj [("message", VStr "Delete old file x/old.txt");
                 ("sha", VStr "abc");
                 ("branch", VStr "main")])).

Definition success : Response :=
  mkResponse 200
    [("Access-Control-Allow-Origin", "*");
     ("Access-Control-Allow-Headers", "authorization, x-client-info, apikey, content-type");
     ("Content-Type", "application/json")]
    (Some (VObj [("success", VBool true)])).

(** An upload of two files to [bob/site]. *)
Definition upload : value :=
  VObj [("owner", VStr "bob");
        ("repo", VStr "site");
        ("files", VArr [VObj [("path", VStr "a.txt"); ("content", VStr "YQ==")];
                        VObj [("path", VStr "b.txt"); ("content", VStr "Yg==")]])].

Definition upload_input : upload_files.Input :=
  upload_files.mkInput "bob" "site"
    [upload_files.mkFile "a.txt" "YQ=="; upload_files.mkFile "b.txt" "Yg=="] None None.

(** A rename of [bob/site] that does not say the new name. *)
Definition rename_without_name : value :=
  VObj [("owner", VStr "bob"); ("repo", VStr "site")].

(** A file creation in [bob/site] that does not say the path. *)
Definition create_without_path : value :=
  VObj [("owner", VStr "bob"); ("repo", VStr "site"); ("content", VStr "hi")].

(** A rename of a file in [owner/site] whose old path climbs out of the
    repository and whose new path starts with a slash. *)
Definition rename_traversing (owner : string) : value :=
  VObj [("owner", VStr owner);
        ("repo", VStr "site");
        ("path", VStr "../other/contents/secret.txt");
        ("new_path", VStr "/etc/passwd");
        ("sha", VStr "abc");
        ("branch", VStr "main")].

Definition rename_read (owner : string) : Request :=
  mkRequest "GET"
    ("https://api.github.com/repos/" +:+ owner
     +:+ "/site/contents/../other/contents/secret.txt?ref=main")
    headers None.

Definition rename_write (owner : string) : Request :=
  mkRequest "PUT"
    ("https://api.github.com/repos/" +:+ owner +:+ "/site/contents//etc/passwd")
    headers
    (Some (VObj [("message", VStr "Rename ../other/contents/secret.txt to /etc/passwd");
                 ("content", VStr "aGk=");
                 ("branch", VStr "main")])).

Definition rename_delete (owner : string) : Request :=
  mkRequest "DELETE"
    ("https://api.github.com/repos/" +:+ owner
     +:+ "/site/contents/../other/contents/secret.txt")
    headers
    (Some (VObj [("message", VStr "Delete old file ../other/contents/secret.txt");
                 ("sha", VStr "abc");
                 ("branch", VStr "main")])).

(** The same file created through create-file. *)
Definition create_traversing : value :=
  VObj [("owner", VStr "bob");
        ("repo", VStr "site");
        ("path", VStr "../other/contents/secret.txt");
        ("content", VStr "hi")].

(** A repository whose branch [main] is at commit [c0], with the tree
    [a, a/b.txt, a/c/d.txt, e.txt]. *)
Definition tree_entry (p kind sha : string) : value :=
  VObj [("path", VStr p); ("mode", VStr "100644"); ("type", VStr kind); ("sha", VStr sha);
        ("url", VStr ("https://api.github.com/repos/bob/site/git/blobs/" +:+ sha))].

Definition sent_entry (p kind sha : string) : value :=
  VObj [("path", VStr p); ("mode", VStr "100644"); ("type", VStr kind); ("sha", VStr sha)].

Definition listing : list value :=
  [tree_entry "a" "tree" "t1";
   tree_entry "a/b.txt" "blob" "b1";
   tree_entry "a/c/d.txt" "blob" "b2";
   tree_entry "e.txt" "blob" "b3"].

Definition ref_fields : list (string * value) :=
  [("ref", VStr "refs/heads/main"); ("object", VObj [("sha", VStr "c0")])].

Definition commit_fields : list (string * value) :=
  [("sha", VStr "c0"); ("tree", VObj [("sha", VStr "t0")])].

Definition listing_fields : list (string * value) :=
  [("sha", VStr "t0"); ("tree", VArr listing); ("truncated", VBool false)].

Definition ok_doc (doc : value) : Reply := Settled (mkFetchResponse 200 "" (inr doc)).

(** The git database of that repository: it answers the i-th request of a
    directory deletion with the i-th document. *)
Definition git : list Request -> Request -> Reply :=
  fun h _ =>
    match length h with
    | 0 => ok_doc (VObj ref_fields)
    | 1 => ok_doc (VObj commit_fields)
    | 2 => ok_doc (VObj listing_fields)
    | 3 => Settled (mkFetchResponse 201 "" (inr (VObj [("sha", VStr "t9")])))
    | 4 => Settled (mkFetchResponse 201 "" (inr (VObj [("sha", VStr "c9")])))
    | _ => ok_doc (VObj [("ref", VStr "refs/heads/main");
                         ("object", VObj [("sha", VStr "c9")])])
    end%nat.

(** The deletion of the directory [p] of [bob/site]. *)
Definition delete_dir (p : string) : value :=
  VObj [("owner", VStr "bob"); ("repo", VStr "site"); ("path", VStr p);
        ("sha", VStr "t1"); ("type", VStr "dir")].

Definition delete_dir_input (p : string) : delete_file.Input :=
  delete_file.mkInput "bob" "site" p "t1" None (Some dir).

(** A sync of [bob/site:main] into [bob/mirror:main]. *)
Definition sync_input : sync_repo_contents.Input :=
  sync_repo_contents.mkInput "site" "mirror" "main" "main".

(** An upstream where the destination has the file already, with the
    content hash [abc]. *)
Definition mirrored : list Request -> Request -> Reply := granting.

(** An upstream where the destination has no file: a [GET] in the
    destination repository is answered 404. *)
Definition fresh_mirror : list Request -> Request -> Reply :=
  fun _ r =>
    if String.eqb (method r) "GET"
       && startsWith (url r) "https://api.github.com/repos/bob/mirror/"
    then Settled not_found
    else Settled found.

Definition sync_source (p : string) : Request :=
  mkRequest "GET"
    ("https://api.github.com/repos/bob/site/contents/" +:+ p +:+ "?ref=main") headers None.

Definition sync_probe (p : string) : Request :=
  mkRequest "GET"
    ("https://api.github.com/repos/bob/mirror/contents/" +:+ p +:+ "?ref=main") headers None.

Definition sync_write (p : string) (spread : list (string * value)) : Request :=
  mkRequest "PUT" ("https://api.github.com/repos/bob/mirror/contents/" +:+ p)
    [("Authorization", "Bearer gho_bob");
     ("Accept", "application/vnd.github.v3+json");
     ("Content-Type", "application/json");
     ("User-Agent", "RepoPush")]
    (Some (VObj ([("message", VStr ("Sync: Merged " +:+ p +:+ " from site:main"));
                  ("content", VStr "aGk=");
                  ("branch", VStr "main")] ++ spread))).

(** An upstream that refuses the second request and grants the others. *)
Definition refusing_second : list Request -> Request -> Reply :=
  fun h _ => if Nat.eqb (length h) 1 then Settled unprocessable else Settled found.

(** The creation of [a.txt] in [bob/site]. *)
Definition create : value :=
  VObj [("owner", VStr "bob"); ("repo", VStr "site"); ("path", VStr "a.txt");
        ("content", VStr "hi")].

Definition create_input : create_file.Input :=
  create_file.mkInput "bob" "site" "a.txt" "hi" None None.

(** A listing of the root of [bob/site] on [main]: the body has no [path]. *)
Definition contents_query : value :=
  VObj [("owner", VStr "bob"); ("repo", VStr "site"); ("ref", VStr "main")].

Definition contents_input : get_repo_contents.Input :=
  get_repo_contents.mkInput "bob" "site" (Some "") (Some "main").

(** The renaming of [bob/site] to [blog]. *)
Definition rename_repo_doc : value :=
  VObj [("owner", VStr "bob"); ("repo", VStr "site"); ("new_name", VStr "blog")].

Definition rename_repo_input : rename_repo.Input := rename_repo.mkInput "bob" "site" "blog".

(** A new description for [bob/site]. *)
Definition update_doc : value :=
  VObj [("owner", VStr "bob"); ("repo", VStr "site"); ("description", VStr "My site")].

Definition update_input : update_repo.Input :=
  update_repo.mkInput "bob" "site" (Some "My site") None None.

(** The branches of [site]. *)
Definition branches_query : value := VObj [("repositoryName", VStr "site")].

Definition branches_input : get_repo_branches.Input := get_repo_branches.mkInput "site".

(** A pull request from [dev] into [main] of [site]. *)
Definition pull : value :=
  VObj [("repositoryName", VStr "site"); ("title", VStr "Release");
        ("head", VStr "dev"); ("base", VStr "main")].

Definition pull_input : create_pull_request.Input :=
  create_pull_request.mkInput "site" "Release" None "dev" "main".

(** A sync of [site:main] into [mirror:main]. *)
Definition sync : value :=
  VObj [("sourceRepo", VStr "site"); ("destRepo", VStr "mirror");
        ("sourceBranch", VStr "main"); ("destBranch", VStr "main")].

(** A destination branch that is there already: nothing is asked. *)
Definition branch_ready : string -> string -> string -> string ->
                          M sync_repo_contents.BranchResult :=
  fun _ _ _ _ => ret (sync_repo_contents.mkBranchResult true "").

(** The renaming of [x/old.txt] to [x/new.txt] in [bob/site]. *)
Definition rename : value :=
  VObj [("owner", VStr "bob"); ("repo", VStr "site"); ("path", VStr "x/old.txt");
        ("new_path", VStr "x/new.txt"); ("sha", VStr "abc"); ("branch", VStr "main")].

Definition rename_input : rename_file.Input :=
  rename_file.mkInput "bob" "site" "x/old.txt" "x/new.txt" "abc" "main".

(** An upstream that refuses every delete with 422 and grants the rest. *)
Definition refusing_deletes : list Request -> Request -> Reply :=
  fun _ r => if String.eqb (method r) "DELETE" then Settled unprocessable else Settled found.

(** An upstream that refuses every read with 404 and grants the rest. *)
Definition refusing_reads : list Request -> Request -> Reply :=
  fun _ r => if String.eqb (method r) "GET" then Settled not_found else Settled found.

(** The upstream's description of a repository of [bob]. *)
Definition owned_by_bob : FetchResponse :=
  mkFetchResponse 200 ""
    (inr (VObj [("name", VStr "site"); ("owner", VObj [("login", VStr "bob")])])).

(** An upstream that answers every request with that description. *)
Definition confirming : list Request -> Request -> Reply :=
  fun _ _ => Settled owned_by_bob.

(** The upstream's refusal of a pull request that exists already. *)
Definition pull_exists : FetchResponse :=
  mkFetchResponse 422 "Validation Failed"
    (inr (VObj [("message", VStr "Validation Failed");
                ("errors",
                 VArr [VObj [("resource", VStr "PullRequest");
                             ("code", VStr "custom");
                             ("message",
                              VStr "A pull request already exists for bob:dev.")]])])).

(** A refusal with status 422 whose body is not JSON. *)
Definition refused_plainly : FetchResponse :=
  mkFetchResponse 422 "Unprocessable" (inl "Unexpected token U in JSON at position 0").

(** A destination branch that cannot be made. *)
Definition branch_missing : string -> string -> string -> string ->
                            M sync_repo_contents.BranchResult :=
  fun _ _ _ _ => ret (sync_repo_contents.mkBranchResult false "Reference does not exist").

(** An upstream that confirms the first two requests and answers 404 to
    the rest. *)
Definition confirming_twice : list Request -> Request -> Reply :=
  fun h _ => if Nat.ltb (length h) 2 then Settled owned_by_bob else Settled not_found.

(** Both repositories are confirmed, the source tree is listed as [items],
    and every call for a file is answered with the document of a file. *)
Definition syncing (items : list value) : list Request -> Request -> Reply :=
  fun h _ =>
    match length h with
    | 0 | 1 => Settled owned_by_bob
    | 2 => ok_doc (VObj [("sha", VStr "t0"); ("tree", VArr items); ("truncated", VBool false)])
    | _ => Settled found
    end%nat.

(** The starring of [alice/site]. *)
Definition star_doc : value :=
  VObj [("owner", VStr "alice"); ("repo", VStr "site"); ("starred", VBool true)].

Definition star_input : star_repo.Input := star_repo.mkInput "alice" "site" true.

End Example.

(** * Properties *)

(** ** Running a handler *)

Lemma ret_run {A} (a : A) env tr : ret a env tr = (Ok a, tr).
Proof. reflexivity. Qed.

Lemma throw_run {A} e env tr : @throw A e env tr = (Throw e, tr).
Proof. reflexivity. Qed.

Lemma bind_run {A B} (c : M A) (k : A -> M B) env tr :
  bind c k env tr =
  match c env tr with
  | (Ok a, tr') => k a env tr'
  | (Throw e, tr') => (Throw e, tr')
  end.
Proof. reflexivity. Qed.

Lemma try_catch_run {A} (c : M A) h env tr :
  try_catch c h env tr =
  match c env tr with
  | (Ok a, tr') => (Ok a, tr')
  | (Throw e, tr') => h e env tr'
  end.
Proof. reflexivity. Qed.

Lemma getUser_run env tr : getUser env tr = (Ok (auth_user env), tr ++ [AuthGetUser]).
Proof. reflexivity. Qed.

Lemma select_single_run columns id env tr :
  select_single columns id env tr =
  (Ok match profiles env id with
      | Some p => Some (mkProfile
                          (selected columns "github_access_token" (github_access_token p))
                          (selected columns "github_username" (github_username p)))
      | None => None
      end,
   tr ++ [ProfilesSelect columns id]).
Proof. reflexivity. Qed.

Lemma internal_error_run e env tr :
  internal_error e env tr =
  (Ok (respond 500 (VObj [("error", VStr (exn_message env e))])), tr).
Proof. reflexivity. Qed.

Lemma get_object fields k env tr : get (VObj fields) k env tr = (Ok (field k fields), tr).
Proof. reflexivity. Qed.

Lemma issued_app tr1 tr2 : issued (tr1 ++ tr2) = issued tr1 ++ issued tr2.
Proof.
  induction tr1 as [|e tr1 IH]; [reflexivity|].
  destruct e; simpl; rewrite IH; reflexivity.
Qed.

Lemma fetch_run r env tr :
  fetch r env tr =
  (match upstream env (issued tr) r with
   | Settled x => Ok x
   | Rejected msg => Throw (TypeError msg)
   end,
   tr ++ call r (upstream env (issued tr) r)).
Proof.
  unfold fetch, dispatch, await, bind, emit, call; simpl.
  rewrite <- app_assoc; simpl.
  destruct (upstream env (issued tr) r); reflexivity.
Qed.

Create Rewrite HintDb run.

Lemma issued_issue rs : issued (map Issue rs) = rs.
Proof. induction rs; simpl; congruence. Qed.

Lemma issued_await (rrs : list (Request * Reply)) :
  issued (map (fun rr => Await (fst rr) (snd rr)) rrs) = [].
Proof. induction rrs; simpl; auto. Qed.

Lemma issued_call r rep : issued (call r rep) = [r].
Proof. reflexivity. Qed.

Lemma selected_here c rest v : selected (c :: rest) c v = v.
Proof. unfold selected. simpl. now rewrite String.eqb_refl. Qed.

Lemma selected_username v :
  selected ["github_access_token"; "github_username"] "github_username" v = v.
Proof. reflexivity. Qed.

Lemma selected_no_username v :
  selected ["github_access_token"] "github_username" v = None.
Proof. reflexivity. Qed.

#[global] Hint Rewrite selected_here selected_username selected_no_username : run.

#[global] Hint Rewrite @ret_run @throw_run @bind_run @try_catch_run getUser_run
  select_single_run internal_error_run fetch_run get_object issued_app issued_call issued_issue
  issued_await app_nil_r : run.
#[global] Hint Rewrite <- app_assoc : run.

(** One step of a handler: the outermost computation is run and the
    continuation entered. *)
Ltac run :=
  repeat (autorewrite with run;
          cbn [app negb issued token_of username_of github_access_token github_username];
          cbv beta iota).

Lemma differs_true owner username :
  owner <> username -> differs owner (Some username) = true.
Proof. intros H. simpl. apply String.eqb_neq in H. now rewrite H. Qed.

Lemma absent_false s : s <> "" -> absent (Some s) = false.
Proof. intros H. simpl. now apply String.eqb_neq. Qed.

(** ** Validation *)

Lemma at_seg_inr {A} seg (r : z.Parsed A) a : z.at_seg seg r = inr a -> r = inr a.
Proof. destruct r; simpl; congruence. Qed.

Lemma elements_length {A} (s : z.Schema A) items : forall i out,
  z.elements s i items = inr out -> length out = length items.
Proof.
  induction items as [|x items IH]; intros i out H; simpl in H.
  - inversion H; reflexivity.
  - destruct (z.at_seg (z.Idx i) (s x)); [discriminate|].
    destruct (z.elements s (S i) items) eqn:E; [discriminate|].
    inversion H; subst; simpl. f_equal. eapply IH; eauto.
Qed.

Lemma array_bounds {A} (s : z.Schema A) lo hi v out :
  z.array s (Some lo) (Some hi) v = inr out ->
  (lo <= Z.of_nat (length out) <= hi)%Z.
Proof.
  unfold z.array. destruct v; try discriminate.
  destruct (Z.of_nat (length items) <? lo)%Z eqn:E1; [discriminate|].
  destruct (hi <? Z.of_nat (length items))%Z eqn:E2; [discriminate|].
  simpl. destruct (z.elements s 0 items) eqn:E; [discriminate|].
  intros H; inversion H; subst.
  apply elements_length in E. lia.
Qed.

Ltac split_schema :=
  repeat match goal with
         | H : context [match ?x with inl _ => _ | inr _ => _ end] |- _ =>
             destruct x eqn:?; try discriminate
         end.

Lemma uploadFilesSchema_files body input :
  upload_files.uploadFilesSchema body = inr input ->
  (1 <= length (upload_files.files input) <= 100)%nat.
Proof.
  unfold upload_files.uploadFilesSchema, z.object. destruct body; try discriminate.
  intros H. split_schema. inversion H; subst; simpl.
  match goal with E : z.prop_of "files" _ _ = inr _ |- _ =>
    apply at_seg_inr, array_bounds in E end.
  lia.
Qed.

Section Rejection.

Variables (req : Req) (env : Env) (body : value) (issues : list z.ZodIssue).
Hypothesis Hmethod : req_method req <> "OPTIONS".
Hypothesis Hbody : req_json req = inr body.

Ltac reject Hs :=
  unfold req_body, parse;
  rewrite (proj2 (String.eqb_neq _ _) Hmethod), Hbody; run; rewrite Hs; run; reflexivity.

(** The handlers that validate with [safeParse] answer 400 with the issues
    as [details], before any lookup or call. *)
Lemma create_file_invalid max_arguments :
  create_file.createFileSchema body = inl issues ->
  create_file.serve max_arguments req env [] = (Ok (invalid_input issues), []).
Proof. intros Hs. unfold create_file.serve. reject Hs. Qed.

Lemma upload_files_invalid :
  upload_files.uploadFilesSchema body = inl issues ->
  upload_files.serve req env [] = (Ok (invalid_input issues), []).
Proof. intros Hs. unfold upload_files.serve. reject Hs. Qed.

Lemma delete_file_invalid :
  delete_file.deleteFileSchema body = inl issues ->
  delete_file.serve req env [] = (Ok (invalid_input issues), []).
Proof. intros Hs. unfold delete_file.serve. reject Hs. Qed.

Lemma sync_repo_contents_invalid createOrGetBranch :
  sync_repo_contents.syncRepoSchema body = inl issues ->
  sync_repo_contents.serve createOrGetBranch req env [] = (Ok (invalid_input issues), []).
Proof. intros Hs. unfold sync_repo_contents.serve. reject Hs. Qed.

(** The handlers that validate with [parse] let the [ZodError] reach the
    outer [catch]: 500, the error text, no [details]. *)
Lemma rename_repo_invalid :
  rename_repo.renameRepoSchema body = inl issues ->
  rename_repo.serve req env [] = (Ok (zod_500 env issues), []).
Proof. intros Hs. unfold rename_repo.serve. reject Hs. Qed.

Lemma update_repo_invalid :
  update_repo.updateRepoSchema body = inl issues ->
  update_repo.serve req env [] = (Ok (zod_500 env issues), []).
Proof. intros Hs. unfold update_repo.serve. reject Hs. Qed.

Lemma rename_file_invalid :
  rename_file.renameFileSchema body = inl issues ->
  rename_file.serve req env [] = (Ok (zod_500 env issues), []).
Proof. intros Hs. unfold rename_file.serve. reject Hs. Qed.

Lemma move_files_invalid :
  move_files.moveFilesSchema body = inl issues ->
  move_files.serve req env [] = (Ok (zod_500 env issues), []).
Proof. intros Hs. unfold move_files.serve. reject Hs. Qed.

Lemma star_repo_invalid :
  star_repo.starRepoSchema body = inl issues ->
  star_repo.serve req env [] = (Ok (zod_500 env issues), []).
Proof. intros Hs. unfold star_repo.serve. reject Hs. Qed.

End Rejection.

(** The path schema of create-file, upload-files and delete-file refuses a
    path that contains [..] or starts with [/]. *)
Lemma pathSchema_rejects p :
  includes p ".." = true \/ startsWith p "/" = true ->
  exists issues,
    pathSchema (VStr p) = inl issues /\
    In (z.mkIssue [] "Path traversal not allowed") issues.
Proof.
  intros H.
  assert (N : no_traversal p = false).
  { unfold no_traversal. destruct H as [-> | ->]; simpl; auto using andb_false_r. }
  unfold pathSchema, z.string, z.run_checks. simpl flat_map.
  unfold z.refine at 1. rewrite N.
  destruct (z.min 1 p), (z.max 4096 p); simpl; eexists; split; try reflexivity;
    simpl; auto.
Qed.

(** The path schema of rename-file and move-files accepts every string. *)
Lemma unchecked_path_accepts p : z.string [] (VStr p) = inr p.
Proof. reflexivity. Qed.

Lemma prop_of_issue {A} k (s : z.Schema A) fields errs e :
  s (field k fields) = inl errs -> In e errs ->
  exists errs', z.prop_of k s fields = inl errs' /\
                In (z.mkIssue (z.Key k :: z.path e) (z.message e)) errs'.
Proof.
  intros Hs Hin. unfold z.prop_of. rewrite Hs. simpl. eexists; split; [reflexivity|].
  apply in_map_iff. exists e. auto.
Qed.

Ltac schema_issue :=
  repeat match goal with
         | |- context [match ?x with inl _ => _ | inr _ => _ end] => destruct x
         end;
  eexists; (split; [reflexivity|]); simpl; rewrite ?in_app_iff; simpl;
  repeat first [solve [left; reflexivity] | solve [left; assumption] | right];
  auto.

Lemma createFileSchema_rejects_path fields p :
  field "path" fields = VStr p ->
  includes p ".." = true \/ startsWith p "/" = true ->
  exists issues,
    create_file.createFileSchema (VObj fields) = inl issues /\
    In (z.mkIssue [z.Key "path"] "Path traversal not allowed") issues.
Proof.
  intros Hf Hp. destruct (@pathSchema_rejects p Hp) as (errs & Hs & Hin).
  rewrite <- Hf in Hs.
  destruct (@prop_of_issue _ "path" pathSchema fields _ _ Hs Hin) as (errs' & Hs' & Hin').
  unfold create_file.createFileSchema, z.object. rewrite Hs'. schema_issue.
Qed.

Lemma deleteFileSchema_rejects_path fields p :
  field "path" fields = VStr p ->
  includes p ".." = true \/ startsWith p "/" = true ->
  exists issues,
    delete_file.deleteFileSchema (VObj fields) = inl issues /\
    In (z.mkIssue [z.Key "path"] "Path traversal not allowed") issues.
Proof.
  intros Hf Hp. destruct (@pathSchema_rejects p Hp) as (errs & Hs & Hin).
  rewrite <- Hf in Hs.
  destruct (@prop_of_issue _ "path" pathSchema fields _ _ Hs Hin) as (errs' & Hs' & Hin').
  unfold delete_file.deleteFileSchema, z.object. rewrite Hs'. schema_issue.
Qed.

(** A required string that the body does not have is reported under its
    key. *)
Lemma required_string_missing k checks fields :
  lookup k fields = None ->
  z.prop_of k (z.string checks) fields = inl [z.mkIssue [z.Key k] "Required"].
Proof. intros H. unfold z.prop_of, field. rewrite H. reflexivity. Qed.

Lemma create_file_names_missing_field fields k :
  In k ["owner"; "repo"; "path"; "content"] ->
  lookup k fields = None ->
  exists issues,
    create_file.createFileSchema (VObj fields) = inl issues /\
    In (z.mkIssue [z.Key k] "Required") issues /\
    detail (z.mkIssue [z.Key k] "Required") = k +:+ ": Required".
Proof.
  intros Hk Hmissing.
  assert (E : exists issues,
             create_file.createFileSchema (VObj fields) = inl issues /\
             In (z.mkIssue [z.Key k] "Required") issues).
  { unfold create_file.createFileSchema, z.object, ownerSchema, repoSchema, pathSchema.
    destruct Hk as [<-|[<-|[<-|[<-|[]]]]];
      rewrite (@required_string_missing _ _ _ Hmissing); schema_issue. }
  destruct E as (issues & Hs & Hin). exists issues. repeat split; auto.
Qed.

(** Claim C3, at a failing input.  rename-repo validates with [parse]: a
    body without [new_name] raises a [ZodError] that the outer [catch] turns
    into status 500 with the error text and no [details].  No lookup and no
    call is made. *)
Theorem rename_repo_missing_field_is_500 :
  rename_repo.renameRepoSchema Example.rename_without_name =
    inl [z.mkIssue [z.Key "new_name"] "Required"] /\
  rename_repo.serve (Example.post Example.rename_without_name)
    (Example.env Example.granting) [] =
  (Ok (mkResponse 500
         [("Access-Control-Allow-Origin", "*");
          ("Access-Control-Allow-Headers",
           "authorization, x-client-info, apikey, content-type");
          ("Content-Type", "application/json")]
         (Some (VObj [("error", VStr "zod issues")]))),
   []).
Proof. split; reflexivity. Qed.

(** The sibling: create-file answers it with 400 and names the field. *)
Lemma create_file_missing_field_is_400 max_arguments :
  create_file.serve max_arguments (Example.post Example.create_without_path)
    (Example.env Example.granting) [] =
  (Ok (mkResponse 400
         [("Access-Control-Allow-Origin", "*");
          ("Access-Control-Allow-Headers",
           "authorization, x-client-info, apikey, content-type");
          ("Content-Type", "application/json")]
         (Some (VObj [("error", VStr "Invalid input");
                      ("details", VArr [VStr "path: Required"])]))),
   []).
Proof. reflexivity. Qed.

(** Claim C4, at a failing input.  rename-file accepts a path with [..]
    segments and a new path that starts with [/], and puts both into the
    upstream URLs. *)
Theorem rename_file_forwards_traversal :
  no_traversal "../other/contents/secret.txt" = false /\
  no_traversal "/etc/passwd" = false /\
  rename_file.serve (Example.post (Example.rename_traversing "bob"))
    (Example.env Example.granting) [] =
  (Ok Example.success,
   [AuthGetUser; ProfilesSelect ["github_access_token"] "user-1"]
     ++ call (Example.rename_read "bob") (Settled Example.found)
     ++ call (Example.rename_write "bob") (Settled Example.found)
     ++ call (Example.rename_delete "bob") (Settled Example.found)).
Proof. repeat split; reflexivity. Qed.

Lemma create_file_rejects_traversal max_arguments :
  create_file.serve max_arguments (Example.post Example.create_traversing)
    (Example.env Example.granting) [] =
  (Ok (mkResponse 400
         [("Access-Control-Allow-Origin", "*");
          ("Access-Control-Allow-Headers",
           "authorization, x-client-info, apikey, content-type");
          ("Content-Type", "application/json")]
         (Some (VObj [("error", VStr "Invalid input");
                      ("details", VArr [VStr "path: Path traversal not allowed"])]))),
   []).
Proof. reflexivity. Qed.

(** ** The ownership gate *)

(** create-file, upload-files, delete-file, rename-repo and update-repo
    answer 403 to a caller who is not the owner, after the two lookups in
    the identity store and before any upstream call. *)
Section Gate.

Variables (req : Req) (env : Env) (body : value) (id token username : string).
Hypothesis Hmethod : req_method req <> "OPTIONS".
Hypothesis Hbody : req_json req = inr body.
Hypothesis Huser : auth_user env = Some id.
Hypothesis Hprofile : profiles env id = Some (mkProfile (Some token) (Some username)).
Hypothesis Htoken : token <> "".
Hypothesis Husername : username <> "".

Ltac gate Hs Ho :=
  unfold req_body, parse, getGitHubToken;
  rewrite (proj2 (String.eqb_neq _ _) Hmethod), Hbody; run; rewrite Hs; run;
  rewrite Huser; run; rewrite Hprofile; run;
  rewrite ?(absent_false Htoken), ?(absent_false Husername); cbn [orb]; run;
  rewrite (differs_true Ho); reflexivity.

Lemma create_file_gate max_arguments input :
  create_file.createFileSchema body = inr input ->
  create_file.owner input <> username ->
  create_file.serve max_arguments req env [] =
  (Ok (forbidden "Unauthorized: can only access your own repositories"),
   [AuthGetUser; ProfilesSelect ["github_access_token"; "github_username"] id]).
Proof. intros Hs Ho. unfold create_file.serve. gate Hs Ho. Qed.

Lemma upload_files_gate input :
  upload_files.uploadFilesSchema body = inr input ->
  upload_files.owner input <> username ->
  upload_files.serve req env [] =
  (Ok (forbidden "Unauthorized: can only access your own repositories"),
   [AuthGetUser; ProfilesSelect ["github_access_token"; "github_username"] id]).
Proof. intros Hs Ho. unfold upload_files.serve. gate Hs Ho. Qed.

Lemma delete_file_gate input :
  delete_file.deleteFileSchema body = inr input ->
  delete_file.owner input <> username ->
  delete_file.serve req env [] =
  (Ok (forbidden "Unauthorized: can only access your own repositories"),
   [AuthGetUser; ProfilesSelect ["github_access_token"; "github_username"] id]).
Proof. intros Hs Ho. unfold delete_file.serve. gate Hs Ho. Qed.

Lemma rename_repo_gate input :
  rename_repo.renameRepoSchema body = inr input ->
  rename_repo.owner input <> username ->
  rename_repo.serve req env [] =
  (Ok (forbidden "You can only rename your own repositories"),
   [AuthGetUser; ProfilesSelect ["github_access_token"; "github_username"] id]).
Proof. intros Hs Ho. unfold rename_repo.serve. gate Hs Ho. Qed.

Lemma update_repo_gate input :
  update_repo.updateRepoSchema body = inr input ->
  update_repo.owner input <> username ->
  update_repo.serve req env [] =
  (Ok (forbidden "You can only update your own repositories"),
   [AuthGetUser; ProfilesSelect ["github_access_token"; "github_username"] id]).
Proof. intros Hs Ho. unfold update_repo.serve. gate Hs Ho. Qed.

End Gate.

(** Claim C1, at a failing input.  The move handler has no ownership gate:
    a caller whose account is [bob] moves a file of [alice/site]; the handler
    answers 200 after a read, a write and a delete in that repository. *)
Theorem move_files_serves_foreign_owner :
  move_files.serve (Example.post (Example.move "alice")) (Example.env Example.granting) [] =
  (Ok Example.success,
   [AuthGetUser; ProfilesSelect ["github_access_token"] "user-1"]
     ++ call (Example.move_read "alice") (Settled Example.found)
     ++ call (Example.move_write "alice") (Settled Example.found)
     ++ call (Example.move_delete "alice") (Settled Example.found)).
Proof. reflexivity. Qed.

(** rename-file has no ownership gate either. *)
Lemma rename_file_serves_foreign_owner :
  rename_file.serve (Example.post (Example.rename_traversing "alice"))
    (Example.env Example.granting) [] =
  (Ok Example.success,
   [AuthGetUser; ProfilesSelect ["github_access_token"] "user-1"]
     ++ call (Example.rename_read "alice") (Settled Example.found)
     ++ call (Example.rename_write "alice") (Settled Example.found)
     ++ call (Example.rename_delete "alice") (Settled Example.found)).
Proof. reflexivity. Qed.

(** ** Uploading a batch *)

Lemma replies_length env rs : forall h, length (replies env h rs) = length rs.
Proof. induction rs as [|r rs IH]; intros h; simpl; [|rewrite IH]; reflexivity. Qed.

Lemma dispatch_all {A} (g : A -> Request) xs env tr :
  mapM (fun x => dispatch (g x)) xs env tr =
  (Ok (map (fun rp => mkPromise (fst rp) (snd rp))
         (combine (map g xs) (replies env (issued tr) (map g xs)))),
   tr ++ map Issue (map g xs)).
Proof.
  revert tr; induction xs as [|x xs IH]; intros tr; simpl.
  - unfold ret. rewrite app_nil_r. reflexivity.
  - rewrite bind_run. unfold dispatch at 1. cbv beta iota.
    rewrite bind_run, IH. cbv beta iota.
    rewrite issued_app; simpl. rewrite <- app_assoc. reflexivity.
Qed.

Lemma settle_run f p env tr :
  upload_files.settle f p env tr =
  (Ok (outcome_of f (settles p)), tr ++ [Await (request p) (settles p)]).
Proof.
  unfold upload_files.settle, try_catch, await, bind, emit, outcome_of.
  destruct (settles p) as [r|msg]; simpl.
  - destruct (ok r); reflexivity.
  - reflexivity.
Qed.

Lemma settle_all fps env : forall tr,
  mapM (fun fp => upload_files.settle (fst fp) (snd fp)) fps env tr =
  (Ok (map (fun fp => outcome_of (fst fp) (settles (snd fp))) fps),
   tr ++ map (fun fp => Await (request (snd fp)) (settles (snd fp))) fps).
Proof.
  induction fps as [|fp fps IH]; intros tr; simpl.
  - unfold ret. rewrite app_nil_r. reflexivity.
  - rewrite bind_run, settle_run. cbv beta iota. rewrite bind_run, IH.
    cbv beta iota. rewrite <- app_assoc. reflexivity.
Qed.

Lemma settled_outcomes (g : upload_files.File -> Request) fs : forall reps,
  map (fun fp => outcome_of (fst fp) (settles (snd fp)))
    (combine fs (map (fun rp => mkPromise (fst rp) (snd rp)) (combine (map g fs) reps))) =
  map (fun fr => outcome_of (fst fr) (snd fr)) (combine fs reps).
Proof.
  induction fs as [|f fs IH]; intros [|rp reps]; simpl; auto.
  f_equal. apply IH.
Qed.

Lemma settled_awaits (g : upload_files.File -> Request) fs : forall reps,
  map (fun fp : upload_files.File * Promise => Await (request (snd fp)) (settles (snd fp)))
    (combine fs (map (fun rp => mkPromise (fst rp) (snd rp)) (combine (map g fs) reps))) =
  map (fun rr => Await (fst rr) (snd rr)) (combine (map g fs) reps).
Proof.
  induction fs as [|f fs IH]; intros [|rp reps]; simpl; auto.
  f_equal. apply IH.
Qed.

Lemma upload_all_run input token env tr :
  let puts := map (upload_files.put input token) (upload_files.files input) in
  let reps := replies env (issued tr) puts in
  upload_files.upload_all input token env tr =
  (Ok (map (fun fr => outcome_of (fst fr) (snd fr)) (combine (upload_files.files input) reps)),
   tr ++ map Issue puts ++ map (fun rr => Await (fst rr) (snd rr)) (combine puts reps)).
Proof.
  intros puts reps. unfold upload_files.upload_all.
  rewrite bind_run, dispatch_all. fold puts. fold reps. cbv beta iota.
  rewrite settle_all. rewrite <- app_assoc.
  unfold puts. rewrite settled_outcomes, settled_awaits. reflexivity.
Qed.

Lemma outcome_path f rep : upload_files.out_path (outcome_of f rep) = upload_files.path f.
Proof. destruct rep as [r|m]; simpl; [destruct (ok r)|]; reflexivity. Qed.

Lemma outcome_success f rep : upload_files.success (outcome_of f rep) = negb (failed_reply rep).
Proof. destruct rep as [r|m]; simpl; [destruct (ok r)|]; reflexivity. Qed.

Lemma outcomes_paths fs : forall reps,
  length reps = length fs ->
  map upload_files.out_path (map (fun fr => outcome_of (fst fr) (snd fr)) (combine fs reps)) =
  map upload_files.path fs.
Proof.
  induction fs as [|f fs IH]; intros [|rep reps] L; simpl in *; try discriminate; auto.
  rewrite outcome_path, IH; auto.
Qed.

Lemma outcomes_success fs : forall reps,
  length reps = length fs ->
  map upload_files.success (map (fun fr => outcome_of (fst fr) (snd fr)) (combine fs reps)) =
  map (fun rep => negb (failed_reply rep)) reps.
Proof.
  induction fs as [|f fs IH]; intros [|rep reps] L; simpl in *; try discriminate; auto.
  rewrite outcome_success, IH; auto.
Qed.

Lemma success_count (results : list upload_files.Outcome) :
  map upload_files.success (filter upload_files.success results) =
  filter (fun b => b) (map upload_files.success results).
Proof.
  induction results as [|r rs IH]; simpl; auto.
  destruct (upload_files.success r) eqn:E; simpl; rewrite ?E, IH; auto.
Qed.

Lemma count_partition (reps : list Reply) :
  (length (filter (fun b => b) (map (fun rep => negb (failed_reply rep)) reps))
   + length (filter failed_reply reps) = length reps)%nat.
Proof.
  induction reps as [|rep reps IH]; simpl; auto.
  destruct (failed_reply rep); simpl; lia.
Qed.

(** Claim C9.  A batch upload that passes validation and the ownership gate
    attempts the write of every one of its N files (1 <= N <= 100), whatever
    the upstream answers: the requests issued are the N writes, in the order
    of the files.  When k of them fail (a status outside 200-299, or a
    failure on the network), the response is a success whose summary is
    {total: N, successful: N - k, failed: k} and whose results has one entry
    per file, in order, carrying the file's path and whether its own write
    succeeded. *)
Theorem upload_files_reports_every_file :
  forall (req : Req) (env : Env) (body : value) (input : upload_files.Input)
         (id token username : string),
    req_method req <> "OPTIONS" ->
    req_json req = inr body ->
    upload_files.uploadFilesSchema body = inr input ->
    auth_user env = Some id ->
    profiles env id = Some (mkProfile (Some token) (Some username)) ->
    token <> "" -> username <> "" ->
    upload_files.owner input = username ->
    let N := length (upload_files.files input) in
    let puts := map (upload_files.put input token) (upload_files.files input) in
    let reps := replies env [] puts in
    let results := map (fun fr => outcome_of (fst fr) (snd fr))
                     (combine (upload_files.files input) reps) in
    let k := count_failed reps in
    (1 <= N <= 100)%nat /\
    issued (snd (upload_files.serve req env [])) = puts /\
    fst (upload_files.serve req env []) =
      Ok (respond 200
            (VObj [("success", VBool true);
                   ("results", VArr (map upload_files.outcome_value results));
                   ("summary", VObj [("total", VNum (Z.of_nat N));
                                     ("successful", VNum (Z.of_nat N - Z.of_nat k));
                                     ("failed", VNum (Z.of_nat k))])])) /\
    map upload_files.out_path results = map upload_files.path (upload_files.files input) /\
    map upload_files.success results = map (fun rep => negb (failed_reply rep)) reps.
Proof.
  intros req env body input id token username Hm Hj Hs Hu Hp Ht Hn Ho N puts reps results k.
  split; [eapply uploadFilesSchema_files; eassumption|].
  apply String.eqb_neq in Hm, Ht, Hn.
  assert (R : upload_files.serve req env [] =
              (Ok (respond 200
                     (VObj [("success", VBool true);
                            ("results", VArr (map upload_files.outcome_value results));
                            ("summary",
                             VObj [("total", VNum (Z.of_nat N));
                                   ("successful",
                                    VNum (Z.of_nat (upload_files.successCount results)));
                                   ("failed",
                                    VNum (Z.of_nat N
                                          - Z.of_nat (upload_files.successCount results)))])])),
               [AuthGetUser; ProfilesSelect ["github_access_token"; "github_username"] id]
                 ++ map Issue puts
                 ++ map (fun rr => Await (fst rr) (snd rr)) (combine puts reps))).
  { unfold upload_files.serve, req_body. rewrite Hm, Hj. run. rewrite Hs. run.
    rewrite Hu. run. rewrite Hp. simpl. rewrite Ht, Hn. simpl.
    rewrite Ho, String.eqb_refl. simpl. run.
    rewrite upload_all_run. run. reflexivity. }
  assert (L : length reps = N)
    by (unfold reps, puts, N; now rewrite replies_length, length_map).
  assert (P : map upload_files.out_path results
              = map upload_files.path (upload_files.files input))
    by (unfold results; apply outcomes_paths; exact L).
  assert (S : map upload_files.success results
              = map (fun rep => negb (failed_reply rep)) reps)
    by (unfold results; apply outcomes_success; exact L).
  assert (C : (upload_files.successCount results + k = N)%nat).
  { unfold upload_files.successCount, k, count_failed.
    rewrite <- (length_map upload_files.success (filter _ _)).
    rewrite success_count, S, <- L. apply count_partition. }
  rewrite R; cbn [fst snd]. repeat split; auto.
  - rewrite !issued_app, issued_issue, issued_await. simpl. now rewrite app_nil_r.
  - do 6 f_equal. repeat f_equal; lia.
Qed.

Lemma upload_files_reports_every_file_witness :
  (1 <= 2 <= 100)%nat /\
  issued (snd (upload_files.serve (Example.post Example.upload)
                 (Example.env Example.refusing_second) [])) =
    map (upload_files.put Example.upload_input "gho_bob")
      (upload_files.files Example.upload_input) /\
  fst (upload_files.serve (Example.post Example.upload)
         (Example.env Example.refusing_second) []) =
    Ok (respond 200
          (VObj [("success", VBool true);
                 ("results",
                  VArr [VObj [("path", VStr "a.txt"); ("success", VBool true)];
                        VObj [("path", VStr "b.txt"); ("success", VBool false);
                              ("error", VStr "Invalid request")]]);
                 ("summary", VObj [("total", VNum 2);
                                   ("successful", VNum (2 - 1));
                                   ("failed", VNum 1)])])) /\
  ["a.txt"; "b.txt"] = ["a.txt"; "b.txt"] /\
  [true; false] = [true; false].
Proof.
  apply (@upload_files_reports_every_file (Example.post Example.upload)
           (Example.env Example.refusing_second) Example.upload Example.upload_input
           "user-1" "gho_bob" "bob"); try reflexivity; discriminate.
Defined.

Lemma upload_files_issues req env :
  issued (snd (upload_files.serve req env [])) = [] \/
  exists input token,
    issued (snd (upload_files.serve req env [])) =
    map (upload_files.put input token) (upload_files.files input).
Proof.
  unfold upload_files.serve, req_body.
  destruct (req_method req =? "OPTIONS"); [left; reflexivity|].
  destruct (req_json req) as [msg|body]; run; [left; reflexivity|].
  destruct (upload_files.uploadFilesSchema body) as [errs|input]; run; [left; reflexivity|].
  destruct (auth_user env) as [id|]; run; [|left; reflexivity].
  match goal with |- context [if ?c then _ else _] => destruct c end; run; [left; reflexivity|].
  match goal with |- context [if ?c then _ else _] => destruct c end; run; [left; reflexivity|].
  right. exists input. eexists.
  rewrite upload_all_run. run. cbn [fst snd issued]. run. reflexivity.
Qed.

(** Claim C10.  Every request the batch upload handler issues, for any
    inbound request and any environment, is a PUT whose document has exactly
    the fields message, content and branch, so never a sha; no GET is ever
    issued, so the destination is never probed. *)
Theorem upload_files_never_sends_sha :
  forall (req : Req) (env : Env) (r : Request),
    In r (issued (snd (upload_files.serve req env []))) ->
    method r = "PUT" /\
    exists m c b : string,
      body r = Some (VObj [("message", VStr m); ("content", VStr c); ("branch", VStr b)]).
Proof.
  intros req env r H.
  destruct (upload_files_issues req env) as [E|(input & token & E)]; rewrite E in H.
  - destruct H.
  - apply in_map_iff in H. destruct H as (f & <- & _).
    split; [reflexivity|]. simpl. eauto.
Qed.

Lemma upload_files_never_sends_sha_witness :
  method (upload_files.put Example.upload_input "gho_bob" (upload_files.mkFile "a.txt" "YQ==")) = "PUT" /\
  exists m c b : string,
    body (upload_files.put Example.upload_input "gho_bob" (upload_files.mkFile "a.txt" "YQ=="))
    = Some (VObj [("message", VStr m); ("content", VStr c); ("branch", VStr b)]).
Proof.
  apply (@upload_files_never_sends_sha (Example.post Example.upload)
           (Example.env Example.refusing_writes)).
  vm_compute. left. reflexivity.
Defined.

(** ** Moving files *)

(** ** Awaiting each call before the next *)

Lemma sequential_app tr1 tr2 : sequential tr1 -> sequential tr2 -> sequential (tr1 ++ tr2).
Proof. induction 1; simpl; auto; constructor; auto. Qed.

Section KeepsSequential.

Context {A B : Type}.

Lemma ks_ret (a : A) : keeps_sequential (ret a).
Proof. intros env tr H; exact H. Qed.

Lemma ks_throw e : keeps_sequential (@throw A e).
Proof. intros env tr H; exact H. Qed.

Lemma ks_bind (c : M A) (k : A -> M B) :
  keeps_sequential c -> (forall a, keeps_sequential (k a)) -> keeps_sequential (bind c k).
Proof.
  intros Hc Hk env tr H. rewrite bind_run.
  specialize (Hc env tr H). destruct (c env tr) as [[a|e] tr']; simpl in *; auto.
  apply Hk; auto.
Qed.

Lemma ks_try_catch (c : M A) h :
  keeps_sequential c -> (forall e, keeps_sequential (h e)) -> keeps_sequential (try_catch c h).
Proof.
  intros Hc Hh env tr H. rewrite try_catch_run.
  specialize (Hc env tr H). destruct (c env tr) as [[a|e] tr']; simpl in *; auto.
  apply Hh; auto.
Qed.

Lemma ks_if (b : bool) (c1 c2 : M A) :
  keeps_sequential c1 -> keeps_sequential c2 -> keeps_sequential (if b then c1 else c2).
Proof. destruct b; auto. Qed.

End KeepsSequential.

Lemma ks_fetch r : keeps_sequential (fetch r).
Proof.
  intros env tr H. rewrite fetch_run. simpl.
  apply sequential_app; auto. repeat constructor.
Qed.

Lemma ks_getUser : keeps_sequential getUser.
Proof. intros env tr H. simpl. apply sequential_app; auto. repeat constructor. Qed.

Lemma ks_select_single columns id : keeps_sequential (select_single columns id).
Proof. intros env tr H. simpl. apply sequential_app; auto. repeat constructor. Qed.

Lemma ks_json_ r : keeps_sequential (json_ r).
Proof. unfold json_. destruct (json r); intros env tr H; exact H. Qed.

Lemma ks_get v k : keeps_sequential (get v k).
Proof. destruct v; intros env tr H; exact H. Qed.

Lemma ks_req_body req : keeps_sequential (req_body req).
Proof. unfold req_body. destruct (req_json req); intros env tr H; exact H. Qed.

Lemma ks_parse {A} (s : z.Schema A) v : keeps_sequential (parse s v).
Proof. unfold parse. destruct (s v); intros env tr H; exact H. Qed.

Lemma ks_internal_error e : keeps_sequential (internal_error e).
Proof. intros env tr H; exact H. Qed.

Lemma ks_for_of {A S} (body : A -> S -> M S) xs :
  (forall x s, keeps_sequential (body x s)) -> forall s, keeps_sequential (for_of xs s body).
Proof.
  intros Hb. induction xs as [|x xs IH]; intros s; simpl.
  - apply ks_ret.
  - apply ks_bind; auto.
Qed.

Create HintDb sequential.
#[global] Hint Resolve ks_ret ks_throw ks_bind ks_try_catch ks_if ks_fetch ks_getUser
  ks_select_single ks_json_ ks_get ks_req_body ks_parse ks_internal_error ks_for_of
  : sequential.

Lemma ks_move_one input token f : keeps_sequential (move_files.move_one input token f).
Proof. unfold move_files.move_one. auto 20 with sequential. Qed.

Lemma ks_move_files_serve req : keeps_sequential (move_files.serve req).
Proof.
  unfold move_files.serve.
  apply ks_if; [auto with sequential|].
  apply ks_try_catch; [|auto with sequential].
  apply ks_bind; [auto with sequential|intros body].
  apply ks_bind; [auto with sequential|intros input].
  apply ks_bind; [auto with sequential|intros [id|]]; [|auto with sequential].
  apply ks_bind; [auto with sequential|intros profile].
  apply ks_if; [auto with sequential|].
  apply ks_bind; [|auto with sequential].
  apply ks_for_of. intros; apply ks_move_one.
Qed.

Lemma split_slash_nonempty s : split_slash s <> [].
Proof.
  destruct s as [|c s]; simpl; [discriminate|].
  destruct (Ascii.eqb c "/"); [discriminate|].
  destruct (split_slash s); discriminate.
Qed.

Lemma split_slash_app x y :
  split_slash (x +:+ "/" +:+ y) = split_slash x ++ split_slash y.
Proof.
  induction x as [|c x IH]; simpl in *; [reflexivity|].
  destruct (Ascii.eqb c "/"); rewrite IH; [reflexivity|].
  pose proof (split_slash_nonempty x).
  destruct (split_slash x); [contradiction|reflexivity].
Qed.

Lemma pop_app l1 l2 : l2 <> [] -> pop (l1 ++ l2) = pop l2.
Proof.
  unfold pop. intros H. induction l1 as [|a l1 IH]; simpl; auto.
  destruct (l1 ++ l2) eqn:E; auto.
  apply app_eq_nil in E. destruct E; contradiction.
Qed.

Lemma split_slash_name name : includes name "/" = false -> split_slash name = [name].
Proof.
  induction name as [|c name IH]; simpl; auto.
  intros H. apply orb_false_iff in H. destruct H as [H1 H2].
  destruct (Ascii.eqb_spec c "/") as [->|_].
  - discriminate.
  - rewrite IH; auto.
Qed.

(** The file name of [x/name] is [name]. *)
Lemma basename x name :
  includes name "/" = false -> pop (split_slash (x +:+ "/" +:+ name)) = name.
Proof.
  intros H. rewrite split_slash_app, pop_app by apply split_slash_nonempty.
  rewrite split_slash_name by assumption. reflexivity.
Qed.

(** One item whose read and write are answered: read, write, delete, each
    awaited, whatever the status of the write. *)
Lemma move_one_run input token f env tr r1 fields r2 :
  let g := move_files.get_request input token f in
  let p := move_files.put_request input token f (field "content" fields) in
  let d := move_files.delete_request input token f in
  upstream env (issued tr) g = Settled r1 ->
  ok r1 = true ->
  json r1 = inr (VObj fields) ->
  upstream env (issued tr ++ [g]) p = Settled r2 ->
  snd (move_files.move_one input token f env tr) =
  tr ++ call g (Settled r1) ++ call p (Settled r2)
     ++ call d (upstream env (issued tr ++ [g; p]) d).
Proof.
  intros g p d H1 Hok Hj H2.
  unfold move_files.move_one. fold g. run. rewrite H1. run. rewrite Hok. run.
  unfold json_. rewrite Hj. run. fold p.
  rewrite H2. run. fold d.
  destruct (upstream env (issued tr ++ [g; p]) d); reflexivity.
Qed.

(** An item whose read is refused is skipped: nothing is written or deleted
    for it, and the loop goes on with the next item. *)
Lemma move_one_skips input token f env tr r1 :
  let g := move_files.get_request input token f in
  upstream env (issued tr) g = Settled r1 ->
  ok r1 = false ->
  move_files.move_one input token f env tr = (Ok tt, tr ++ call g (Settled r1)).
Proof.
  intros g H1 Hok. unfold move_files.move_one. fold g. run. rewrite H1. run.
  rewrite Hok. reflexivity.
Qed.

Lemma move_loop_skips input token f rest env tr r1 :
  let g := move_files.get_request input token f in
  upstream env (issued tr) g = Settled r1 ->
  ok r1 = false ->
  for_of (f :: rest) tt (fun f _ => move_files.move_one input token f) env tr =
  for_of rest tt (fun f _ => move_files.move_one input token f) env
    (tr ++ call g (Settled r1)).
Proof.
  intros g H1 Hok. simpl for_of. rewrite bind_run.
  rewrite (move_one_skips input token f env tr H1 Hok). reflexivity.
Qed.

(** Claim C8.  A move of the single file x/name to the destination y, when
    the read of x/name is answered with the file's document and the write is
    answered at all, makes exactly three upstream calls, each awaited before
    the next is issued: the read of x/name, the write to y/name of the
    content that was read, and the delete of x/name with the item's sha, in
    that order.  And for every batch, no request is issued while another is
    pending. *)
Theorem move_files_write_then_delete :
    forall (req : Req) (env : Env)
           (body : value) (input : move_files.Input) (id token : string)
           (username : option string) (f : move_files.Item) (x name : string)
           (r1 r2 : FetchResponse) (fields : list (string * value)),
      req_method req <> "OPTIONS" ->
      req_json req = inr body ->
      move_files.moveFilesSchema body = inr input ->
      move_files.files input = [f] ->
      move_files.path f = x +:+ "/" +:+ name ->
      includes name "/" = false ->
      move_files.destination input <> "" ->
      auth_user env = Some id ->
      profiles env id = Some (mkProfile (Some token) username) ->
      token <> "" ->
      let old := x +:+ "/" +:+ name in
      let new := move_files.destination input +:+ "/" +:+ name in
      let read :=
        mkRequest "GET"
          (move_files.contents input old +:+ "?ref=" +:+ move_files.branch input)
          (move_files.headers token) None in
      let write :=
        mkRequest "PUT" (move_files.contents input new) (move_files.headers token)
          (Some (JSON_stringify
                   (VObj [("message", VStr ("Move " +:+ old +:+ " to " +:+ new));
                          ("content", field "content" fields);
                          ("branch", VStr (move_files.branch input))]))) in
      let delete :=
        mkRequest "DELETE" (move_files.contents input old) (move_files.headers token)
          (Some (VObj [("message", VStr ("Delete old file " +:+ old));
                       ("sha", VStr (move_files.sha f));
                       ("branch", VStr (move_files.branch input))])) in
      upstream env [] read = Settled r1 ->
      ok r1 = true ->
      json r1 = inr (VObj fields) ->
      upstream env [read] write = Settled r2 ->
      snd (move_files.serve req env []) =
      [AuthGetUser; ProfilesSelect ["github_access_token"] id]
        ++ call read (Settled r1)
        ++ call write (Settled r2)
        ++ call delete (upstream env [read; write] delete)
      /\ forall (batch : Req) (env' : Env),
           sequential (snd (move_files.serve batch env' [])).
Proof.
  intros req env body input id token username f x name r1 r2 fields
         Hm Hj Hs Hf Hp Hname Hd Hu Hprof Ht old new read write delete H1 Hok Hdoc H2.
  split; [|intros; apply ks_move_files_serve; constructor].
  apply String.eqb_neq in Hm, Hd, Ht.
  assert (Eg : move_files.get_request input token f = read)
    by (unfold move_files.get_request, read; now rewrite Hp).
  assert (Ep : move_files.put_request input token f (field "content" fields) = write).
  { unfold move_files.put_request, write, move_files.newPath.
    rewrite Hp, Hd, basename by assumption. reflexivity. }
  assert (Ed : move_files.delete_request input token f = delete)
    by (unfold move_files.delete_request, delete; now rewrite Hp).
  clearbody read write delete.
  unfold move_files.serve, req_body, parse. rewrite Hm, Hj. run. rewrite Hs. run.
  rewrite Hu. run. rewrite Hprof. run. cbn [absent the]. rewrite Ht. run.
  rewrite Hf. cbn [for_of]. run.
  pose proof (@move_one_run input token f env
                [AuthGetUser; ProfilesSelect ["github_access_token"] id] r1 fields r2) as R.
  cbv zeta in R. rewrite Eg, Ep, Ed in R. specialize (R H1 Hok Hdoc H2).
  destruct (move_files.move_one input token f env _) as [[[]|e] tr'];
    cbn [snd] in R; subst tr'; run; reflexivity.
Qed.

Lemma move_files_write_then_delete_witness :
  snd (move_files.serve (Example.post (Example.move "bob")) (Example.env Example.granting) []) =
  [AuthGetUser; ProfilesSelect ["github_access_token"] "user-1"]
    ++ call (Example.move_read "bob") (Settled Example.found)
    ++ call (Example.move_write "bob") (Settled Example.found)
    ++ call (Example.move_delete "bob") (Settled Example.found)
  /\ forall (batch : Req) (env' : Env), sequential (snd (move_files.serve batch env' [])).
Proof.
  apply (@move_files_write_then_delete
           (Example.post (Example.move "bob")) (Example.env Example.granting)
           (Example.move "bob") (Example.move_input "bob") "user-1" "gho_bob" (Some "bob")
           (move_files.mkItem "x/old.txt" "abc" file) "x" "old.txt"
           Example.found Example.found
           [("type", VStr "file"); ("content", VStr "aGk="); ("sha", VStr "abc")]);
    try reflexivity; discriminate.
Defined.

(** By contrast, the batch upload issues its second write while the first
    is pending. *)
Lemma upload_files_fans_out :
  ~ sequential (snd (upload_files.serve (Example.post Example.upload)
                       (Example.env Example.granting) [])).
Proof.
  intros H.
  change (snd _) with
    ([AuthGetUser; ProfilesSelect ["github_access_token"; "github_username"] "user-1"]
       ++ map Issue (map (upload_files.put Example.upload_input "gho_bob")
                       (upload_files.files Example.upload_input))
       ++ map (fun rr => Await (fst rr) (snd rr))
            (combine (map (upload_files.put Example.upload_input "gho_bob")
                        (upload_files.files Example.upload_input))
               [Settled Example.found; Settled Example.found])) in H.
  inversion H as [| ? H1 | |]; subst.
  inversion H1 as [| | ? ? ? H2 |]; subst.
  inversion H2.
Qed.

(** Claim C2, at a failing input.  The write to [y/old.txt] is refused with
    422, and the handler still deletes [x/old.txt]: the file is lost. *)
Theorem move_files_deletes_after_refused_write :
  ok Example.unprocessable = false /\
  move_files.serve (Example.post (Example.move "bob")) (Example.env Example.refusing_writes) [] =
  (Ok Example.success,
   [AuthGetUser; ProfilesSelect ["github_access_token"] "user-1"]
     ++ call (Example.move_read "bob") (Settled Example.found)
     ++ call (Example.move_write "bob") (Settled Example.unprocessable)
     ++ call (Example.move_delete "bob") (Settled Example.found)).
Proof. split; reflexivity. Qed.

(** ** Deleting a directory *)

Lemma filterM_pure {A} (p : A -> M bool) (q : A -> bool) xs env tr :
  Forall (fun x => p x env tr = (Ok (q x), tr)) xs ->
  filterM p xs env tr = (Ok (filter q xs), tr).
Proof.
  induction 1 as [|x xs Hx _ IH]; simpl; [reflexivity|].
  run. rewrite Hx. run. rewrite IH. run. destruct (q x); reflexivity.
Qed.

Lemma mapM_pure {A B} (f : A -> M B) (g : A -> B) xs env tr :
  Forall (fun x => f x env tr = (Ok (g x), tr)) xs ->
  mapM f xs env tr = (Ok (map g xs), tr).
Proof.
  induction 1 as [|x xs Hx _ IH]; simpl; [reflexivity|].
  run. rewrite Hx. run. rewrite IH. run. reflexivity.
Qed.

Lemma keeps_run p item env tr :
  entry_path item <> None ->
  delete_file.keeps p item env tr = (Ok (outside (delete_file.pathPrefix p) p item), tr).
Proof.
  unfold entry_path, outside, delete_file.keeps, entry_path.
  destruct item as [| | | | |?|fields]; try congruence.
  destruct (field "path" fields) eqn:E; try congruence. intros _.
  run. unfold get. run. rewrite E. unfold startsWith_, strict_eq_str. run.
  destruct (startsWith s (delete_file.pathPrefix p)); reflexivity.
Qed.

Lemma entry_run item env tr :
  entry_path item <> None ->
  delete_file.entry item env tr = (Ok (projected item), tr).
Proof.
  unfold entry_path. destruct item as [| | | | |?|fields]; try congruence. reflexivity.
Qed.

Lemma filter_Forall {A} (P : A -> Prop) q xs : Forall P xs -> Forall P (filter q xs).
Proof. induction 1; simpl; auto. destruct (q x); auto. Qed.

(** The new tree: the entries outside the directory, projected. *)
Lemma newTree_run p fields items env tr :
  field "tree" fields = VArr items ->
  Forall (fun item => entry_path item <> None) items ->
  delete_file.newTree p (VObj fields) env tr =
  (Ok (map projected (filter (outside (delete_file.pathPrefix p) p) items)), tr).
Proof.
  intros Ht Hi. unfold delete_file.newTree. run. rewrite Ht. unfold filter_receiver. run.
  rewrite (@filterM_pure _ (delete_file.keeps p) (outside (delete_file.pathPrefix p) p)).
  - run. apply mapM_pure. apply filter_Forall.
    eapply Forall_impl; [|exact Hi]. intros; now apply entry_run.
  - eapply Forall_impl; [|exact Hi]. intros; now apply keeps_run.
Qed.
Lemma pathPrefix_plain p : endsWith_slash p = false -> delete_file.pathPrefix p = p +:+ "/".
Proof. unfold delete_file.pathPrefix. now intros ->. Qed.

Ltac answered H :=
  match type of H with
  | answering _ ?rep =>
      let r := fresh "r" in
      let Hok := fresh "Hok" in
      let Hdoc := fresh "Hdoc" in
      run; destruct rep as [r|] eqn:?; [destruct H as [Hok Hdoc]|contradiction];
      run; rewrite Hok; run; unfold json_; rewrite Hdoc; run
  end.

(** A directory named without a trailing slash.  When the upstream answers
    every step, the tree that is created holds exactly the entries of the old
    tree whose path is neither the directory nor starts with the directory
    followed by [/] (each with its path, mode, type and sha), the commit that
    is created has the tip of the branch as its only parent, and the branch
    is moved to that commit. *)
Lemma delete_dir_rewrites_tree :
  forall (req : Req) (env : Env) (body : value) (input : delete_file.Input)
         (id token username : string)
         (refFields objectFields commitFields treeFields listingFields
            newTreeFields newCommitFields : list (string * value))
         (items : list value),
    req_method req <> "OPTIONS" ->
    req_json req = inr body ->
    delete_file.deleteFileSchema body = inr input ->
    delete_file.type input = Some dir ->
    endsWith_slash (delete_file.path input) = false ->
    auth_user env = Some id ->
    profiles env id = Some (mkProfile (Some token) (Some username)) ->
    token <> "" ->
    username <> "" ->
    delete_file.owner input = username ->
    let dir := delete_file.path input in
    let tip := field "sha" objectFields in
    let kept := filter (outside (dir +:+ "/") dir) items in
    let read_ref := delete_file.get_ref input token in
    let read_commit := delete_file.get_commit input token tip in
    let read_tree := delete_file.get_tree input token (field "sha" treeFields) in
    let new_tree :=
      mkRequest "POST" (delete_file.repos input +:+ "/git/trees")
        (delete_file.write_headers token)
        (Some (JSON_stringify (VObj [("tree", VArr (map projected kept))]))) in
    let new_commit :=
      mkRequest "POST" (delete_file.repos input +:+ "/git/commits")
        (delete_file.write_headers token)
        (Some (JSON_stringify
                 (VObj [("message", VStr ("Delete directory " +:+ dir));
                        ("tree", field "sha" newTreeFields);
                        ("parents", VArr [tip])]))) in
    let move_ref :=
      mkRequest "PATCH"
        (delete_file.repos input +:+ "/git/refs/heads/" +:+ delete_file.branchName input)
        (delete_file.write_headers token)
        (Some (JSON_stringify (VObj [("sha", field "sha" newCommitFields)]))) in
    answering (VObj refFields) (upstream env [] read_ref) ->
    field "object" refFields = VObj objectFields ->
    answering (VObj commitFields) (upstream env [read_ref] read_commit) ->
    field "tree" commitFields = VObj treeFields ->
    answering (VObj listingFields) (upstream env [read_ref; read_commit] read_tree) ->
    field "tree" listingFields = VArr items ->
    Forall (fun item => entry_path item <> None) items ->
    answering (VObj newTreeFields)
      (upstream env [read_ref; read_commit; read_tree] new_tree) ->
    answering (VObj newCommitFields)
      (upstream env [read_ref; read_commit; read_tree; new_tree] new_commit) ->
    snd (delete_file.serve req env []) =
    [AuthGetUser; ProfilesSelect ["github_access_token"; "github_username"] id]
      ++ call read_ref (upstream env [] read_ref)
      ++ call read_commit (upstream env [read_ref] read_commit)
      ++ call read_tree (upstream env [read_ref; read_commit] read_tree)
      ++ call new_tree (upstream env [read_ref; read_commit; read_tree] new_tree)
      ++ call new_commit
           (upstream env [read_ref; read_commit; read_tree; new_tree] new_commit)
      ++ call move_ref
           (upstream env [read_ref; read_commit; read_tree; new_tree; new_commit] move_ref).
Proof.
  intros req env body input id token username refFields objectFields commitFields
         treeFields listingFields newTreeFields newCommitFields items
         Hm Hj Hs Hty Hslash Hu Hp Ht Hn Ho dir0 tip kept read_ref read_commit read_tree
         new_tree new_commit move_ref H1 H1a H2 H2a H3 H3a H3b H4 H5.
  apply String.eqb_neq in Hm.
  unfold delete_file.serve, req_body, getGitHubToken. rewrite Hm, Hj. run. rewrite Hs. run.
  rewrite Hu. run. rewrite Hp. run.
  rewrite (@absent_false _ Ht), (@absent_false _ Hn). cbn [orb]. run.
  rewrite Ho. cbn [differs]. rewrite String.eqb_refl. cbn [negb the]. rewrite Hty.
  unfold delete_file.delete_dir. fold read_ref.
  answered H1. rewrite H1a. run. fold tip. fold read_commit.
  answered H2. rewrite H2a. run. fold read_tree.
  answered H3. rewrite (@newTree_run _ _ _ _ _ H3a H3b). run.
  rewrite (@pathPrefix_plain _ Hslash). fold dir0. fold kept.
  change (delete_file.post_tree input token (map projected kept)) with new_tree.
  answered H4.
  change (delete_file.post_commit input token (field "sha" newTreeFields) tip)
    with new_commit.
  answered H5.
  change (delete_file.patch_ref input token (field "sha" newCommitFields)) with move_ref.
  destruct (upstream env _ move_ref) as [r6|]; run; [destruct (ok r6)|]; reflexivity.
Qed.
(** Deleting [a] from [a, a/b.txt, a/c/d.txt, e.txt] leaves [e.txt]. *)
Lemma delete_dir_rewrites_tree_example :
  snd (delete_file.serve (Example.post (Example.delete_dir "a")) (Example.env Example.git) []) =
  [AuthGetUser; ProfilesSelect ["github_access_token"; "github_username"] "user-1"]
    ++ call (delete_file.get_ref (Example.delete_dir_input "a") "gho_bob")
         (Example.ok_doc (VObj Example.ref_fields))
    ++ call (delete_file.get_commit (Example.delete_dir_input "a") "gho_bob" (VStr "c0"))
         (Example.ok_doc (VObj Example.commit_fields))
    ++ call (delete_file.get_tree (Example.delete_dir_input "a") "gho_bob" (VStr "t0"))
         (Example.ok_doc (VObj Example.listing_fields))
    ++ call (mkRequest "POST" "https://api.github.com/repos/bob/site/git/trees"
               (delete_file.write_headers "gho_bob")
               (Some (VObj [("tree", VArr [Example.sent_entry "e.txt" "blob" "b3"])])))
         (Settled (mkFetchResponse 201 "" (inr (VObj [("sha", VStr "t9")]))))
    ++ call (mkRequest "POST" "https://api.github.com/repos/bob/site/git/commits"
               (delete_file.write_headers "gho_bob")
               (Some (VObj [("message", VStr "Delete directory a");
                            ("tree", VStr "t9");
                            ("parents", VArr [VStr "c0"])])))
         (Settled (mkFetchResponse 201 "" (inr (VObj [("sha", VStr "c9")]))))
    ++ call (mkRequest "PATCH" "https://api.github.com/repos/bob/site/git/refs/heads/main"
               (delete_file.write_headers "gho_bob")
               (Some (VObj [("sha", VStr "c9")])))
         (Example.ok_doc (VObj [("ref", VStr "refs/heads/main");
                                ("object", VObj [("sha", VStr "c9")])])).
Proof.
  apply (@delete_dir_rewrites_tree
           (Example.post (Example.delete_dir "a")) (Example.env Example.git)
           (Example.delete_dir "a") (Example.delete_dir_input "a") "user-1" "gho_bob" "bob"
           Example.ref_fields [("sha", VStr "c0")] Example.commit_fields
           [("sha", VStr "t0")] Example.listing_fields
           [("sha", VStr "t9")] [("sha", VStr "c9")] Example.listing);
    try reflexivity; try discriminate; try (split; reflexivity).
  repeat constructor; discriminate.
Defined.

(** Claim C5, at a failing input.  The directory [a] of the tree
    [a, a/b.txt, a/c/d.txt, e.txt] is named with a trailing slash, [a/].
    The handler takes [a/] as the prefix and drops the entries under it, but
    compares the paths of the entries with [a/] itself, which no entry has:
    the entry [a] of the directory is kept.  The tree it creates is
    [a, e.txt], where the claim has [e.txt] alone; as the entry [a] still
    names the old subtree, nothing is deleted, and the handler goes on to
    create the commit, move the branch and answer 200. *)
Theorem delete_dir_trailing_slash_keeps_directory :
  delete_file.deleteFileSchema (Example.delete_dir "a/") = inr (Example.delete_dir_input "a/") /\
  delete_file.pathPrefix "a/" = "a/" /\
  delete_file.serve (Example.post (Example.delete_dir "a/")) (Example.env Example.git) [] =
  (Ok (respond 200 (VObj [("success", VBool true)])),
   [AuthGetUser; ProfilesSelect ["github_access_token"; "github_username"] "user-1"]
     ++ call (delete_file.get_ref (Example.delete_dir_input "a/") "gho_bob")
          (Example.ok_doc (VObj Example.ref_fields))
     ++ call (delete_file.get_commit (Example.delete_dir_input "a/") "gho_bob" (VStr "c0"))
          (Example.ok_doc (VObj Example.commit_fields))
     ++ call (delete_file.get_tree (Example.delete_dir_input "a/") "gho_bob" (VStr "t0"))
          (Example.ok_doc (VObj Example.listing_fields))
     ++ call (delete_file.post_tree (Example.delete_dir_input "a/") "gho_bob"
                [Example.sent_entry "a" "tree" "t1"; Example.sent_entry "e.txt" "blob" "b3"])
          (Settled (mkFetchResponse 201 "" (inr (VObj [("sha", VStr "t9")]))))
     ++ call (delete_file.post_commit (Example.delete_dir_input "a/") "gho_bob"
                (VStr "t9") (VStr "c0"))
          (Settled (mkFetchResponse 201 "" (inr (VObj [("sha", VStr "c9")]))))
     ++ call (delete_file.patch_ref (Example.delete_dir_input "a/") "gho_bob" (VStr "c9"))
          (Example.ok_doc (VObj [("ref", VStr "refs/heads/main");
                                 ("object", VObj [("sha", VStr "c9")])]))).
Proof. repeat split; vm_compute; reflexivity. Qed.

(** ** Synchronising a tree *)

Lemma successful_writes_app tr1 tr2 :
  successful_writes (tr1 ++ tr2) = (successful_writes tr1 + successful_writes tr2)%Z.
Proof.
  induction tr1 as [|e tr1 IH]; simpl; auto.
  destruct e as [| | |w [r|m]]; rewrite IH; lia.
Qed.

Lemma probed_app input owner token seg1 seg2 :
  probed input owner token seg1 -> probed input owner token seg2 ->
  probed input owner token (seg1 ++ seg2).
Proof.
  intros H1 H2 w Hin Hm. apply in_app_or in Hin. destruct Hin as [Hin|Hin].
  - destruct (H1 w Hin Hm) as (p & c & rep & pre & post & -> & Hw).
    exists p, c, rep, pre, (post ++ seg2). split; [|exact Hw].
    rewrite <- app_assoc. reflexivity.
  - destruct (H2 w Hin Hm) as (p & c & rep & pre & post & -> & Hw).
    exists p, c, rep, (seg1 ++ pre), post. split; [|exact Hw].
    rewrite <- app_assoc. reflexivity.
Qed.

Lemma probed_nil input owner token : probed input owner token [].
Proof. intros w []. Qed.

Section SyncFile.

Variables (input : sync_repo_contents.Input) (owner token : string).
Variable p : value.

Local Abbreviation src := (sync_repo_contents.get_source input owner token p).
Local Abbreviation prb := (sync_repo_contents.probe input owner token p).

Lemma probed_reads r1 : probed input owner token (call src r1).
Proof.
  intros w Hin Hm. simpl in Hin. destruct Hin as [H|[H|[]]]; try discriminate H.
  injection H as <-. discriminate Hm.
Qed.

Lemma probed_probe r1 r2 : probed input owner token (call src r1 ++ call prb r2).
Proof.
  intros w Hin Hm. simpl in Hin. destruct Hin as [H|[H|[H|[H|[]]]]]; try discriminate H;
    injection H as <-; discriminate Hm.
Qed.

Lemma probed_write r1 rp content ru :
  probed input owner token
    (call src r1 ++ call prb rp
     ++ call (sync_repo_contents.put input owner token p content (spread_of rp)) ru).
Proof.
  intros w Hin Hm. simpl in Hin.
  destruct Hin as [H|[H|[H|[H|[H|[H|[]]]]]]]; try discriminate H;
    injection H as <-; try discriminate Hm.
  exists p, content, rp, [Issue src; Await src r1; Issue prb],
    [Await (sync_repo_contents.put input owner token p content (spread_of rp)) ru].
  split; reflexivity.
Qed.

Lemma concerns_src : concerns input owner token p src.
Proof. left; reflexivity. Qed.

Lemma concerns_prb : concerns input owner token p prb.
Proof. right; left; reflexivity. Qed.

Lemma concerns_put content spread :
  concerns input owner token p (sync_repo_contents.put input owner token p content spread).
Proof. right; right; eauto. Qed.

End SyncFile.

Create HintDb sync.
#[global] Hint Resolve probed_reads probed_probe probed_write concerns_src concerns_prb
  concerns_put : sync.

Lemma sw_read r rep : method r = "GET" -> successful_writes (call r rep) = 0%Z.
Proof. intros H. simpl. destruct rep; auto. now rewrite H. Qed.

Lemma sw_write w rep :
  method w = "PUT" ->
  successful_writes (call w rep) =
  match rep with
  | Settled r => if ok r then 1%Z else 0%Z
  | Rejected _ => 0%Z
  end.
Proof. intros H. simpl. destruct rep; auto. rewrite H. simpl. destruct (ok r); auto. Qed.

Ltac count_writes :=
  cbv beta iota;
  rewrite ?successful_writes_app, ?sw_read, ?sw_write by reflexivity;
  cbv beta iota; try lia.

(** The facts about the events [seg] of one file. *)
Ltac segment seg :=
  apply (ex_intro _ seg); eexists; cbn [fst snd];
  split; [reflexivity|];
  split; [match goal with H : context [attempt] |- _ => apply H end|];
  split; [first [apply probed_reads | apply probed_probe | apply probed_write]|];
  count_writes.

Lemma get_opt_sha doc env tr : get_opt doc "sha" env tr = (Ok (sha_of doc), tr).
Proof. destruct doc; reflexivity. Qed.

Lemma get_frame v k env tr : snd (get v k env tr) = tr.
Proof. destruct v; reflexivity. Qed.

(** One file: the events are an attempt at it, a write in them is probed,
    and the counter moves by the accepted writes; when the body of the loop
    throws, no write was accepted. *)
Lemma sync_file_segment input owner token fields count env tr :
  exists seg res,
    sync_repo_contents.sync_file input owner token (VObj fields) count env tr
      = (res, tr ++ seg) /\
    attempt input owner token (VObj fields) seg /\
    probed input owner token seg /\
    match res with
    | Ok n => n = (count + successful_writes seg)%Z
    | Throw _ => successful_writes seg = 0%Z
    end.
Proof.
  unfold sync_repo_contents.sync_file. run.
  set (p := field "path" fields).
  set (src := sync_repo_contents.get_source input owner token p).
  set (prb := sync_repo_contents.probe input owner token p).
  assert (A1 : forall r1, attempt input owner token (VObj fields) (call src r1)).
  { intros r1. exists fields, [Await src r1]. repeat split.
    simpl issued. unfold src, prb. repeat apply Forall_cons; auto with sync. }
  assert (A2 : forall r1 r2, attempt input owner token (VObj fields)
                               (call src r1 ++ call prb r2)).
  { intros r1 r2. exists fields, [Await src r1; Issue prb; Await prb r2]. repeat split.
    simpl issued. unfold src, prb. repeat apply Forall_cons; auto with sync. }
  assert (A3 : forall r1 r2 c s r3,
             attempt input owner token (VObj fields)
               (call src r1 ++ call prb r2
                ++ call (sync_repo_contents.put input owner token p c s) r3)).
  { intros r1 r2 c s r3.
    exists fields, [Await src r1; Issue prb; Await prb r2;
                    Issue (sync_repo_contents.put input owner token p c s);
                    Await (sync_repo_contents.put input owner token p c s) r3].
    repeat split. simpl issued. unfold src, prb. repeat apply Forall_cons; auto with sync. }
  destruct (upstream env (issued tr) src) as [r1|m1] eqn:E1; cbv iota;
    [|segment (call src (Rejected m1))].
  destruct (ok r1) eqn:O1; cbv iota; run; [|segment (call src (Settled r1))].
  unfold json_ at 1. destruct (json r1) as [msg|fileData]; run;
    [segment (call src (Settled r1))|].
  fold prb.
  destruct (upstream env (issued tr ++ [src]) prb) as [rp|mp] eqn:E2; cbv iota;
    [|segment (call src (Settled r1) ++ call prb (Rejected mp))].
  assert (Hspread : forall doc,
             (ok rp = true -> json rp = inr doc) ->
             (ok rp = false -> doc = VNull) ->
             sync_repo_contents.sha_spread (ok rp) (sha_of doc) = spread_of (Settled rp)).
  { intros doc Ht Hf. unfold sync_repo_contents.sha_spread, spread_of, found_sha.
    destruct (ok rp); [rewrite (Ht eq_refl)|rewrite (Hf eq_refl)]; simpl;
      [destruct (truthy (sha_of doc))|]; reflexivity. }
  assert (Tail : forall doc,
             (ok rp = true -> json rp = inr doc) ->
             (ok rp = false -> doc = VNull) ->
             exists seg res,
               (content <- get fileData "content" ;;
                existing_sha <- get_opt doc "sha" ;;
                uploadResponse <- fetch (sync_repo_contents.put input owner token p content
                                           (sync_repo_contents.sha_spread (ok rp)
                                              existing_sha)) ;;
                (if ok uploadResponse then ret (count + 1)%Z else ret count))
                 env (tr ++ call src (Settled r1) ++ call prb (Settled rp))
               = (res, tr ++ seg) /\
               attempt input owner token (VObj fields) seg /\
               probed input owner token seg /\
               match res with
               | Ok n => n = (count + successful_writes seg)%Z
               | Throw _ => successful_writes seg = 0%Z
               end).
  { intros doc Ht Hf. run.
    pose proof (get_frame fileData "content" env
                  (tr ++ call src (Settled r1) ++ call prb (Settled rp))) as F.
    destruct (get fileData "content" env _) as [[content|e] tr']; cbn [snd] in F; subst tr';
      [|segment (call src (Settled r1) ++ call prb (Settled rp))].
    run. rewrite get_opt_sha. run. rewrite (Hspread doc Ht Hf).
    set (w := sync_repo_contents.put input owner token p content (spread_of (Settled rp))).
    destruct (upstream env _ w) as [ru|mu] eqn:E3; cbv iota; run.
    - destruct (ok ru) eqn:O3;
        segment (call src (Settled r1) ++ call prb (Settled rp) ++ call w (Settled ru));
        rewrite O3; lia.
    - segment (call src (Settled r1) ++ call prb (Settled rp) ++ call w (Rejected mu)). }
  destruct (ok rp) eqn:O2; cbv iota; run.
  - unfold json_ at 1. destruct (json rp) as [msg|doc] eqn:J2; run.
    + segment (call src (Settled r1) ++ call prb (Settled rp)).
    + apply Tail; [reflexivity|discriminate].
  - apply Tail; [discriminate|reflexivity].
Qed.
(** The loop: one attempt per file, in order; every write probed; the
    counter ends at the number of accepted writes. *)
Lemma sync_loop input owner token files :
  Forall is_entry files ->
  forall count env tr,
  exists segs,
    for_of files count
      (fun file syncedCount =>
         try_catch (sync_repo_contents.sync_file input owner token file syncedCount)
           (fun _ => ret syncedCount)) env tr
    = (Ok (count + successful_writes (concat segs))%Z, tr ++ concat segs) /\
    Forall2 (attempt input owner token) files segs /\
    probed input owner token (concat segs).
Proof.
  induction 1 as [|file files [fields ->] _ IH]; intros count env tr.
  - exists []. simpl. rewrite app_nil_r, Z.add_0_r.
    repeat split; [constructor|apply probed_nil].
  - destruct (sync_file_segment input owner token fields count env tr)
      as (seg & res & Hrun & Hatt & Hprobed & Hres).
    cbn [for_of]. run. rewrite Hrun. cbv beta iota.
    destruct res as [n|e]; run.
    + subst n.
      destruct (IH (count + successful_writes seg)%Z env (tr ++ seg))
        as (segs & Hloop & Hatts & Hprobeds).
      exists (seg :: segs). rewrite Hloop. cbn [concat].
      rewrite successful_writes_app, <- app_assoc, Z.add_assoc.
      repeat split; [constructor; assumption|apply probed_app; assumption].
    + destruct (IH count env (tr ++ seg)) as (segs & Hloop & Hatts & Hprobeds).
      exists (seg :: segs). rewrite Hloop. cbn [concat].
      rewrite successful_writes_app, <- app_assoc, Hres, Z.add_0_l.
      repeat split; [constructor; assumption|apply probed_app; assumption].
Qed.

Lemma Forall_firstn {A} (P : A -> Prop) n xs : Forall P xs -> Forall P (firstn n xs).
Proof.
  intros H. revert n. induction H; intros [|n]; simpl; auto.
Qed.

Lemma sync_files_run input owner token files env tr :
  Forall is_entry files ->
  exists segs,
    sync_repo_contents.sync_files input owner token files env tr
    = (Ok (successful_writes (concat segs)), tr ++ concat segs) /\
    Forall2 (attempt input owner token) (firstn 100 files) segs /\
    probed input owner token (concat segs).
Proof.
  intros H. unfold sync_repo_contents.sync_files.
  apply (Forall_firstn sync_repo_contents.MAX_FILES) in H.
  destruct (sync_loop input owner token H 0%Z env tr) as (segs & Hrun & Hatt & Hp).
  exists segs. rewrite Hrun. auto.
Qed.

(** A probe answered with success and a document that has a [sha] found a
    file; a probe answered outside 200-299 found none. *)
Lemma found_sha_present r fields s :
  ok r = true -> json r = inr (VObj fields) -> field "sha" fields = VStr s -> s <> "" ->
  found_sha (Settled r) = Some (VStr s).
Proof.
  intros Hok Hdoc Hsha Hs. unfold found_sha. rewrite Hok, Hdoc. simpl. rewrite Hsha. simpl.
  apply String.eqb_neq in Hs. now rewrite Hs.
Qed.

Lemma found_sha_absent r : ok r = false -> found_sha (Settled r) = None.
Proof. intros Hok. unfold found_sha. now rewrite Hok. Qed.

Lemma found_sha_truthy rep s : found_sha rep = Some s -> truthy s = true.
Proof.
  unfold found_sha. destruct rep as [r|]; [|discriminate].
  destruct (ok r); [|discriminate]. destruct (json r) as [|doc]; [discriminate|].
  destruct (truthy (sha_of doc)) eqn:T; [|discriminate].
  intros H; inversion H; subst; exact T.
Qed.

(** The [sha] field of a write is what the probe found. *)
Lemma put_sha input owner token p content rep :
  body_field "sha" (sync_repo_contents.put input owner token p content (spread_of rep)) =
  option_map JSON_stringify (found_sha rep).
Proof.
  unfold spread_of, body_field, sync_repo_contents.put. cbn [body].
  destruct (found_sha rep) as [s|] eqn:F.
  - apply found_sha_truthy in F.
    destruct content; destruct s; try discriminate F; reflexivity.
  - destruct content; reflexivity.
Qed.

(** Claim C6.  In the sync loop every write follows at once the probe of the
    same path on [destBranch], and carries a sha exactly when that probe
    found a file: the [sha] field of the write is the sha of the probe's
    document when the probe was answered with success and a document that
    has one, and is absent otherwise, in particular when the probe is
    answered 404. *)
Theorem sync_write_carries_probed_sha :
  forall (input : sync_repo_contents.Input) (owner githubToken : string)
         (files : list value) (env : Env) (tr ext : Trace) (w : Request),
    Forall is_entry files ->
    snd (sync_repo_contents.sync_files input owner githubToken files env tr) = tr ++ ext ->
    In (Issue w) ext ->
    method w = "PUT" ->
    exists (p content : value) (rep : Reply) (pre post : Trace),
      ext = pre ++ Await (sync_repo_contents.probe input owner githubToken p) rep
                :: Issue w :: post /\
      w = sync_repo_contents.put input owner githubToken p content
            (match found_sha rep with
             | Some s => [("sha", s)]
             | None => []
             end) /\
      body_field "sha" w = option_map JSON_stringify (found_sha rep).
Proof.
  intros input owner token files env tr ext w Hfiles Hrun Hin Hm.
  destruct (sync_files_run input owner token env tr Hfiles) as (segs & Hsegs & _ & Hp).
  rewrite Hsegs in Hrun. cbn [snd] in Hrun. apply app_inv_head in Hrun. subst ext.
  destruct (Hp w Hin Hm) as (p & content & rep & pre & post & Hext & Hw).
  exists p, content, rep, pre, post. repeat split; [exact Hext|exact Hw|].
  rewrite Hw. apply put_sha.
Qed.

Lemma is_blob_run fields env tr :
  sync_repo_contents.is_blob (VObj fields) env tr = (Ok (blob (VObj fields)), tr).
Proof. reflexivity. Qed.

Lemma filter_entries q items : Forall is_entry items -> Forall is_entry (filter q items).
Proof. apply filter_Forall. Qed.

(** From the tree listing on (its entries are objects): the first 100
    blobs are attempted, in order, and nothing else; the counts reported are
    the number of all the blobs and the number of writes the upstream
    accepted. *)
Lemma report_attempts_first_100_blobs :
  forall (input : sync_repo_contents.Input) (owner githubToken : string)
         (fields : list (string * value)) (items : list value) (env : Env) (tr : Trace),
    field "tree" fields = VArr items ->
    Forall is_entry items ->
    let blobs := filter blob items in
    exists segs : list Trace,
      sync_repo_contents.report input owner githubToken (VObj fields) env tr =
      (Ok (respond 200
             (VObj [("success", VBool true);
                    ("files_synced", VNum (successful_writes (concat segs)));
                    ("total_files", VNum (Z.of_nat (length blobs)))])),
       tr ++ concat segs) /\
      Forall2 (attempt input owner githubToken) (firstn 100 blobs) segs /\
      (length segs <= 100)%nat.
Proof.
  intros input owner token fields items env tr Htree Hitems blobs.
  assert (Hblobs : Forall is_entry blobs) by (apply filter_entries; exact Hitems).
  destruct (sync_files_run input owner token env tr Hblobs) as (segs & Hrun & Hatt & _).
  exists segs. unfold sync_repo_contents.report. run. rewrite Htree.
  unfold filter_receiver. run.
  rewrite (@filterM_pure _ sync_repo_contents.is_blob blob).
  - run. fold blobs. rewrite Hrun. run. repeat split; auto.
    apply Forall2_length in Hatt. rewrite <- Hatt. rewrite length_firstn. lia.
  - eapply Forall_impl; [|exact Hitems]. intros item [f ->]. apply is_blob_run.
Qed.

Lemma sync_write_carries_probed_sha_witness :
  exists (p content : value) (rep : Reply) (pre post : Trace),
    call (Example.sync_source "e.txt") (Settled Example.found)
      ++ call (Example.sync_probe "e.txt") (Settled Example.found)
      ++ call (Example.sync_write "e.txt" [("sha", VStr "abc")]) (Settled Example.found)
    = pre ++ Await (sync_repo_contents.probe Example.sync_input "bob" "gho_bob" p) rep
          :: Issue (Example.sync_write "e.txt" [("sha", VStr "abc")]) :: post /\
    Example.sync_write "e.txt" [("sha", VStr "abc")]
    = sync_repo_contents.put Example.sync_input "bob" "gho_bob" p content
        (match found_sha rep with
         | Some s => [("sha", s)]
         | None => []
         end) /\
    body_field "sha" (Example.sync_write "e.txt" [("sha", VStr "abc")])
    = option_map JSON_stringify (found_sha rep).
Proof.
  apply (@sync_write_carries_probed_sha Example.sync_input "bob" "gho_bob"
           [Example.tree_entry "e.txt" "blob" "b3"] (Example.env Example.mirrored) []).
  - repeat constructor. eexists. reflexivity.
  - reflexivity.
  - vm_compute. do 4 right. left. reflexivity.
  - reflexivity.
Defined.

(** With no file in the destination the write has no [sha]. *)
Lemma sync_write_without_sha :
  snd (sync_repo_contents.sync_files Example.sync_input "bob" "gho_bob"
         [Example.tree_entry "e.txt" "blob" "b3"] (Example.env Example.fresh_mirror) []) =
  call (Example.sync_source "e.txt") (Settled Example.found)
    ++ call (Example.sync_probe "e.txt") (Settled Example.not_found)
    ++ call (Example.sync_write "e.txt" []) (Settled Example.found).
Proof. reflexivity. Qed.

(** A tree of 101 blobs: 100 are attempted, 101 reported as the total. *)
Lemma sync_of_101_blobs :
  let listing := repeat (Example.tree_entry "e.txt" "blob" "b3") 101 in
  fst (sync_repo_contents.report Example.sync_input "bob" "gho_bob"
         (VObj [("tree", VArr listing)]) (Example.env Example.mirrored) []) =
  Ok (respond 200 (VObj [("success", VBool true);
                         ("files_synced", VNum 100);
                         ("total_files", VNum 101)])) /\
  length (issued (snd (sync_repo_contents.report Example.sync_input "bob" "gho_bob"
                         (VObj [("tree", VArr listing)]) (Example.env Example.mirrored) [])))
  = 300%nat.
Proof. split; vm_compute; reflexivity. Qed.

(** ** What a computation can issue *)

Section IssuesOnly.

Variable env : Env.
Variable P : Request -> Prop.
Variables A B : Type.

Lemma io_ret (a : A) : issues_only env P (ret a).
Proof. intros tr. exists []. simpl. rewrite app_nil_r. auto. Qed.

Lemma io_throw e : issues_only env P (@throw A e).
Proof. intros tr. exists []. simpl. rewrite app_nil_r. auto. Qed.

Lemma io_bind (c : M A) (k : A -> M B) :
  issues_only env P c -> (forall a, returns env c a -> issues_only env P (k a)) ->
  issues_only env P (bind c k).
Proof.
  intros Hc Hk tr. destruct (Hc tr) as (seg & E & F).
  unfold bind. destruct (c env tr) as [[a|e] tr'] eqn:R; simpl in E; subst tr'.
  - destruct (Hk a (ex_intro _ tr (ex_intro _ _ R)) (tr ++ seg)) as (seg' & E' & F').
    exists (seg ++ seg'). rewrite E', <- app_assoc, issued_app. split; auto.
    apply Forall_app; auto.
  - exists seg; auto.
Qed.

Lemma io_try_catch (c : M A) h :
  issues_only env P c -> (forall e, issues_only env P (h e)) ->
  issues_only env P (try_catch c h).
Proof.
  intros Hc Hh tr. destruct (Hc tr) as (seg & E & F).
  unfold try_catch. destruct (c env tr) as [[a|e] tr']; simpl in E; subst tr'.
  - exists seg; auto.
  - destruct (Hh e (tr ++ seg)) as (seg' & E' & F').
    exists (seg ++ seg'). rewrite E', <- app_assoc, issued_app. split; auto.
    apply Forall_app; auto.
Qed.

Lemma io_if (b : bool) (c1 c2 : M A) :
  issues_only env P c1 -> issues_only env P c2 -> issues_only env P (if b then c1 else c2).
Proof. destruct b; auto. Qed.

End IssuesOnly.

Section IssuesOnlyPlatform.

Variable env : Env.
Variable P : Request -> Prop.

Lemma io_fetch r : P r -> issues_only env P (fetch r).
Proof.
  intros H tr. exists (call r (upstream env (issued tr) r)).
  rewrite fetch_run. simpl. auto.
Qed.

Lemma io_dispatch r : P r -> issues_only env P (dispatch r).
Proof. intros H tr. exists [Issue r]. simpl. auto. Qed.

Lemma io_await p : issues_only env P (await p).
Proof.
  intros tr. exists [Await (request p) (settles p)].
  unfold await, bind, emit. destruct (settles p); simpl; auto.
Qed.

Lemma io_getUser : issues_only env P getUser.
Proof. intros tr. exists [AuthGetUser]. simpl. auto. Qed.

Lemma io_select_single columns id : issues_only env P (select_single columns id).
Proof. intros tr. exists [ProfilesSelect columns id]. simpl. auto. Qed.

Lemma io_json_ r : issues_only env P (json_ r).
Proof. unfold json_. destruct (json r); [apply io_throw|apply io_ret]. Qed.

Lemma io_get v k : issues_only env P (get v k).
Proof. destruct v; simpl; first [apply io_throw|apply io_ret]. Qed.

Lemma io_get_opt v k : issues_only env P (get_opt v k).
Proof. destruct v; simpl; first [apply io_throw|apply io_ret]. Qed.

Lemma io_req_body req : issues_only env P (req_body req).
Proof. unfold req_body. destruct (req_json req); [apply io_throw|apply io_ret]. Qed.

Lemma io_parse {A} (s : z.Schema A) v : issues_only env P (parse s v).
Proof. unfold parse. destruct (s v); [apply io_throw|apply io_ret]. Qed.

Lemma io_internal_error e : issues_only env P (internal_error e).
Proof. intros tr. exists []. simpl. rewrite app_nil_r. auto. Qed.

Lemma io_ask : issues_only env P ask.
Proof. intros tr. exists []. simpl. rewrite app_nil_r. auto. Qed.

Lemma io_getGitHubToken : issues_only env P getGitHubToken.
Proof.
  unfold getGitHubToken. apply io_bind; [apply io_getUser|]. intros [id|] _; [|apply io_ret].
  apply io_bind; [apply io_select_single|]. intros p _. apply io_if; apply io_ret.
Qed.

Lemma io_filter_receiver v what : issues_only env P (filter_receiver v what).
Proof. destruct v; simpl; first [apply io_throw|apply io_ret]. Qed.

Lemma io_startsWith_ v what p : issues_only env P (startsWith_ v what p).
Proof. destruct v; simpl; first [apply io_throw|apply io_ret]. Qed.

Lemma io_for_of {A S} (body : A -> S -> M S) xs :
  (forall x s, In x xs -> issues_only env P (body x s)) ->
  forall s, issues_only env P (for_of xs s body).
Proof.
  induction xs as [|x xs IH]; intros Hb s; simpl; [apply io_ret|].
  apply io_bind; [apply Hb; simpl; auto|]. intros s' _. apply IH. intros; apply Hb; simpl; auto.
Qed.

Lemma io_mapM {A B} (f : A -> M B) xs :
  (forall x, In x xs -> issues_only env P (f x)) -> issues_only env P (mapM f xs).
Proof.
  induction xs as [|x xs IH]; intros Hf; simpl; [apply io_ret|].
  apply io_bind; [apply Hf; simpl; auto|]. intros y _.
  apply io_bind; [apply IH; intros; apply Hf; simpl; auto|]. intros ys _. apply io_ret.
Qed.

Lemma io_filterM {A} (p : A -> M bool) xs :
  (forall x, issues_only env P (p x)) -> issues_only env P (filterM p xs).
Proof.
  intros Hp. induction xs as [|x xs IH]; simpl; [apply io_ret|].
  apply io_bind; auto. intros y _. apply io_bind; auto. intros ys _. apply io_ret.
Qed.

(** What a computation issues from the empty trace. *)
Lemma issues_only_from_start {A} (c : M A) r :
  issues_only env P c -> In r (issued (snd (c env []))) -> P r.
Proof.
  intros H Hin. destruct (H []) as (seg & E & F). rewrite E in Hin. simpl in Hin.
  rewrite Forall_forall in F. auto.
Qed.

End IssuesOnlyPlatform.

Create HintDb issues.
#[global] Hint Resolve io_ret io_throw io_try_catch io_if io_fetch io_getUser
  io_select_single io_json_ io_get io_get_opt io_req_body io_parse io_internal_error io_ask
  io_getGitHubToken io_filter_receiver io_startsWith_ io_filterM io_await io_dispatch : issues.

(** What the results of the platform calls say about the environment. *)
Lemma returns_req_body env req body : returns env (req_body req) body -> req_json req = inr body.
Proof.
  intros (tr & tr' & H). unfold req_body in H. destruct (req_json req); inversion H; auto.
Qed.

Lemma returns_parse {A} env (s : z.Schema A) v a : returns env (parse s v) a -> s v = inr a.
Proof. intros (tr & tr' & H). unfold parse in H. destruct (s v); inversion H; auto. Qed.

Lemma returns_getUser env user : returns env getUser user -> user = auth_user env.
Proof. intros (tr & tr' & H). rewrite getUser_run in H. inversion H; auto. Qed.

Lemma returns_select_single env columns id profile :
  returns env (select_single columns id) profile ->
  token_of profile = selected columns "github_access_token" (token_of (profiles env id)) /\
  username_of profile = selected columns "github_username" (username_of (profiles env id)).
Proof.
  intros (tr & tr' & H). rewrite select_single_run in H. inversion H; subst.
  destruct (profiles env id); simpl; auto.
  unfold selected. split; destruct (existsb _ _); reflexivity.
Qed.

Lemma absent_some s : absent s = false -> exists x, s = Some x /\ x <> "".
Proof.
  destruct s as [x|]; simpl; [|discriminate]. intros H. exists x. split; auto.
  now apply String.eqb_neq.
Qed.

Lemma differs_false owner name : differs owner name = false -> name = Some owner.
Proof.
  destruct name as [n|]; simpl; [|discriminate]. intros H.
  apply negb_false_iff, String.eqb_eq in H. now subst.
Qed.

Lemma signed_in_intro env id token username :
  auth_user env = Some id ->
  token_of (profiles env id) = Some token ->
  username_of (profiles env id) = Some username ->
  token <> "" -> username <> "" ->
  signed_in env token username.
Proof.
  intros Hu Ht Hn Ht' Hn'. exists id. repeat split; auto.
  destruct (profiles env id) as [[t u]|]; simpl in *; [|discriminate]. congruence.
Qed.

Lemma returns_getGitHubToken env p :
  returns env getGitHubToken (Some p) ->
  exists token username,
    p = mkProfile (Some token) (Some username) /\ signed_in env token username.
Proof.
  intros (tr & tr' & H). unfold getGitHubToken in H. rewrite bind_run, getUser_run in H.
  destruct (auth_user env) as [uid|] eqn:Hu; [|inversion H].
  rewrite bind_run, select_single_run in H. cbv beta iota in H.
  match type of H with (if ?c then _ else _) _ _ = _ => destruct c eqn:C end;
    inversion H; subst. clear H.
  apply orb_false_iff in C. destruct C as [Ct Cn].
  apply absent_some in Ct, Cn. destruct Ct as (token & Et & Ht), Cn as (username & En & Hn).
  exists token, username.
  destruct (profiles env uid) as [[t u]|] eqn:Hp; simpl in *; [|discriminate].
  rewrite !selected_here in Et. change (selected _ _ u) with u in En. subst.
  split; [now inversion H1|].
  apply (@signed_in_intro env uid token username); auto; rewrite Hp; reflexivity.
Qed.

(** ** What a schema that accepts says about the data *)

Lemma run_checks_nil checks s c :
  z.run_checks checks s = [] -> In c checks -> c s = None.
Proof.
  unfold z.run_checks. induction checks as [|c' checks IH]; simpl; [contradiction|].
  intros H [->|Hin].
  - destruct (c s); [discriminate|reflexivity].
  - apply IH; auto. destruct (c' s); [discriminate|exact H].
Qed.

Lemma string_sound checks v s :
  z.string checks v = inr s -> v = VStr s /\ z.run_checks checks s = [].
Proof.
  unfold z.string. destruct v; try discriminate.
  destruct (z.run_checks checks s0) eqn:E; [|discriminate].
  intros H; inversion H; subst. auto.
Qed.

Lemma refine_sound p msg s : z.refine p msg s = None -> p s = true.
Proof. unfold z.refine. destruct (p s); [reflexivity|discriminate]. Qed.

Lemma regex_sound class msg s : z.regex class msg s = None -> matches_plus class s = true.
Proof. unfold z.regex. destruct (matches_plus class s); [reflexivity|discriminate]. Qed.

Lemma min_sound n s : z.min n s = None -> (n <= Z.of_nat (String.length s))%Z.
Proof. unfold z.min. destruct (Z.ltb_spec (Z.of_nat (String.length s)) n); [discriminate|auto]. Qed.

Lemma max_sound n s : z.max n s = None -> (Z.of_nat (String.length s) <= n)%Z.
Proof. unfold z.max. destruct (Z.ltb_spec n (Z.of_nat (String.length s))); [discriminate|auto]. Qed.

Lemma pathSchema_sound v p :
  pathSchema v = inr p ->
  v = VStr p /\ no_traversal p = true /\ (1 <= Z.of_nat (String.length p) <= 4096)%Z.
Proof.
  intros H. apply string_sound in H. destruct H as [-> H]. split; [reflexivity|].
  split; [|split].
  - apply (@refine_sound _ "Path traversal not allowed").
    apply (@run_checks_nil _ _ _ H). simpl; auto.
  - apply min_sound. apply (@run_checks_nil _ _ _ H). simpl; auto.
  - apply max_sound. apply (@run_checks_nil _ _ _ H). simpl; auto.
Qed.

Lemma elements_sound {A} (s : z.Schema A) items : forall i out,
  z.elements s i items = inr out -> Forall2 (fun x a => s x = inr a) items out.
Proof.
  induction items as [|x items IH]; intros i out H; simpl in H.
  - inversion H; constructor.
  - destruct (z.at_seg (z.Idx i) (s x)) eqn:E1; [discriminate|].
    destruct (z.elements s (S i) items) eqn:E2; [discriminate|].
    inversion H; subst. constructor; eauto using at_seg_inr.
Qed.

Lemma array_sound {A} (s : z.Schema A) lo hi v out :
  z.array s lo hi v = inr out ->
  exists items, v = VArr items /\ Forall2 (fun x a => s x = inr a) items out.
Proof.
  unfold z.array. destruct v; try discriminate. intros H. exists items. split; auto.
  destruct (z.elements s 0 items) eqn:E.
  - destruct (_ ++ _); discriminate.
  - destruct (_ ++ _); [|discriminate]. inversion H; subst. eapply elements_sound; eauto.
Qed.

Lemma Forall2_right {A B} (R : A -> B -> Prop) (Q : B -> Prop) xs ys :
  (forall x y, R x y -> Q y) -> Forall2 R xs ys -> Forall Q ys.
Proof. intros H. induction 1; constructor; eauto. Qed.

Lemma fileSchema_sound v f :
  upload_files.fileSchema v = inr f -> no_traversal (upload_files.path f) = true.
Proof.
  unfold upload_files.fileSchema, z.object. destruct v; try discriminate.
  intros H. split_schema. inversion H; subst; simpl.
  match goal with E : z.prop_of "path" _ _ = inr _ |- _ =>
    apply at_seg_inr, pathSchema_sound in E; tauto end.
Qed.

Lemma uploadFilesSchema_paths body input :
  upload_files.uploadFilesSchema body = inr input ->
  Forall (fun f => no_traversal (upload_files.path f) = true) (upload_files.files input).
Proof.
  unfold upload_files.uploadFilesSchema, z.object. destruct body; try discriminate.
  intros H. split_schema. inversion H; subst; simpl.
  match goal with E : z.prop_of "files" _ _ = inr _ |- _ =>
    apply at_seg_inr, array_sound in E; destruct E as (items & _ & F) end.
  eapply Forall2_right; [|exact F]. intros x y. apply fileSchema_sound.
Qed.

Lemma createFileSchema_path body input :
  create_file.createFileSchema body = inr input ->
  no_traversal (create_file.path input) = true.
Proof.
  unfold create_file.createFileSchema, z.object. destruct body; try discriminate.
  intros H. split_schema. inversion H; subst; simpl.
  match goal with E : z.prop_of "path" _ _ = inr _ |- _ =>
    apply at_seg_inr, pathSchema_sound in E; tauto end.
Qed.

Lemma optional_sound {A} (s : z.Schema A) v o :
  z.optional s v = inr o ->
  (v = VUndef /\ o = None) \/ (v <> VUndef /\ exists a, o = Some a /\ s v = inr a).
Proof.
  unfold z.optional. destruct v; intros H;
    try (right; split; [discriminate|];
         match type of H with match ?x with _ => _ end = _ => destruct x eqn:E end;
         [discriminate|]; inversion H; subst; eauto).
  left. inversion H; auto.
Qed.

Lemma getContentsSchema_sound body input :
  get_repo_contents.getContentsSchema body = inr input ->
  exists fields p,
    body = VObj fields /\
    get_repo_contents.path input = Some p /\
    no_traversal p = true /\
    (field "path" fields = VUndef -> p = "") /\
    (forall s, field "path" fields = VStr s -> p = s).
Proof.
  unfold get_repo_contents.getContentsSchema, z.object. destruct body; try discriminate.
  intros H. split_schema. inversion H; subst; simpl. clear H.
  match goal with E : z.prop_of "path" _ _ = inr _ |- _ =>
    apply at_seg_inr in E; rename E into Hp end.
  exists fields. unfold z.default in Hp.
  destruct (field "path" fields) eqn:F; try solve [simpl in Hp; discriminate].
  - inversion Hp; subst. exists "". repeat split; auto. discriminate.
  - apply optional_sound in Hp. destruct Hp as [[? _]|(_ & a & -> & Hs)]; [discriminate|].
    apply string_sound in Hs. destruct Hs as [Hv Hc]. inversion Hv; subst.
    exists a. repeat split; auto; try discriminate.
    + apply (@refine_sound _ "Path traversal not allowed").
      apply (@run_checks_nil _ _ _ Hc). simpl; auto.
    + intros s' Hs'. now inversion Hs'.
Qed.
(** ** The ownership gate, for every request

    For the handlers that have the gate, what C1 asks of the move handler
    holds of every request they issue. *)

(** The rest of a computation, one construct at a time; what is left is to
    show that each request it can issue satisfies the property. *)
Ltac io_walk :=
  repeat first
    [ apply io_ret | apply io_throw | apply io_json_ | apply io_get | apply io_get_opt
    | apply io_internal_error | apply io_getUser | apply io_select_single
    | apply io_filter_receiver | apply io_startsWith_ | apply io_req_body | apply io_parse
    | apply io_fetch | apply io_await | apply io_ask | apply io_getGitHubToken
    | apply io_if
    | apply io_filterM; intros ?
    | apply io_mapM; intros ? _
    | apply io_for_of; intros ? ? _
    | apply io_try_catch; [|intros ?]
    | apply io_bind; [|intros ? _] ].

(** A handler up to its credential check: the inbound body, the user and
    the stored profile are named, the early answers are discharged. *)
Ltac io_enter Hb :=
  match goal with
  | |- issues_only _ _ (if ?m then _ else _) => destruct m; [apply io_ret|]
  end;
  apply io_try_catch; [|intros; apply io_internal_error];
  apply io_bind; [apply io_req_body|]; intros ? Hb%returns_req_body.

Ltac io_profile id Hu token Ht username Hn :=
  apply io_bind; [apply io_getUser|]; intros [id|] Hu%returns_getUser; [|apply io_ret];
  apply io_bind; [apply io_select_single|];
  let profile := fresh "profile" in
  let Hsel := fresh "Hsel" in
  let C := fresh "C" in
  intros profile Hsel%returns_select_single;
  destruct Hsel as [Ht Hn]; rewrite ?selected_here in Ht;
  change (selected _ "github_username" ?u) with u in Hn;
  destruct (absent (token_of profile) || absent (username_of profile)) eqn:C;
  [apply io_ret|];
  apply orb_false_iff in C; destruct C as [Ct Cn];
  apply absent_some in Ct, Cn;
  destruct Ct as (token & Et & Ht'), Cn as (username & En & Hn');
  rewrite Et in *; rewrite En in *; cbn [the].


Lemma base64Content_run max_arguments content env tr :
  spreads max_arguments content ->
  create_file.base64Content max_arguments content env tr = (Ok (encoded content), tr).
Proof.
  unfold spreads, create_file.base64Content, fromCharCode. intros H.
  destruct (Z.ltb_spec max_arguments (Z.of_nat (length (TextEncoder_encode content))));
    [lia|reflexivity].
Qed.

Lemma base64Content_throws max_arguments content env tr :
  ~ spreads max_arguments content ->
  create_file.base64Content max_arguments content env tr =
  (Throw (RangeError "Maximum call stack size exceeded"), tr).
Proof.
  unfold spreads, create_file.base64Content, fromCharCode. intros H.
  destruct (Z.ltb_spec max_arguments (Z.of_nat (length (TextEncoder_encode content))));
    [reflexivity|lia].
Qed.

Lemma io_base64Content env (P : Request -> Prop) max_arguments content :
  issues_only env P (create_file.base64Content max_arguments content).
Proof.
  unfold create_file.base64Content, fromCharCode.
  destruct (_ <? _)%Z; [apply io_bind; [apply io_throw|intros; apply io_ret]|].
  apply io_bind; [apply io_ret|intros; apply io_ret].
Qed.

Lemma returns_base64Content env max_arguments content text :
  returns env (create_file.base64Content max_arguments content) text ->
  spreads max_arguments content /\ text = encoded content.
Proof.
  intros (tr & tr' & H). unfold spreads.
  destruct (Z.le_gt_cases (Z.of_nat (length (TextEncoder_encode content))) max_arguments)
    as [L|G].
  - rewrite (@base64Content_run _ _ env tr L) in H. inversion H. auto.
  - rewrite base64Content_throws in H by (unfold spreads; lia). discriminate H.
Qed.

(** Extra X1.  Whatever the inbound request, the environment and the
    engine, the only request create-file issues is the [PUT] built from a
    body that passed the schema: it is issued only when the [owner] field of
    that body is the account name stored for the signed-in caller, it
    carries the token stored for that caller, its content is the base64 text
    of the UTF-8 bytes of the [content] field, and these bytes were few
    enough to be passed in one call.  This is the request as built: its URL
    is the text [/repos/<owner>/<repo>/contents/<path>], where [path] has no
    [..] and no leading [/], and where the schema lets [repo] be [.] or
    [..]. *)
Theorem create_file_request_passes_the_gate :
  forall (max_arguments : Z) (req : Req) (env : Env) (r : Request),
    In r (issued (snd (create_file.serve max_arguments req env []))) ->
    exists body input token,
      req_json req = inr body /\
      create_file.createFileSchema body = inr input /\
      signed_in env token (create_file.owner input) /\
      spreads max_arguments (create_file.content input) /\
      r = create_file.put input token (encoded (create_file.content input)) /\
      no_traversal (create_file.path input) = true.
Proof.
  intros max_arguments req env.
  pose (P := fun r : Request =>
               exists body input token,
                 req_json req = inr body /\
                 create_file.createFileSchema body = inr input /\
                 signed_in env token (create_file.owner input) /\
                 spreads max_arguments (create_file.content input) /\
                 r = create_file.put input token (encoded (create_file.content input)) /\
                 no_traversal (create_file.path input) = true).
  intros r. apply (@issues_only_from_start env P _ (create_file.serve max_arguments req) r).
  unfold create_file.serve. io_enter Hb.
  destruct (create_file.createFileSchema a) as [issues|input] eqn:Hs; [apply io_ret|].
  io_profile uid Hu token Ht username Hn.
  destruct (differs _ _) eqn:D; [apply io_ret|].
  apply differs_false in D. inversion D; subst username.
  apply io_bind; [apply io_base64Content|].
  intros text [Hfit ->]%returns_base64Content.
  io_walk. exists a, input, token. repeat split; auto.
  - eapply signed_in_intro; eauto.
  - eapply createFileSchema_path; eauto.
Qed.

Lemma create_file_request_passes_the_gate_witness :
  exists body input token,
    req_json (Example.post Example.create) = inr body /\
    create_file.createFileSchema body = inr input /\
    signed_in (Example.env Example.granting) token (create_file.owner input) /\
    spreads 65536 (create_file.content input) /\
    create_file.put Example.create_input "gho_bob" "aGk=" =
      create_file.put input token (encoded (create_file.content input)) /\
    no_traversal (create_file.path input) = true.
Proof.
  apply (@create_file_request_passes_the_gate 65536 (Example.post Example.create)
           (Example.env Example.granting)
           (create_file.put Example.create_input "gho_bob" "aGk=")).
  vm_compute. left. reflexivity.
Defined.


(** Extra X2.  Every request upload-files issues is the [PUT] built for one
    file of a body that passed the schema: it is issued only when the
    [owner] field of that body is the account name stored for the signed-in
    caller, and it carries the token stored for that caller.  This is the
    request as built: its URL is the text
    [/repos/<owner>/<repo>/contents/<path>], where the path of the file has
    no [..] and no leading [/], and where the schema lets [repo] be [.] or
    [..]. *)
Theorem upload_files_requests_pass_the_gate :
  forall (req : Req) (env : Env) (r : Request),
    In r (issued (snd (upload_files.serve req env []))) ->
    exists body input token f,
      req_json req = inr body /\
      upload_files.uploadFilesSchema body = inr input /\
      signed_in env token (upload_files.owner input) /\
      In f (upload_files.files input) /\
      r = upload_files.put input token f /\
      no_traversal (upload_files.path f) = true.
Proof.
  intros req env.
  pose (P := fun r : Request =>
               exists body input token f,
                 req_json req = inr body /\
                 upload_files.uploadFilesSchema body = inr input /\
                 signed_in env token (upload_files.owner input) /\
                 In f (upload_files.files input) /\
                 r = upload_files.put input token f /\
                 no_traversal (upload_files.path f) = true).
  intros r. apply (@issues_only_from_start env P _ (upload_files.serve req) r).
  unfold upload_files.serve. io_enter Hb.
  destruct (upload_files.uploadFilesSchema a) as [issues|input] eqn:Hs; [apply io_ret|].
  io_profile uid Hu token Ht username Hn.
  destruct (differs _ _) eqn:D; [apply io_ret|].
  apply differs_false in D. inversion D; subst username.
  pose proof (uploadFilesSchema_paths _ Hs) as Hpaths. rewrite Forall_forall in Hpaths.
  apply io_bind; [|intros results _; apply io_ret].
  unfold upload_files.upload_all.
  apply io_bind.
  - apply io_mapM. intros f Hf. apply io_dispatch.
    exists a, input, token, f. repeat split; auto. eapply signed_in_intro; eauto.
  - intros promises _. apply io_mapM. intros fp _. unfold upload_files.settle. io_walk.
Qed.

Lemma upload_files_requests_pass_the_gate_witness :
  exists body input token f,
    req_json (Example.post Example.upload) = inr body /\
    upload_files.uploadFilesSchema body = inr input /\
    signed_in (Example.env Example.granting) token (upload_files.owner input) /\
    In f (upload_files.files input) /\
    upload_files.put Example.upload_input "gho_bob" (upload_files.mkFile "b.txt" "Yg==")
      = upload_files.put input token f /\
    no_traversal (upload_files.path f) = true.
Proof.
  apply (@upload_files_requests_pass_the_gate (Example.post Example.upload)
           (Example.env Example.granting)
           (upload_files.put Example.upload_input "gho_bob"
              (upload_files.mkFile "b.txt" "Yg=="))).
  vm_compute. right. left. reflexivity.
Defined.

(** What is left of a walk through a handler: the request at hand is one
    of a list of shapes. *)
Ltac one_of_the_shapes :=
  solve [ repeat first [ reflexivity | left; reflexivity | left; repeat eexists; reflexivity
                       | repeat eexists; reflexivity | right ] ].

(** Extra X3.  Every request delete-file issues is one of the seven it
    builds from a body that passed the schema (the six steps of the
    directory branch, the one call of the file branch): it is issued only
    when the [owner] field of that body is the account name stored for the
    signed-in caller, and it carries the token stored for that caller.
    These are the requests as built: each URL is a text that begins with
    [/repos/<owner>/<repo>/] and goes on with the path, or with the branch,
    on which the schema puts no pattern. *)
Theorem delete_file_requests_pass_the_gate :
  forall (req : Req) (env : Env) (r : Request),
    In r (issued (snd (delete_file.serve req env []))) ->
    exists body input token,
      req_json req = inr body /\
      delete_file.deleteFileSchema body = inr input /\
      signed_in env token (delete_file.owner input) /\
      deletes input token r.
Proof.
  intros req env.
  pose (P := fun r : Request =>
               exists body input token,
                 req_json req = inr body /\
                 delete_file.deleteFileSchema body = inr input /\
                 signed_in env token (delete_file.owner input) /\
                 deletes input token r).
  intros r. apply (@issues_only_from_start env P _ (delete_file.serve req) r).
  unfold delete_file.serve. destruct (req_method req =? "OPTIONS"); [apply io_ret|].
  apply io_try_catch; [|intros; apply io_internal_error].
  apply io_bind; [apply io_req_body|]. intros body Hb%returns_req_body.
  destruct (delete_file.deleteFileSchema body) as [issues|input] eqn:Hs; [apply io_ret|].
  apply io_bind; [apply io_getGitHubToken|]. intros [p|] Hp; [|apply io_ret].
  apply returns_getGitHubToken in Hp. destruct Hp as (token & username & -> & S).
  cbn [github_username github_access_token the].
  destruct (differs _ _) eqn:D; [apply io_ret|].
  apply differs_false in D. inversion D; subst username.
  assert (HP : forall r', deletes input token r' -> P r').
  { intros r' H. exists body, input, token. auto. }
  destruct (delete_file.type input) as [[|]|];
    unfold delete_file.delete_dir, delete_file.delete_blob, delete_file.newTree,
      delete_file.keeps, delete_file.entry, delete_file.failed, delete_file.success;
    io_walk; apply HP; unfold deletes; one_of_the_shapes.
Qed.

Lemma delete_file_requests_pass_the_gate_witness :
  exists body input token,
    req_json (Example.post (Example.delete_dir "a")) = inr body /\
    delete_file.deleteFileSchema body = inr input /\
    signed_in (Example.env Example.git) token (delete_file.owner input) /\
    deletes input token
      (delete_file.get_commit (Example.delete_dir_input "a") "gho_bob" (VStr "c0")).
Proof.
  apply (@delete_file_requests_pass_the_gate (Example.post (Example.delete_dir "a"))
           (Example.env Example.git)
           (delete_file.get_commit (Example.delete_dir_input "a") "gho_bob" (VStr "c0"))).
  vm_compute. right. left. reflexivity.
Defined.


(** Extra X4.  The only request get-repo-contents issues is the [GET] built
    from a body that passed the schema: it is issued only when the [owner]
    field of that body is the account name stored for the signed-in caller,
    and it carries the token stored for that caller.  This is the request as
    built: its URL is the text [/repos/<owner>/<repo>/contents/<path>] with
    the [ref] as its query, where the path is defined, has no [..] and no
    leading [/], and where the schema lets [repo] be [.] or [..]. *)
Theorem get_repo_contents_request_passes_the_gate :
  forall (req : Req) (env : Env) (r : Request),
    In r (issued (snd (get_repo_contents.serve req env []))) ->
    exists body input token p,
      req_json req = inr body /\
      get_repo_contents.getContentsSchema body = inr input /\
      signed_in env token (get_repo_contents.owner input) /\
      r = get_repo_contents.get_contents input token /\
      get_repo_contents.path input = Some p /\
      no_traversal p = true.
Proof.
  intros req env.
  pose (P := fun r : Request =>
               exists body input token p,
                 req_json req = inr body /\
                 get_repo_contents.getContentsSchema body = inr input /\
                 signed_in env token (get_repo_contents.owner input) /\
                 r = get_repo_contents.get_contents input token /\
                 get_repo_contents.path input = Some p /\
                 no_traversal p = true).
  intros r. apply (@issues_only_from_start env P _ (get_repo_contents.serve req) r).
  unfold get_repo_contents.serve. io_enter Hb.
  destruct (get_repo_contents.getContentsSchema a) as [issues|input] eqn:Hs; [apply io_ret|].
  io_profile uid Hu token Ht username Hn.
  destruct (differs _ _) eqn:D; [apply io_ret|].
  apply differs_false in D. inversion D; subst username.
  destruct (getContentsSchema_sound _ Hs) as (fields & p & _ & Hp & Hclean & _).
  io_walk. exists a, input, token, p. repeat split; auto.
  eapply signed_in_intro; eauto.
Qed.

Lemma get_repo_contents_request_passes_the_gate_witness :
  exists body input token p,
    req_json (Example.post Example.contents_query) = inr body /\
    get_repo_contents.getContentsSchema body = inr input /\
    signed_in (Example.env Example.granting) token (get_repo_contents.owner input) /\
    get_repo_contents.get_contents Example.contents_input "gho_bob"
      = get_repo_contents.get_contents input token /\
    get_repo_contents.path input = Some p /\
    no_traversal p = true.
Proof.
  apply (@get_repo_contents_request_passes_the_gate (Example.post Example.contents_query)
           (Example.env Example.granting)
           (get_repo_contents.get_contents Example.contents_input "gho_bob")).
  vm_compute. left. reflexivity.
Defined.


Lemma min1_nonempty k checks fields s :
  z.prop_of k (z.string (z.min 1 :: checks)) fields = inr s -> s <> "".
Proof.
  intros H. apply at_seg_inr, string_sound in H. destruct H as [_ H].
  assert (M : z.min 1 s = None) by (apply (@run_checks_nil _ _ _ H); simpl; auto).
  apply min_sound in M. intros ->. simpl in M. lia.
Qed.

Lemma renameRepoSchema_owner body input :
  rename_repo.renameRepoSchema body = inr input -> rename_repo.owner input <> "".
Proof.
  unfold rename_repo.renameRepoSchema, z.object. destruct body; try discriminate.
  intros H. split_schema. inversion H; subst; simpl. eapply min1_nonempty; eauto.
Qed.

Lemma updateRepoSchema_owner body input :
  update_repo.updateRepoSchema body = inr input -> update_repo.owner input <> "".
Proof.
  unfold update_repo.updateRepoSchema, z.object. destruct body; try discriminate.
  intros H. split_schema. inversion H; subst; simpl. eapply min1_nonempty; eauto.
Qed.

(** The credential check of rename-repo and update-repo. *)
Ltac io_profile' uid Hu token Ht Hn :=
  apply io_bind; [apply io_getUser|]; intros [uid|] Hu%returns_getUser; [|apply io_ret];
  apply io_bind; [apply io_select_single|];
  let profile := fresh "profile" in
  let C := fresh "C" in
  let Ct := fresh "Ct" in
  let Et := fresh "Et" in
  intros profile [Ht Hn]%returns_select_single;
  rewrite ?selected_here in Ht;
  try change (selected _ "github_username" ?u) with u in Hn;
  destruct (_ || absent (token_of profile)) eqn:C; [apply io_ret|];
  apply orb_false_iff in C; destruct C as [_ Ct];
  apply absent_some in Ct; destruct Ct as (token & Et & Ht');
  rewrite Et in *; cbn [the].


(** Extra X5.  The only request rename-repo issues is the [PATCH] built from
    a body that passed the schema: it is issued only when the [owner] field
    of that body is the account name stored for the signed-in caller, and it
    carries the token stored for that caller.  This is the request as built:
    its URL is the text [/repos/<owner>/<repo>], and the schema asks of
    [repo] only that it is not empty. *)
Theorem rename_repo_request_passes_the_gate :
  forall (req : Req) (env : Env) (r : Request),
    In r (issued (snd (rename_repo.serve req env []))) ->
    exists body input token,
      req_json req = inr body /\
      rename_repo.renameRepoSchema body = inr input /\
      signed_in env token (rename_repo.owner input) /\
      r = rename_repo.patch input token.
Proof.
  intros req env.
  pose (P := fun r : Request =>
               exists body input token,
                 req_json req = inr body /\
                 rename_repo.renameRepoSchema body = inr input /\
                 signed_in env token (rename_repo.owner input) /\
                 r = rename_repo.patch input token).
  intros r. apply (@issues_only_from_start env P _ (rename_repo.serve req) r).
  unfold rename_repo.serve. io_enter Hb.
  apply io_bind; [apply io_parse|]. intros input Hs%returns_parse.
  io_profile' uid Hu token Ht Hn.
  destruct (differs _ _) eqn:D; [apply io_ret|].
  apply differs_false in D.
  io_walk. exists a, input, token. repeat split; auto.
  eapply signed_in_intro; eauto; try congruence. eapply renameRepoSchema_owner; eauto.
Qed.

Lemma rename_repo_request_passes_the_gate_witness :
  exists body input token,
    req_json (Example.post Example.rename_repo_doc) = inr body /\
    rename_repo.renameRepoSchema body = inr input /\
    signed_in (Example.env Example.granting) token (rename_repo.owner input) /\
    rename_repo.patch Example.rename_repo_input "gho_bob" = rename_repo.patch input token.
Proof.
  apply (@rename_repo_request_passes_the_gate (Example.post Example.rename_repo_doc)
           (Example.env Example.granting)
           (rename_repo.patch Example.rename_repo_input "gho_bob")).
  vm_compute. left. reflexivity.
Defined.


(** The same of update-repo: its one request is the [PATCH] built from a
    body that passed the schema, issued only when the [owner] field of that
    body is the account name stored for the signed-in caller. *)
Lemma update_repo_request_passes_the_gate :
  forall (req : Req) (env : Env) (r : Request),
    In r (issued (snd (update_repo.serve req env []))) ->
    exists body input token,
      req_json req = inr body /\
      update_repo.updateRepoSchema body = inr input /\
      signed_in env token (update_repo.owner input) /\
      r = update_repo.patch input token.
Proof.
  intros req env.
  pose (P := fun r : Request =>
               exists body input token,
                 req_json req = inr body /\
                 update_repo.updateRepoSchema body = inr input /\
                 signed_in env token (update_repo.owner input) /\
                 r = update_repo.patch input token).
  intros r. apply (@issues_only_from_start env P _ (update_repo.serve req) r).
  unfold update_repo.serve. io_enter Hb.
  apply io_bind; [apply io_parse|]. intros input Hs%returns_parse.
  io_profile' uid Hu token Ht Hn.
  destruct (differs _ _) eqn:D; [apply io_ret|].
  apply differs_false in D.
  io_walk. exists a, input, token. repeat split; auto.
  eapply signed_in_intro; eauto; try congruence. eapply updateRepoSchema_owner; eauto.
Qed.

Lemma update_repo_request_passes_the_gate_example :
  exists body input token,
    req_json (Example.post Example.update_doc) = inr body /\
    update_repo.updateRepoSchema body = inr input /\
    signed_in (Example.env Example.granting) token (update_repo.owner input) /\
    update_repo.patch Example.update_input "gho_bob" = update_repo.patch input token.
Proof.
  apply (@update_repo_request_passes_the_gate (Example.post Example.update_doc)
           (Example.env Example.granting)
           (update_repo.patch Example.update_input "gho_bob")).
  vm_compute. left. reflexivity.
Defined.


(** Extra X7.  get-repo-branches never takes the owner from the request:
    every request it issues is the check of the repository or the listing of
    its branches, under the account name stored for the signed-in caller and
    with the caller's stored token. *)
Theorem get_repo_branches_reads_own_account :
  forall (req : Req) (env : Env) (r : Request),
    In r (issued (snd (get_repo_branches.serve req env []))) ->
    exists body input token username,
      req_json req = inr body /\
      get_repo_branches.getBranchesSchema body = inr input /\
      signed_in env token username /\
      (r = get_repo_branches.get_repo input username token \/
       r = get_repo_branches.get_branches input username token).
Proof.
  intros req env.
  pose (P := fun r : Request =>
               exists body input token username,
                 req_json req = inr body /\
                 get_repo_branches.getBranchesSchema body = inr input /\
                 signed_in env token username /\
                 (r = get_repo_branches.get_repo input username token \/
                  r = get_repo_branches.get_branches input username token)).
  intros r. apply (@issues_only_from_start env P _ (get_repo_branches.serve req) r).
  unfold get_repo_branches.serve. io_enter Hb.
  destruct (get_repo_branches.getBranchesSchema a) as [issues|input] eqn:Hs; [apply io_ret|].
  io_profile uid Hu token Ht username Hn.
  io_walk; exists a, input, token, username; repeat split; auto;
    eapply signed_in_intro; eauto.
Qed.

Lemma get_repo_branches_reads_own_account_witness :
  exists body input token username,
    req_json (Example.post Example.branches_query) = inr body /\
    get_repo_branches.getBranchesSchema body = inr input /\
    signed_in (Example.env Example.granting) token username /\
    (get_repo_branches.get_repo Example.branches_input "bob" "gho_bob"
       = get_repo_branches.get_repo input username token \/
     get_repo_branches.get_repo Example.branches_input "bob" "gho_bob"
       = get_repo_branches.get_branches input username token).
Proof.
  apply (@get_repo_branches_reads_own_account (Example.post Example.branches_query)
           (Example.env Example.granting)
           (get_repo_branches.get_repo Example.branches_input "bob" "gho_bob")).
  vm_compute. left. reflexivity.
Defined.


Lemma io_first_ env P v : issues_only env P (create_pull_request.first_ v).
Proof. destruct v as [| | | |[|c s]| |]; simpl; first [apply io_throw|apply io_ret]. Qed.


(** Extra X8.  The only request create-pull-request issues is the [POST] of
    a body that passed the schema to [/repos/<account>/<repositoryName>/pulls],
    where the account is the name stored for the signed-in caller, with the
    caller's stored token. *)
Theorem create_pull_request_opens_in_own_account :
  forall (req : Req) (env : Env) (r : Request),
    In r (issued (snd (create_pull_request.serve req env []))) ->
    exists body input token username,
      req_json req = inr body /\
      create_pull_request.createPRSchema body = inr input /\
      signed_in env token username /\
      r = create_pull_request.post_pull input username token.
Proof.
  intros req env.
  pose (P := fun r : Request =>
               exists body input token username,
                 req_json req = inr body /\
                 create_pull_request.createPRSchema body = inr input /\
                 signed_in env token username /\
                 r = create_pull_request.post_pull input username token).
  intros r. apply (@issues_only_from_start env P _ (create_pull_request.serve req) r).
  unfold create_pull_request.serve. io_enter Hb.
  destruct (create_pull_request.createPRSchema a) as [issues|input] eqn:Hs; [apply io_ret|].
  apply io_bind; [apply io_getGitHubToken|]. intros [p|] Hp; [|apply io_ret].
  apply returns_getGitHubToken in Hp. destruct Hp as (token & username & -> & S).
  cbn [github_username github_access_token the].
  unfold create_pull_request.open_pull, create_pull_request.errorDetail.
  io_walk; try apply io_first_; io_walk; exists a, input, token, username; auto.
Qed.

Lemma create_pull_request_opens_in_own_account_witness :
  exists body input token username,
    req_json (Example.post Example.pull) = inr body /\
    create_pull_request.createPRSchema body = inr input /\
    signed_in (Example.env Example.granting) token username /\
    create_pull_request.post_pull Example.pull_input "bob" "gho_bob"
      = create_pull_request.post_pull input username token.
Proof.
  apply (@create_pull_request_opens_in_own_account (Example.post Example.pull)
           (Example.env Example.granting)
           (create_pull_request.post_pull Example.pull_input "bob" "gho_bob")).
  vm_compute. left. reflexivity.
Defined.


(** Extra X9.  sync-repo-contents takes no owner from the request: every
    request it issues is a request of [createOrGetBranch], or one of the six
    it builds itself from a body that passed the schema (the two repository
    checks, the listing of the source tree, and the read, probe and write of
    a path), with the account name and the token stored for the signed-in
    caller.  These are the requests as built: each URL is a text that begins
    with [/repos/<account>/] and goes on with a repository, a branch and a
    path of the body or of the listing; the pattern for a branch lets [.]
    and [/] through. *)
Theorem sync_repo_contents_requests :
  forall (createOrGetBranch : string -> string -> string -> string ->
                              M sync_repo_contents.BranchResult)
         (req : Req) (env : Env) (Q : Request -> Prop) (r : Request),
    (forall owner repo branch token,
        issues_only env Q (createOrGetBranch owner repo branch token)) ->
    In r (issued (snd (sync_repo_contents.serve createOrGetBranch req env []))) ->
    Q r \/
    exists body input token username,
      req_json req = inr body /\
      sync_repo_contents.syncRepoSchema body = inr input /\
      signed_in env token username /\
      syncs input username token r.
Proof.
  intros cgb req env Q r Hcgb.
  pose (P := fun r : Request =>
               Q r \/
               exists body input token username,
                 req_json req = inr body /\
                 sync_repo_contents.syncRepoSchema body = inr input /\
                 signed_in env token username /\
                 syncs input username token r).
  apply (@issues_only_from_start env P _ (sync_repo_contents.serve cgb req) r).
  unfold sync_repo_contents.serve. io_enter Hb.
  destruct (sync_repo_contents.syncRepoSchema a) as [issues|input] eqn:Hs; [apply io_ret|].
  apply io_bind; [apply io_getGitHubToken|]. intros [p|] Hp; [|apply io_ret].
  apply returns_getGitHubToken in Hp. destruct Hp as (token & username & -> & S).
  cbn [github_username github_access_token the].
  assert (HP : forall r', syncs input username token r' -> P r')
    by (intros r' H; right; exists a, input, token, username; auto).
  apply io_bind.
  { apply io_try_catch; [|intros e; io_walk].
    unfold sync_repo_contents.validateRepo. io_walk; apply HP; unfold syncs; one_of_the_shapes. }
  intros [rejection|] _; [apply io_ret|].
  apply io_bind.
  { intros tr. destruct (Hcgb username (sync_repo_contents.destRepo input)
                           (sync_repo_contents.destBranch input) token tr) as (seg & E & F).
    exists seg. split; auto. eapply Forall_impl; [|exact F]. intros r' H. left. exact H. }
  intros branchResult _.
  unfold sync_repo_contents.report, sync_repo_contents.sync_files,
    sync_repo_contents.sync_file, sync_repo_contents.is_blob.
  io_walk; apply HP; unfold syncs; one_of_the_shapes.
Qed.

Lemma sync_repo_contents_requests_witness :
  False \/
  exists body input token username,
    req_json (Example.post Example.sync) = inr body /\
    sync_repo_contents.syncRepoSchema body = inr input /\
    signed_in (Example.env Example.granting) token username /\
    syncs input username token (sync_repo_contents.get_repo "bob" "gho_bob" "site").
Proof.
  apply (@sync_repo_contents_requests Example.branch_ready
           (Example.post Example.sync) (Example.env Example.granting) (fun _ => False)
           (sync_repo_contents.get_repo "bob" "gho_bob" "site")).
  - intros owner repo branch token. apply io_ret.
  - vm_compute. left. reflexivity.
Defined.

(** ** Renaming a file *)

(** The replies, one after the other: the next thing the run depends on is
    taken apart. *)
Ltac next_case :=
  match goal with
  | |- context [upstream ?env ?h ?r] =>
      let rep := fresh "rep" in
      let E := fresh "E" in
      destruct (upstream env h r) as [rep|] eqn:E
  | |- context [if negb (ok ?r) then _ else _] =>
      let Hok := fresh "Hok" in destruct (ok r) eqn:Hok
  | |- context [if ok ?r then _ else _] =>
      let Hok := fresh "Hok" in destruct (ok r) eqn:Hok
  | |- context [json_ ?r] =>
      let doc := fresh "doc" in
      let Hdoc := fresh "Hdoc" in
      unfold json_; destruct (json r) as [|doc] eqn:Hdoc
  | |- context [get ?v ?k] =>
      first [ is_var v; destruct v; cbn [get] | rewrite get_object | cbn [get] ]
  end; run.

(** A run that is over: the requests in its trace are looked at one by
    one. *)
Ltac no_such_request :=
  cbn [fst snd]; run; simpl;
  let Hin := fresh "Hin" in
  let Hm := fresh "Hm" in
  intros Hin Hm;
  repeat (destruct Hin as [<-|Hin]; [try discriminate Hm|]);
  try contradiction.

(** Extra X10.  In every run of rename-file, a [DELETE] is issued only when
    the write of the new path was answered with a status in 200-299: the
    request is the delete of the old path of the validated input, and the
    trace holds the successful reply to the write. *)
Theorem rename_file_deletes_only_after_write :
  forall (req : Req) (env : Env) (d : Request),
    In d (issued (snd (rename_file.serve req env []))) ->
    method d = "DELETE" ->
    exists input token content resp,
      d = rename_file.delete_request input token /\
      In (Await (rename_file.put_request input token content) (Settled resp))
         (snd (rename_file.serve req env [])) /\
      ok resp = true.
Proof.
  intros req env d. unfold rename_file.serve, req_body, parse.
  destruct (req_method req =? "OPTIONS"); [intros []|].
  destruct (req_json req) as [msg|body]; run; [intros []|].
  destruct (rename_file.renameFileSchema body) as [issues|input]; run; [intros []|].
  destruct (auth_user env) as [uid|]; run; [|intros []].
  match goal with |- context [token_of ?p] => set (profile := p) end.
  destruct (absent _); run; [intros []|].
  set (token := the (token_of profile)).
  repeat (next_case; try solve [no_such_request]);
    no_such_request;
    exists input, token; eexists _, _;
    (split; [reflexivity|]);
    (split; [repeat first [left; reflexivity | right] | assumption]).
Qed.

Lemma rename_file_deletes_only_after_write_witness :
  exists input token content resp,
    rename_file.delete_request Example.rename_input "gho_bob"
      = rename_file.delete_request input token /\
    In (Await (rename_file.put_request input token content) (Settled resp))
       (snd (rename_file.serve (Example.post Example.rename)
               (Example.env Example.granting) [])) /\
    ok resp = true.
Proof.
  apply (@rename_file_deletes_only_after_write (Example.post Example.rename)
           (Example.env Example.granting)
           (rename_file.delete_request Example.rename_input "gho_bob")).
  - vm_compute. right. right. left. reflexivity.
  - reflexivity.
Defined.
(** Extra X11.  rename-file does not look at the reply to the delete of the
    old path: when the read and the write succeed and the delete is answered
    at all, with any status, the response is the success response.  After a
    refused delete the file is at both paths. *)
Theorem rename_file_ignores_delete_status :
  forall (req : Req) (env : Env) (body : value) (input : rename_file.Input)
         (id token : string) (username : option string)
         (r1 r2 r3 : FetchResponse) (fields : list (string * value)),
    req_method req <> "OPTIONS" ->
    req_json req = inr body ->
    rename_file.renameFileSchema body = inr input ->
    auth_user env = Some id ->
    profiles env id = Some (mkProfile (Some token) username) ->
    token <> "" ->
    let read := rename_file.get_request input token in
    let write := rename_file.put_request input token (field "content" fields) in
    let delete := rename_file.delete_request input token in
    upstream env [] read = Settled r1 ->
    ok r1 = true ->
    json r1 = inr (VObj fields) ->
    upstream env [read] write = Settled r2 ->
    ok r2 = true ->
    upstream env [read; write] delete = Settled r3 ->
    rename_file.serve req env [] =
    (Ok (respond 200 (VObj [("success", VBool true)])),
     [AuthGetUser; ProfilesSelect ["github_access_token"] id]
       ++ call read (Settled r1) ++ call write (Settled r2) ++ call delete (Settled r3)).
Proof.
  intros req env body input id token username r1 r2 r3 fields
         Hm Hj Hs Hu Hp Ht read write delete H1 Hok1 Hdoc H2 Hok2 H3.
  apply String.eqb_neq in Hm, Ht.
  unfold rename_file.serve, req_body, parse. rewrite Hm, Hj. run. rewrite Hs. run.
  rewrite Hu. run. rewrite Hp. run. cbn [absent the]. rewrite Ht. run.
  fold read. rewrite H1. run. rewrite Hok1. run. unfold json_. rewrite Hdoc. run.
  fold write. rewrite H2. run. rewrite Hok2. run.
  fold delete. rewrite H3. run. reflexivity.
Qed.

Lemma rename_file_ignores_delete_status_witness :
  rename_file.serve (Example.post Example.rename) (Example.env Example.refusing_deletes) [] =
  (Ok (respond 200 (VObj [("success", VBool true)])),
   [AuthGetUser; ProfilesSelect ["github_access_token"] "user-1"]
     ++ call (rename_file.get_request Example.rename_input "gho_bob") (Settled Example.found)
     ++ call (rename_file.put_request Example.rename_input "gho_bob" (VStr "aGk="))
          (Settled Example.found)
     ++ call (rename_file.delete_request Example.rename_input "gho_bob")
          (Settled Example.unprocessable)).
Proof.
  apply (@rename_file_ignores_delete_status (Example.post Example.rename)
           (Example.env Example.refusing_deletes) Example.rename Example.rename_input
           "user-1" "gho_bob" (Some "bob") Example.found Example.found Example.unprocessable
           [("type", VStr "file"); ("content", VStr "aGk="); ("sha", VStr "abc")]);
    try reflexivity; discriminate.
Defined.
(** ** Moving files: what is skipped, and where a file lands *)

Lemma move_loop_all_skipped input token env fs : forall tr,
  (forall h f, exists r,
      upstream env h (move_files.get_request input token f) = Settled r /\ ok r = false) ->
  exists tr',
    for_of fs tt (fun f _ => move_files.move_one input token f) env tr = (Ok tt, tr') /\
    issued tr' = issued tr ++ map (move_files.get_request input token) fs.
Proof.
  induction fs as [|f fs IH]; intros tr H.
  - exists tr. simpl. rewrite app_nil_r. auto.
  - destruct (H (issued tr) f) as (r & E & Hok).
    rewrite (@move_loop_skips input token f fs env tr r E Hok).
    destruct (IH (tr ++ call (move_files.get_request input token f) (Settled r)) H)
      as (tr' & E' & I').
    exists tr'. split; [exact E'|]. rewrite I'. run. reflexivity.
Qed.

(** Extra X12.  When the read of every item is refused, move-files writes
    and deletes nothing (its only requests are the reads, one per item, in
    order) and still answers with the success response. *)
Theorem move_files_reports_success_when_nothing_moved :
  forall (req : Req) (env : Env) (body : value) (input : move_files.Input)
         (id token : string) (username : option string),
    req_method req <> "OPTIONS" ->
    req_json req = inr body ->
    move_files.moveFilesSchema body = inr input ->
    auth_user env = Some id ->
    profiles env id = Some (mkProfile (Some token) username) ->
    token <> "" ->
    (forall h f, exists r,
        upstream env h (move_files.get_request input token f) = Settled r /\ ok r = false) ->
    fst (move_files.serve req env []) = Ok (respond 200 (VObj [("success", VBool true)])) /\
    issued (snd (move_files.serve req env [])) =
      map (move_files.get_request input token) (move_files.files input).
Proof.
  intros req env body input id token username Hm Hj Hs Hu Hp Ht Hrefused.
  apply String.eqb_neq in Hm, Ht.
  unfold move_files.serve, req_body, parse. rewrite Hm, Hj. run. rewrite Hs. run.
  rewrite Hu. run. rewrite Hp. run. cbn [absent the]. rewrite Ht. run.
  destruct (@move_loop_all_skipped input token env (move_files.files input)
              [AuthGetUser; ProfilesSelect ["github_access_token"] id] Hrefused)
    as (tr' & E & I).
  rewrite E. run. cbn [fst snd]. split; [reflexivity|exact I].
Qed.

Lemma move_files_reports_success_when_nothing_moved_witness :
  fst (move_files.serve (Example.post (Example.move "bob"))
         (Example.env Example.refusing_reads) []) =
    Ok (respond 200 (VObj [("success", VBool true)])) /\
  issued (snd (move_files.serve (Example.post (Example.move "bob"))
                 (Example.env Example.refusing_reads) [])) =
    map (move_files.get_request (Example.move_input "bob") "gho_bob")
      (move_files.files (Example.move_input "bob")).
Proof.
  apply (@move_files_reports_success_when_nothing_moved
           (Example.post (Example.move "bob")) (Example.env Example.refusing_reads)
           (Example.move "bob") (Example.move_input "bob") "user-1" "gho_bob" (Some "bob"));
    try reflexivity; try discriminate.
  intros h f. exists Example.not_found. split; reflexivity.
Defined.
Lemma includes_slash c rest :
  includes (String c rest) "/" = Ascii.eqb "/" c || includes rest "/".
Proof. simpl. destruct rest; rewrite ?andb_true_r; reflexivity. Qed.

(** A string has no slash, or it is a directory part, a slash, and a last
    segment that has none. *)
Lemma last_slash s :
  includes s "/" = false \/
  exists d name, s = d +:+ "/" +:+ name /\ includes name "/" = false.
Proof.
  induction s as [|c rest IH]; [left; reflexivity|].
  destruct IH as [H|(d & name & -> & H)].
  - destruct (Ascii.eqb "/" c) eqn:E.
    + right. exists "", rest. apply Ascii.eqb_eq in E. subst c. auto.
    + left. rewrite includes_slash, E, H. reflexivity.
  - right. exists (String c d), name. auto.
Qed.

(** Extra X13.  Where move-files puts a file: under the destination, or at
    the root when the destination is empty, under the last segment of its
    old path only; the directories of the old path are not kept. *)
Theorem move_files_keeps_last_segment_only :
  forall (input : move_files.Input) (f : move_files.Item),
  exists name,
    includes name "/" = false /\
    (move_files.path f = name \/ exists d, move_files.path f = d +:+ "/" +:+ name) /\
    move_files.newPath input f =
      if String.eqb (move_files.destination input) "" then name
      else move_files.destination input +:+ "/" +:+ name.
Proof.
  intros input f. unfold move_files.newPath.
  destruct (last_slash (move_files.path f)) as [H|(d & name & E & H)].
  - exists (move_files.path f). rewrite (@split_slash_name _ H). cbn [pop last].
    repeat split; auto. destruct (_ =? ""); reflexivity.
  - exists name. rewrite E, (@basename _ _ H).
    repeat split; eauto. destruct (_ =? ""); reflexivity.
Qed.

(** Extra X14.  A file moved to the directory it is already in is written
    to and then deleted at the same path: the [PUT] and the [DELETE] that
    move-files makes for it have the same URL. *)
Theorem move_files_same_directory_hits_one_path :
  forall (input : move_files.Input) (token : string) (f : move_files.Item)
         (name : string) (content : value),
    includes name "/" = false ->
    (move_files.destination input <> "" /\
     move_files.path f = move_files.destination input +:+ "/" +:+ name) \/
    (move_files.destination input = "" /\ move_files.path f = name) ->
    move_files.newPath input f = move_files.path f /\
    url (move_files.put_request input token f content) =
    url (move_files.delete_request input token f).
Proof.
  intros input token f name content H Hsame.
  assert (E : move_files.newPath input f = move_files.path f).
  { unfold move_files.newPath. destruct Hsame as [[Hd Hp]|[Hd Hp]].
    - apply String.eqb_neq in Hd. rewrite Hd, Hp, (@basename _ _ H). reflexivity.
    - rewrite Hd, Hp, (@split_slash_name _ H). reflexivity. }
  split; [exact E|]. unfold move_files.put_request, move_files.delete_request.
  cbn [url]. now rewrite E.
Qed.

Lemma move_files_same_directory_hits_one_path_witness :
  move_files.newPath (move_files.mkInput "bob" "site" [] "x" "main")
    (move_files.mkItem "x/old.txt" "abc" file) = "x/old.txt" /\
  url (move_files.put_request (move_files.mkInput "bob" "site" [] "x" "main") "gho_bob"
         (move_files.mkItem "x/old.txt" "abc" file) (VStr "aGk=")) =
  url (move_files.delete_request (move_files.mkInput "bob" "site" [] "x" "main") "gho_bob"
         (move_files.mkItem "x/old.txt" "abc" file)).
Proof.
  apply (@move_files_same_directory_hits_one_path
           (move_files.mkInput "bob" "site" [] "x" "main") "gho_bob"
           (move_files.mkItem "x/old.txt" "abc" file) "old.txt" (VStr "aGk=")).
  - reflexivity.
  - left. split; [discriminate|reflexivity].
Defined.
(** ** Deleting a directory: what a success means *)

Lemma get_cases v k env tr :
  (exists e, get v k env tr = (Throw e, tr)) \/ get v k env tr = (Ok (prop_ v k), tr).
Proof. destruct v; simpl; unfold throw, ret; eauto. Qed.

Section Silent.

Variables A B : Type.

Lemma silent_ret (a : A) : silent (ret a).
Proof. intros env tr. reflexivity. Qed.

Lemma silent_throw e : silent (@throw A e).
Proof. intros env tr. reflexivity. Qed.

Lemma silent_bind (c : M A) (k : A -> M B) :
  silent c -> (forall a, silent (k a)) -> silent (bind c k).
Proof.
  intros Hc Hk env tr. unfold bind. specialize (Hc env tr).
  destruct (c env tr) as [[a|e] tr']; simpl in Hc; subst tr'; [apply Hk|reflexivity].
Qed.

Lemma silent_if (b : bool) (c1 c2 : M A) : silent c1 -> silent c2 -> silent (if b then c1 else c2).
Proof. destruct b; auto. Qed.

End Silent.

Lemma silent_get v k : silent (get v k).
Proof. destruct v; intros env tr; reflexivity. Qed.

Lemma silent_startsWith_ v what p : silent (startsWith_ v what p).
Proof. destruct v; intros env tr; reflexivity. Qed.

Lemma silent_filter_receiver v what : silent (filter_receiver v what).
Proof. destruct v; intros env tr; reflexivity. Qed.

Lemma silent_filterM {A} (p : A -> M bool) xs : (forall x, silent (p x)) -> silent (filterM p xs).
Proof.
  intros Hp. induction xs as [|x xs IH]; simpl; [apply silent_ret|].
  apply silent_bind; auto. intros keep. apply silent_bind; auto. intros kept. apply silent_ret.
Qed.

Lemma silent_mapM {A B} (f : A -> M B) xs : (forall x, silent (f x)) -> silent (mapM f xs).
Proof.
  intros Hf. induction xs as [|x xs IH]; simpl; [apply silent_ret|].
  apply silent_bind; auto. intros y. apply silent_bind; auto. intros ys. apply silent_ret.
Qed.

(** The new tree is computed without a call. *)
Lemma silent_newTree p treeData : silent (delete_file.newTree p treeData).
Proof.
  unfold delete_file.newTree, delete_file.keeps, delete_file.entry.
  repeat first [ apply silent_ret | apply silent_get | apply silent_startsWith_
               | apply silent_filter_receiver | apply silent_if
               | apply silent_filterM; intros ? | apply silent_mapM; intros ?
               | apply silent_bind; [|intros ?] ].
Qed.

Lemma not_ok_status r : ok r = false -> status r <> 200%Z.
Proof. unfold ok. intros H E. rewrite E in H. discriminate. Qed.
Ltac next_step :=
  match goal with
  | |- context [upstream ?env ?h ?r] =>
      let rep := fresh "rep" in
      let E := fresh "E" in
      destruct (upstream env h r) as [rep|] eqn:E
  | |- context [if negb (ok ?r) then _ else _] =>
      let Hok := fresh "Hok" in destruct (ok r) eqn:Hok
  | |- context [match json ?r with inl _ => _ | inr _ => _ end] =>
      let doc := fresh "doc" in
      let Hdoc := fresh "Hdoc" in
      destruct (json r) as [|doc] eqn:Hdoc
  | |- context [get ?v ?k ?env ?tr] =>
      let e := fresh "e" in
      destruct (get_cases v k env tr) as [(e & ->)| ->]
  | |- context [delete_file.newTree ?p ?td ?env ?tr] =>
      let entries := fresh "entries" in
      let tr' := fresh "tr'" in
      let N := fresh "N" in
      let S := fresh "S" in
      pose proof (silent_newTree p td env tr) as S;
      destruct (delete_file.newTree p td env tr) as [[entries|] tr'] eqn:N;
      simpl in S; subst tr'
  end; run.

(** A run that ended in a throw or in a refusal is not a success. *)
Ltac not_a_success :=
  cbn [fst snd];
  let H1 := fresh "H" in
  let H2 := fresh "H" in
  intros H1 H2; try discriminate H1;
  inversion H1; subst; simpl in H2;
  match goal with Hok : ok ?r = false |- _ => apply not_ok_status in Hok; contradiction end.

Lemma delete_dir_success input token env tr resp :
  fst (delete_file.delete_dir input token env tr) = Ok resp ->
  res_status resp = 200%Z ->
  exists treeSha tip r5 commitDoc r6,
    In (Await (delete_file.post_commit input token treeSha tip) (Settled r5))
       (snd (delete_file.delete_dir input token env tr)) /\
    ok r5 = true /\ json r5 = inr commitDoc /\
    In (Await (delete_file.patch_ref input token (prop_ commitDoc "sha")) (Settled r6))
       (snd (delete_file.delete_dir input token env tr)) /\
    ok r6 = true.
Proof.
  unfold delete_file.delete_dir, delete_file.failed, delete_file.success, json_. run.
  repeat (next_step; try solve [not_a_success]).
  intros _ _. cbn [snd]. do 5 eexists.
  split; [apply in_or_app; right; simpl; repeat first [left; reflexivity | right]|].
  split; [eassumption|]. split; [eassumption|].
  split; [apply in_or_app; right; simpl; repeat first [left; reflexivity | right]|].
  assumption.
Qed.
Lemma getGitHubToken_run env tr :
  exists profile seg,
    getGitHubToken env tr = (Ok profile, tr ++ seg) /\ issued seg = [].
Proof.
  unfold getGitHubToken. run. destruct (auth_user env) as [uid|]; run.
  - match goal with |- context [if ?c then _ else _] => destruct c end; run;
      eexists _, _; split; reflexivity.
  - eexists _, _; split; reflexivity.
Qed.

(** Extra X15.  delete-file answers a directory deletion with status 200
    only when the branch was moved: the trace then holds a successful reply
    to the creation of a commit and a successful reply to the [PATCH] that
    sets the branch to the [sha] of that reply's document. *)
Theorem delete_file_success_means_branch_moved :
  forall (req : Req) (env : Env) (body : value) (input : delete_file.Input)
         (resp : Response),
    req_method req <> "OPTIONS" ->
    req_json req = inr body ->
    delete_file.deleteFileSchema body = inr input ->
    delete_file.type input = Some dir ->
    fst (delete_file.serve req env []) = Ok resp ->
    res_status resp = 200%Z ->
    exists token treeSha tip r5 commitDoc r6,
      In (Await (delete_file.post_commit input token treeSha tip) (Settled r5))
         (snd (delete_file.serve req env [])) /\
      ok r5 = true /\ json r5 = inr commitDoc /\
      In (Await (delete_file.patch_ref input token (prop_ commitDoc "sha")) (Settled r6))
         (snd (delete_file.serve req env [])) /\
      ok r6 = true.
Proof.
  intros req env body input resp Hm Hj Hs Hty. apply String.eqb_neq in Hm.
  unfold delete_file.serve, req_body. rewrite Hm, Hj. run. rewrite Hs. run.
  destruct (getGitHubToken_run env []) as (profile & seg & -> & _). cbn [app].
  destruct profile as [p|]; run; [|intros H; inversion H; subst; discriminate].
  destruct (differs _ _); run; [intros H; inversion H; subst; discriminate|].
  rewrite Hty. set (token := the (github_access_token p)).
  pose proof (@delete_dir_success input token env seg) as D.
  destruct (delete_file.delete_dir input token env seg) as [[a|e] tr'].
  - cbn [fst snd] in *. intros H1 H2. exists token. eapply D; eauto.
  - run. cbn [fst snd]. intros H; inversion H; subst; discriminate.
Qed.

Lemma delete_file_success_means_branch_moved_witness :
  exists token treeSha tip r5 commitDoc r6,
    In (Await (delete_file.post_commit (Example.delete_dir_input "a") token treeSha tip)
          (Settled r5))
       (snd (delete_file.serve (Example.post (Example.delete_dir "a"))
               (Example.env Example.git) [])) /\
    ok r5 = true /\ json r5 = inr commitDoc /\
    In (Await (delete_file.patch_ref (Example.delete_dir_input "a") token
                 (prop_ commitDoc "sha")) (Settled r6))
       (snd (delete_file.serve (Example.post (Example.delete_dir "a"))
               (Example.env Example.git) [])) /\
    ok r6 = true.
Proof.
  apply (@delete_file_success_means_branch_moved (Example.post (Example.delete_dir "a"))
           (Example.env Example.git) (Example.delete_dir "a") (Example.delete_dir_input "a")
           (respond 200 (VObj [("success", VBool true)])));
    try reflexivity; discriminate.
Defined.
(** ** create-file and update-repo: what is passed on *)

(** Extra X16.  When the bytes of the content can be passed in one call,
    create-file answers every upstream 422 with the fixed error
    [File already exists], whatever the upstream said was wrong with the
    request; the upstream text is not passed on. *)
Theorem create_file_reports_every_422_as_existing_file :
  forall (max_arguments : Z) (req : Req) (env : Env) (body : value)
         (input : create_file.Input) (id token username : string) (r : FetchResponse),
    req_method req <> "OPTIONS" ->
    req_json req = inr body ->
    create_file.createFileSchema body = inr input ->
    auth_user env = Some id ->
    profiles env id = Some (mkProfile (Some token) (Some username)) ->
    token <> "" -> username <> "" ->
    create_file.owner input = username ->
    spreads max_arguments (create_file.content input) ->
    let write := create_file.put input token (encoded (create_file.content input)) in
    upstream env [] write = Settled r ->
    status r = 422%Z ->
    create_file.serve max_arguments req env [] =
    (Ok (respond 422 (VObj [("error", VStr "File already exists")])),
     [AuthGetUser; ProfilesSelect ["github_access_token"; "github_username"] id]
       ++ call write (Settled r)).
Proof.
  intros n req env body input id token username r Hm Hj Hs Hu Hp Ht Hn Ho Hfit write Hr H422.
  apply String.eqb_neq in Hm, Ht, Hn.
  unfold create_file.serve, req_body. rewrite Hm, Hj. run. rewrite Hs. run.
  rewrite Hu. run. rewrite Hp. run. cbn [absent the]. rewrite Ht, Hn. cbn [orb differs].
  rewrite Ho, String.eqb_refl. cbn [negb]. run.
  rewrite (@base64Content_run _ _ env _ Hfit). run. fold write. rewrite Hr. run.
  unfold ok. rewrite H422. reflexivity.
Qed.

Lemma create_file_reports_every_422_as_existing_file_witness :
  create_file.serve 65536 (Example.post Example.create)
    (Example.env Example.refusing_writes) [] =
  (Ok (respond 422 (VObj [("error", VStr "File already exists")])),
   [AuthGetUser; ProfilesSelect ["github_access_token"; "github_username"] "user-1"]
     ++ call (create_file.put Example.create_input "gho_bob" "aGk=")
          (Settled Example.unprocessable)).
Proof.
  apply (@create_file_reports_every_422_as_existing_file 65536 (Example.post Example.create)
           (Example.env Example.refusing_writes) Example.create Example.create_input
           "user-1" "gho_bob" "bob" Example.unprocessable);
    try reflexivity; discriminate.
Defined.

(** Extra X32.  When the content has more bytes than one call takes, which
    the schema does not exclude, the spread of the bytes throws: create-file
    answers 500 with the engine's text, and no request is sent. *)
Theorem create_file_large_content_is_500 :
  forall (max_arguments : Z) (req : Req) (env : Env) (body : value)
         (input : create_file.Input) (id token username : string),
    req_method req <> "OPTIONS" ->
    req_json req = inr body ->
    create_file.createFileSchema body = inr input ->
    auth_user env = Some id ->
    profiles env id = Some (mkProfile (Some token) (Some username)) ->
    token <> "" -> username <> "" ->
    create_file.owner input = username ->
    ~ spreads max_arguments (create_file.content input) ->
    create_file.serve max_arguments req env [] =
    (Ok (respond 500 (VObj [("error", VStr "Maximum call stack size exceeded")])),
     [AuthGetUser; ProfilesSelect ["github_access_token"; "github_username"] id]).
Proof.
  intros n req env body input id token username Hm Hj Hs Hu Hp Ht Hn Ho Hfit.
  apply String.eqb_neq in Hm, Ht, Hn.
  unfold create_file.serve, req_body. rewrite Hm, Hj. run. rewrite Hs. run.
  rewrite Hu. run. rewrite Hp. run. cbn [absent the]. rewrite Ht, Hn. cbn [orb differs].
  rewrite Ho, String.eqb_refl. cbn [negb]. run.
  rewrite (@base64Content_throws _ _ env _ Hfit). run. reflexivity.
Qed.

Lemma create_file_large_content_is_500_witness :
  create_file.serve 1 (Example.post Example.create) (Example.env Example.granting) [] =
  (Ok (respond 500 (VObj [("error", VStr "Maximum call stack size exceeded")])),
   [AuthGetUser; ProfilesSelect ["github_access_token"; "github_username"] "user-1"]).
Proof.
  apply (@create_file_large_content_is_500 1 (Example.post Example.create)
           (Example.env Example.granting) Example.create Example.create_input
           "user-1" "gho_bob" "bob");
    try reflexivity; try discriminate.
  unfold spreads. simpl. lia.
Defined.

Lemma optional_string_field k checks fields o :
  z.prop_of k (z.optional (z.string checks)) fields = inr o ->
  match o with
  | Some s => field k fields = VStr s
  | None => field k fields = VUndef
  end.
Proof.
  intros H. apply at_seg_inr, optional_sound in H.
  destruct H as [[H ->]|(_ & s & -> & H)]; [exact H|].
  apply string_sound in H. tauto.
Qed.

Lemma optional_boolean_field k fields o :
  z.prop_of k (z.optional z.boolean) fields = inr o ->
  match o with
  | Some b => field k fields = VBool b
  | None => field k fields = VUndef
  end.
Proof.
  intros H. apply at_seg_inr, optional_sound in H.
  destruct H as [[H ->]|(_ & b & -> & H)]; [exact H|].
  unfold z.boolean in H. destruct (field k fields); try discriminate. now inversion H.
Qed.

Lemma updateData_fields fields input token k v :
  update_repo.updateRepoSchema (VObj fields) = inr input ->
  body_field k (update_repo.patch input token) = Some v ->
  In k ["description"; "homepage"; "private"] /\ field k fields = v.
Proof.
  unfold update_repo.updateRepoSchema, z.object. intros H. split_schema.
  inversion H; subst; clear H.
  repeat match goal with
         | E : z.prop_of _ (z.optional (z.string _)) _ = inr _ |- _ =>
             apply optional_string_field in E
         | E : z.prop_of _ (z.optional z.boolean) _ = inr _ |- _ =>
             apply optional_boolean_field in E
         end.
  unfold body_field, update_repo.patch, update_repo.updateData. cbn [body].
  cbn [update_repo.description update_repo.homepage update_repo.isPrivate].
  repeat match goal with
         | o : option _ |- _ => destruct o
         end; cbn [app JSON_stringify lookup];
    repeat match goal with
           | |- context [k =? ?s] => destruct (String.eqb_spec k s); [subst k|]
           end;
    intros Hv; inversion Hv; subst; split; simpl; auto; congruence.
Qed.

(** Extra X17.  update-repo sends the upstream nothing but [description],
    [homepage] and [private], each with the value the inbound body has for
    it: every field of the document of a request it issues is one of the
    three and is equal to the inbound field of that name.  What else the
    inbound body holds is dropped. *)
Theorem update_repo_forwards_three_fields_only :
  forall (req : Req) (env : Env) (r : Request) (k : string) (v : value),
    In r (issued (snd (update_repo.serve req env []))) ->
    body_field k r = Some v ->
    In k ["description"; "homepage"; "private"] /\
    exists fields, req_json req = inr (VObj fields) /\ field k fields = v.
Proof.
  intros req env r k v Hin. revert k v.
  pose (P := fun r : Request =>
               forall k v, body_field k r = Some v ->
                           In k ["description"; "homepage"; "private"] /\
                           exists fields, req_json req = inr (VObj fields) /\
                                          field k fields = v).
  change (P r). revert Hin.
  apply (@issues_only_from_start env P _ (update_repo.serve req) r).
  unfold update_repo.serve. io_enter Hb.
  apply io_bind; [apply io_parse|]. intros input Hs%returns_parse.
  apply io_bind; [apply io_getUser|]. intros [uid|] _; [|apply io_ret].
  io_walk. intros k v Hv.
  destruct a as [| | | | | |fields]; try discriminate Hs.
  destruct (updateData_fields _ _ _ Hs Hv) as [Hk Hf]. split; [exact Hk|].
  exists fields. auto.
Qed.

Lemma update_repo_forwards_three_fields_only_witness :
  In "description" ["description"; "homepage"; "private"] /\
  exists fields,
    req_json (Example.post Example.update_doc) = inr (VObj fields) /\
    field "description" fields = VStr "My site".
Proof.
  apply (@update_repo_forwards_three_fields_only (Example.post Example.update_doc)
           (Example.env Example.granting)
           (update_repo.patch Example.update_input "gho_bob") "description" (VStr "My site")).
  - vm_compute. left. reflexivity.
  - reflexivity.
Defined.
(** ** The dialogs and the handlers they call *)

(** Extra X18.  The settings dialog asks get-repo-branches for the branches
    with a body that names [owner] and [repo]; the handler reads
    [repositoryName] only, so it answers every such call with status 400 and
    the detail [repositoryName: Required], before any lookup or call. *)
Theorem settings_dialog_branch_query_is_rejected :
  forall (full_name : string) (env : Env),
    get_repo_branches.serve (invoke (RepositorySettingsDialog.fetchBranches_body full_name))
      env [] =
    (Ok (mkResponse 400
           [("Access-Control-Allow-Origin", "*");
            ("Access-Control-Allow-Headers",
             "authorization, x-client-info, apikey, content-type");
            ("Content-Type", "application/json")]
           (Some (VObj [("error", VStr "Invalid input");
                        ("details", VArr [VStr "repositoryName: Required"])]))),
     []).
Proof.
  intros full_name env.
  unfold RepositorySettingsDialog.fetchBranches_body, segment.
  destruct (nth_error (split_slash full_name) 0), (nth_error (split_slash full_name) 1);
    reflexivity.
Qed.

Lemma string_accepts checks s :
  Forall (fun c : z.StrCheck => c s = None) checks -> z.string checks (VStr s) = inr s.
Proof.
  intros H. unfold z.string. replace (z.run_checks checks s) with (@nil z.ZodIssue); auto.
  unfold z.run_checks. induction H as [|c checks Hc H IH]; simpl; auto.
  rewrite Hc. exact IH.
Qed.

Lemma min1_accepts s : s <> "" -> z.min 1 s = None.
Proof. destruct s; [congruence|]. intros _. unfold z.min. simpl String.length.
  destruct (Z.ltb_spec (Z.of_nat (S (String.length s))) 1); [lia|reflexivity]. Qed.

Lemma max_accepts n s : (Z.of_nat (String.length s) <= n)%Z -> z.max n s = None.
Proof. intros H. unfold z.max. destruct (Z.ltb_spec n (Z.of_nat (String.length s))); [lia|reflexivity]. Qed.

(** Extra X19.  What the settings dialog saves: of the body it sends to
    update-repo, only the description, the homepage and the visibility reach
    the upstream; the default branch and the topics it also sends are in no
    request.  The one request issued is the [PATCH] of the repository with
    exactly those three fields. *)
Theorem settings_dialog_saves_three_fields_only :
  forall (full_name owner repoName : string) (rest : list string)
         (repo_default_branch : option string)
         (data : RepositorySettingsDialog.RepoSettingsForm) (topicsArray : list string)
         (env : Env) (id token : string),
    split_slash full_name = owner :: repoName :: rest ->
    owner <> "" -> repoName <> "" ->
    let description := or_else (RepositorySettingsDialog.description data) "" in
    let homepage := or_else (RepositorySettingsDialog.homepage data) "" in
    (Z.of_nat (String.length description) <= 350)%Z ->
    (Z.of_nat (String.length homepage) <= 255)%Z ->
    auth_user env = Some id ->
    profiles env id = Some (mkProfile (Some token) (Some owner)) ->
    token <> "" ->
    issued (snd (update_repo.serve
                   (invoke (RepositorySettingsDialog.onSubmit_body full_name
                              repo_default_branch data topicsArray))
                   env [])) =
    [mkRequest "PATCH" (api +:+ "/repos/" +:+ owner +:+ "/" +:+ repoName)
       [bearer token;
        ("Accept", "application/vnd.github.v3+json");
        ("Content-Type", "application/json");
        ("User-Agent", "RepoPush")]
       (Some (VObj [("description", VStr description);
                    ("homepage", VStr homepage);
                    ("private", VBool (RepositorySettingsDialog.private_ data))]))].
Proof.
  intros full_name owner repoName rest rdb data topicsArray env id token
         Hsplit Ho Hr description homepage Hd Hh Hu Hp Ht.
  assert (Hs : update_repo.updateRepoSchema
                 (JSON_stringify (RepositorySettingsDialog.onSubmit_body full_name rdb data
                                    topicsArray)) =
               inr (update_repo.mkInput owner repoName (Some description) (Some homepage)
                      (Some (RepositorySettingsDialog.private_ data)))).
  { unfold RepositorySettingsDialog.onSubmit_body, segment. rewrite Hsplit.
    cbn [nth_error]. fold description homepage.
    unfold update_repo.updateRepoSchema, z.object.
    destruct (or_value _ _); cbn [JSON_stringify];
      unfold z.prop_of; cbn [field lookup String.eqb Ascii.eqb Bool.eqb];
      cbn [z.optional z.boolean];
      rewrite !string_accepts
        by (repeat constructor; auto using min1_accepts, max_accepts);
      reflexivity. }
  apply String.eqb_neq in Ht. pose proof Ho as Ho'. apply String.eqb_neq in Ho'.
  unfold update_repo.serve, invoke, req_body, parse. cbn [req_method req_json String.eqb Ascii.eqb Bool.eqb].
  run. rewrite Hs. run. rewrite Hu. run. rewrite Hp. run.
  cbn [absent the orb update_repo.owner differs]. rewrite Ht, String.eqb_refl. cbn [negb orb]. run.
  destruct (upstream env [] _) as [r|m]; run; [destruct (ok r); run; [unfold json_; destruct (json r); run|]|];
    reflexivity.
Qed.

Lemma settings_dialog_saves_three_fields_only_witness :
  issued (snd (update_repo.serve
                 (invoke (RepositorySettingsDialog.onSubmit_body "bob/site" (Some "main")
                            (RepositorySettingsDialog.mkForm (Some "My site") None true
                               (Some "dev") (Some "web, blog"))
                            ["web"; "blog"]))
                 (Example.env Example.granting) [])) =
  [mkRequest "PATCH" (api +:+ "/repos/" +:+ "bob" +:+ "/" +:+ "site")
     [bearer "gho_bob";
      ("Accept", "application/vnd.github.v3+json");
      ("Content-Type", "application/json");
      ("User-Agent", "RepoPush")]
     (Some (VObj [("description", VStr "My site");
                  ("homepage", VStr "");
                  ("private", VBool true)]))].
Proof.
  apply (@settings_dialog_saves_three_fields_only "bob/site" "bob" "site" [] (Some "main")
           (RepositorySettingsDialog.mkForm (Some "My site") None true
              (Some "dev") (Some "web, blog"))
           ["web"; "blog"] (Example.env Example.granting) "user-1" "gho_bob");
    try reflexivity; try discriminate; simpl; lia.
Defined.

(** Extra X20.  A rename typed into the rename dialog reaches rename-file
    unchecked: for every new name that is not empty and is not the old name,
    the body the dialog sends passes the handler's schema with [new_path]
    the current directory, a slash and the name as typed (or the name alone
    at the root), and that is the path in the URL the handler writes to. *)
Theorem rename_dialog_name_reaches_the_url :
  forall (file_ : RenameItemDialog.FileItem)
         (owner repo branch currentPath newName token : string) (content : value),
    newName <> "" ->
    newName <> RenameItemDialog.name file_ ->
    owner <> "" -> repo <> "" -> RenameItemDialog.sha file_ <> "" ->
    exists body input,
      RenameItemDialog.handleRename file_ owner repo branch currentPath newName = Some body /\
      req_json (invoke body) = inr (JSON_stringify body) /\
      rename_file.renameFileSchema (JSON_stringify body) = inr input /\
      rename_file.new_path input =
        (if String.eqb currentPath "" then newName else currentPath +:+ "/" +:+ newName) /\
      url (rename_file.put_request input token content) =
        api +:+ "/repos/" +:+ owner +:+ "/" +:+ repo +:+ "/contents/"
        +:+ (if String.eqb currentPath "" then newName else currentPath +:+ "/" +:+ newName).
Proof.
  intros file_ owner repo branch currentPath newName token content Hn Hold Ho Hr Hs.
  apply String.eqb_neq in Hn, Hold.
  unfold RenameItemDialog.handleRename, RenameItemDialog.newPath. rewrite Hn, Hold. cbn [orb].
  eexists. exists (rename_file.mkInput owner repo (RenameItemDialog.path file_)
                     (if String.eqb currentPath "" then newName
                      else currentPath +:+ "/" +:+ newName)
                     (RenameItemDialog.sha file_) branch).
  split; [reflexivity|]. split; [reflexivity|]. split; [|split].
  - cbn [JSON_stringify]. unfold rename_file.renameFileSchema, z.object, z.prop_of, z.default.
    cbn [field lookup String.eqb Ascii.eqb Bool.eqb].
    rewrite !string_accepts by (repeat constructor; auto using min1_accepts).
    cbn [z.at_seg]. destruct (currentPath =? ""); reflexivity.
  - reflexivity.
  - reflexivity.
Qed.

Lemma rename_dialog_name_reaches_the_url_witness :
  exists body input,
    RenameItemDialog.handleRename (RenameItemDialog.mkFileItem "old.txt" "x/old.txt" "abc" file)
      "bob" "site" "main" "x" "../../alice/site/contents/new.txt" = Some body /\
    req_json (invoke body) = inr (JSON_stringify body) /\
    rename_file.renameFileSchema (JSON_stringify body) = inr input /\
    rename_file.new_path input =
      (if String.eqb "x" "" then "../../alice/site/contents/new.txt"
       else "x" +:+ "/" +:+ "../../alice/site/contents/new.txt") /\
    url (rename_file.put_request input "gho_bob" (VStr "aGk=")) =
      api +:+ "/repos/" +:+ "bob" +:+ "/" +:+ "site" +:+ "/contents/"
      +:+ (if String.eqb "x" "" then "../../alice/site/contents/new.txt"
           else "x" +:+ "/" +:+ "../../alice/site/contents/new.txt").
Proof.
  apply (@rename_dialog_name_reaches_the_url
           (RenameItemDialog.mkFileItem "old.txt" "x/old.txt" "abc" file)
           "bob" "site" "main" "x" "../../alice/site/contents/new.txt" "gho_bob" (VStr "aGk="));
    discriminate.
Defined.
(** ** Listing branches *)

Lemma strict_eq_str_true v s : strict_eq_str v s = true -> v = VStr s.
Proof. destruct v; simpl; try discriminate. intros H. apply String.eqb_eq in H. now subst. Qed.

(** Extra X21.  get-repo-branches issues a second request only after the
    upstream confirmed the repository: the first request is the check of the
    repository under the caller's account, it was answered with a status in
    200-299 and a document whose [owner.login] is that account, and the
    second request is the listing of the branches of the same repository. *)
Theorem get_repo_branches_lists_after_confirmation :
  forall (req : Req) (env : Env) (r1 r2 : Request) (rest : list Request),
    issued (snd (get_repo_branches.serve req env [])) = r1 :: r2 :: rest ->
    exists input username token rep doc,
      r1 = get_repo_branches.get_repo input username token /\
      r2 = get_repo_branches.get_branches input username token /\
      rest = [] /\
      In (Await r1 (Settled rep)) (snd (get_repo_branches.serve req env [])) /\
      ok rep = true /\
      json rep = inr doc /\
      prop_ (prop_ doc "owner") "login" = VStr username.
Proof.
  intros req env r1 r2 rest. unfold get_repo_branches.serve, req_body, json_.
  destruct (req_method req =? "OPTIONS"); [discriminate|].
  destruct (req_json req) as [msg|body]; run; [discriminate|].
  destruct (get_repo_branches.getBranchesSchema body) as [issues|input]; run; [discriminate|].
  destruct (auth_user env) as [uid|]; run; [|discriminate].
  match goal with |- context [token_of ?p] => set (profile := p) end.
  destruct (absent _ || absent _); run; [discriminate|].
  set (token := the (token_of profile)). set (username := the (username_of profile)).
  repeat (next_step; try discriminate).
  destruct (strict_eq_str _ _) eqn:L; cbn [negb]; run; [|discriminate].
  apply strict_eq_str_true in L.
  repeat (next_step; try discriminate);
    cbn [fst snd]; run; simpl; intros H; inversion H;
    exists input, username, token; eexists _, _; repeat split; eauto;
    repeat first [left; reflexivity | right].
Qed.

Lemma get_repo_branches_lists_after_confirmation_witness :
  exists input username token rep doc,
    get_repo_branches.get_repo Example.branches_input "bob" "gho_bob"
      = get_repo_branches.get_repo input username token /\
    get_repo_branches.get_branches Example.branches_input "bob" "gho_bob"
      = get_repo_branches.get_branches input username token /\
    @nil Request = [] /\
    In (Await (get_repo_branches.get_repo Example.branches_input "bob" "gho_bob") (Settled rep))
       (snd (get_repo_branches.serve (Example.post Example.branches_query)
               (Example.env Example.confirming) [])) /\
    ok rep = true /\
    json rep = inr doc /\
    prop_ (prop_ doc "owner") "login" = VStr username.
Proof.
  apply (@get_repo_branches_lists_after_confirmation (Example.post Example.branches_query)
           (Example.env Example.confirming)
           (get_repo_branches.get_repo Example.branches_input "bob" "gho_bob")
           (get_repo_branches.get_branches Example.branches_input "bob" "gho_bob") []).
  reflexivity.
Defined.
(** ** Opening a pull request *)

(** Extra X22.  When the upstream refuses a pull request with status 422
    and its document lists errors, create-pull-request answers 422 with the
    message of the first error as the error text, as the upstream wrote
    it. *)
Theorem create_pull_request_passes_first_error_on :
  forall (input : create_pull_request.Input) (owner token : string)
         (env : Env) (tr : Trace) (r : FetchResponse) (m : value),
    upstream env (issued tr) (create_pull_request.post_pull input owner token) = Settled r ->
    status r = 422%Z ->
    first_message r = Some m ->
    create_pull_request.open_pull input owner token env tr =
    (Ok (respond 422 (VObj [("error", m)])),
     tr ++ call (create_pull_request.post_pull input owner token) (Settled r)).
Proof.
  intros input owner token env tr r m Hr H422 Hm.
  unfold create_pull_request.open_pull. run. rewrite Hr. run.
  unfold ok. rewrite H422. cbn [Z.leb Z.compare Pos.compare Pos.compare_cont andb negb Z.eqb Pos.eqb].
  run. unfold create_pull_request.errorDetail, json_. run.
  unfold first_message in Hm.
  destruct (json r) as [|[| | | | | |fields]]; try discriminate Hm. run.
  destruct (field "errors" fields) as [| | | | |[|[| | | | | |entry] more]|];
    try discriminate Hm.
  cbn [truthy create_pull_request.first_ hd]. run. cbn [get_opt get]. run.
  destruct (truthy (field "message" entry)); [|discriminate Hm].
  inversion Hm; subst. run. reflexivity.
Qed.

Lemma create_pull_request_passes_first_error_on_witness :
  create_pull_request.open_pull Example.pull_input "bob" "gho_bob"
    (Example.env (fun _ _ => Settled Example.pull_exists)) [] =
  (Ok (respond 422
         (VObj [("error", VStr "A pull request already exists for bob:dev.")])),
   [] ++ call (create_pull_request.post_pull Example.pull_input "bob" "gho_bob")
           (Settled Example.pull_exists)).
Proof.
  apply (@create_pull_request_passes_first_error_on Example.pull_input "bob" "gho_bob"
           (Example.env (fun _ _ => Settled Example.pull_exists)) [] Example.pull_exists
           (VStr "A pull request already exists for bob:dev.")); reflexivity.
Defined.

(** Extra X23.  When the refusal with status 422 has a body that is not
    JSON, or a document without [errors], create-pull-request answers 422
    with the fixed text [No changes to merge between these branches]; the
    failure to read the body is not an error of the handler. *)
Theorem create_pull_request_defaults_the_422_text :
  forall (input : create_pull_request.Input) (owner token : string)
         (env : Env) (tr : Trace) (r : FetchResponse),
    upstream env (issued tr) (create_pull_request.post_pull input owner token) = Settled r ->
    status r = 422%Z ->
    match json r with
    | inl _ => True
    | inr doc => truthy (prop_ doc "errors") = false
    end ->
    create_pull_request.open_pull input owner token env tr =
    (Ok (respond 422 (VObj [("error", VStr "No changes to merge between these branches")])),
     tr ++ call (create_pull_request.post_pull input owner token) (Settled r)).
Proof.
  intros input owner token env tr r Hr H422 Hdoc.
  unfold create_pull_request.open_pull. run. rewrite Hr. run.
  unfold ok. rewrite H422. cbn [Z.leb Z.compare Pos.compare Pos.compare_cont andb negb Z.eqb Pos.eqb].
  run. unfold create_pull_request.errorDetail, json_. run.
  destruct (json r) as [msg|doc]; run; [reflexivity|].
  destruct (get_cases doc "errors" env
              (tr ++ call (create_pull_request.post_pull input owner token) (Settled r)))
    as [(e & ->)| ->]; run; [reflexivity|].
  rewrite Hdoc. run. reflexivity.
Qed.

Lemma create_pull_request_defaults_the_422_text_witness :
  create_pull_request.open_pull Example.pull_input "bob" "gho_bob"
    (Example.env (fun _ _ => Settled Example.refused_plainly)) [] =
  (Ok (respond 422 (VObj [("error", VStr "No changes to merge between these branches")])),
   [] ++ call (create_pull_request.post_pull Example.pull_input "bob" "gho_bob")
           (Settled Example.refused_plainly)).
Proof.
  apply (@create_pull_request_defaults_the_422_text Example.pull_input "bob" "gho_bob"
           (Example.env (fun _ _ => Settled Example.refused_plainly)) []
           Example.refused_plainly); reflexivity || exact I.
Defined.
(** ** Listing the contents of a directory *)

Lemma getContentsSchema_ref body input r :
  get_repo_contents.getContentsSchema body = inr input ->
  get_repo_contents.ref input = Some r -> r <> "".
Proof.
  unfold get_repo_contents.getContentsSchema, z.object. destruct body; try discriminate.
  intros H. split_schema. inversion H; subst; simpl. clear H. intros ->.
  match goal with E : z.prop_of "ref" _ _ = inr _ |- _ =>
    apply at_seg_inr, optional_sound in E;
    destruct E as [[_ E]|(_ & a & E & Hs)]; [discriminate|]; inversion E; subst;
    apply string_sound in Hs; destruct Hs as [_ Hc] end.
  assert (M : z.min 1 a = None) by (apply (@run_checks_nil _ _ _ Hc); simpl; auto).
  apply min_sound in M. intros ->. simpl in M. lia.
Qed.

(** Extra X24.  The URL get-repo-contents asks for, for a body that passed
    the schema: the contents of the path as given, of the root of the
    repository when the body has no [path], followed by [?ref=] and the ref
    exactly when the body has a [ref]. *)
Theorem get_repo_contents_url_of_valid_body :
  forall (fields : list (string * value)) (input : get_repo_contents.Input),
    get_repo_contents.getContentsSchema (VObj fields) = inr input ->
    exists p,
      get_repo_contents.path input = Some p /\
      (lookup "path" fields = None -> p = "") /\
      (forall s, lookup "path" fields = Some (VStr s) -> p = s) /\
      get_repo_contents.url_ input =
        (api +:+ "/repos/" +:+ get_repo_contents.owner input +:+ "/"
         +:+ get_repo_contents.repo input +:+ "/contents/" +:+ p)
        +:+ match get_repo_contents.ref input with
            | Some r => "?ref=" +:+ r
            | None => ""
            end.
Proof.
  intros fields input Hs.
  destruct (getContentsSchema_sound _ Hs) as (fields' & p & E & Hp & _ & Hnone & Hsome).
  inversion E; subst fields'. exists p. split; [exact Hp|].
  split; [|split].
  - intros H. apply Hnone. unfold field. now rewrite H.
  - intros s H. apply Hsome. unfold field. now rewrite H.
  - unfold get_repo_contents.url_. rewrite Hp. cbn [get_repo_contents.path_text].
    destruct (get_repo_contents.ref input) as [r|] eqn:R.
    + pose proof (getContentsSchema_ref _ Hs R) as Hr. apply String.eqb_neq in Hr.
      rewrite Hr. reflexivity.
    + symmetry. clear. generalize (api +:+ "/repos/" +:+ get_repo_contents.owner input +:+ "/"
                          +:+ get_repo_contents.repo input +:+ "/contents/" +:+ p).
      intros s. induction s; simpl; congruence.
Qed.

Lemma get_repo_contents_url_of_valid_body_witness :
  exists p,
    get_repo_contents.path Example.contents_input = Some p /\
    (lookup "path" [("owner", VStr "bob"); ("repo", VStr "site"); ("ref", VStr "main")] = None
     -> p = "") /\
    (forall s, lookup "path" [("owner", VStr "bob"); ("repo", VStr "site"); ("ref", VStr "main")]
               = Some (VStr s) -> p = s) /\
    get_repo_contents.url_ Example.contents_input =
      (api +:+ "/repos/" +:+ get_repo_contents.owner Example.contents_input +:+ "/"
       +:+ get_repo_contents.repo Example.contents_input +:+ "/contents/" +:+ p)
      +:+ match get_repo_contents.ref Example.contents_input with
          | Some r => "?ref=" +:+ r
          | None => ""
          end.
Proof.
  apply (@get_repo_contents_url_of_valid_body
           [("owner", VStr "bob"); ("repo", VStr "site"); ("ref", VStr "main")]
           Example.contents_input).
  reflexivity.
Defined.
(** ** Synchronising: the checks before the first write *)

Lemma validateRepo_run username token repo env tr :
  let check := sync_repo_contents.get_repo username token repo in
  let rep := upstream env (issued tr) check in
  (confirmed username rep = true /\
   sync_repo_contents.validateRepo username token repo env tr = (Ok tt, tr ++ call check rep)) \/
  (confirmed username rep = false /\
   exists e,
     sync_repo_contents.validateRepo username token repo env tr =
     (Throw e, tr ++ call check rep)).
Proof.
  intros check rep. unfold sync_repo_contents.validateRepo, json_. run. fold check. fold rep.
  unfold confirmed. destruct rep as [r|msg]; run; [|right; eauto].
  destruct (ok r); cbn [negb andb]; run; [|right; eauto].
  destruct (json r) as [msg|doc]; run; [right; eauto|].
  destruct doc as [| | | | | |fields];
    repeat (cbn [get prop_ strict_eq_str]; run); try (right; eauto; fail).
  destruct (field "owner" fields) as [| | | | | |ofields];
    repeat (cbn [get prop_ strict_eq_str]; run); try (right; eauto; fail).
  destruct (strict_eq_str (field "login" ofields) username); cbn [negb]; run;
    [left|right]; eauto.
Qed.

Lemma validateRepo_at username token repo env tr h :
  issued tr = h ->
  let check := sync_repo_contents.get_repo username token repo in
  let rep := upstream env h check in
  (confirmed username rep = true /\
   sync_repo_contents.validateRepo username token repo env tr = (Ok tt, tr ++ call check rep)) \/
  (confirmed username rep = false /\
   exists e,
     sync_repo_contents.validateRepo username token repo env tr =
     (Throw e, tr ++ call check rep)).
Proof. intros <-. apply validateRepo_run. Qed.

Section SyncChecks.

Variable createOrGetBranch : string -> string -> string -> string ->
                             M sync_repo_contents.BranchResult.
Variables (req : Req) (env : Env) (body : value) (input : sync_repo_contents.Input).
Variables (id token username : string).
Hypothesis Hmethod : req_method req <> "OPTIONS".
Hypothesis Hbody : req_json req = inr body.
Hypothesis Hschema : sync_repo_contents.syncRepoSchema body = inr input.
Hypothesis Huser : auth_user env = Some id.
Hypothesis Hprofile : profiles env id = Some (mkProfile (Some token) (Some username)).
Hypothesis Htoken : token <> "".
Hypothesis Husername : username <> "".

Local Abbreviation source :=
  (sync_repo_contents.get_repo username token (sync_repo_contents.sourceRepo input)).
Local Abbreviation dest :=
  (sync_repo_contents.get_repo username token (sync_repo_contents.destRepo input)).

Ltac enter :=
  unfold sync_repo_contents.serve, req_body, getGitHubToken;
  rewrite (proj2 (String.eqb_neq _ _) Hmethod), Hbody; run; rewrite Hschema; run;
  rewrite Huser; run; rewrite Hprofile; run;
  rewrite (absent_false Htoken), (absent_false Husername); cbn [orb];
  run; cbn [the].

Local Abbreviation tree :=
  (sync_repo_contents.get_source_tree input username token).
Local Abbreviation checked rep1 rep2 :=
  ([AuthGetUser; ProfilesSelect ["github_access_token"; "github_username"] id]
     ++ call source rep1 ++ call dest rep2).

(** Extra X25.  Unless the upstream confirms both the source and the
    destination repository as the caller's (a reply in 200-299 whose
    document has the caller's account as [owner.login]), sync-repo-contents
    answers 403 and has asked for nothing but these two checks: whatever
    [createOrGetBranch] would do, it is not run, and nothing is read or
    written. *)
Theorem sync_repo_contents_refuses_unconfirmed_repositories :
  confirmed username (upstream env [] source) &&
  confirmed username (upstream env [source] dest) = false ->
  (exists msg,
      fst (sync_repo_contents.serve createOrGetBranch req env []) =
      Ok (respond 403 (VObj [("error", VStr msg)]))) /\
  (forall r, In r (issued (snd (sync_repo_contents.serve createOrGetBranch req env []))) ->
             r = source \/ r = dest).
Proof.
  intros Hc. enter.
  destruct (@validateRepo_at username token (sync_repo_contents.sourceRepo input) env
              [AuthGetUser; ProfilesSelect ["github_access_token"; "github_username"] id]
              [] eq_refl)
    as [[C1 E]|[_ (e & E)]]; rewrite E; run.
  - rewrite C1 in Hc. cbn [andb] in Hc.
    match goal with |- context [sync_repo_contents.validateRepo _ _ _ env ?tr] =>
      destruct (@validateRepo_at username token (sync_repo_contents.destRepo input) env tr
                  [source] eq_refl)
        as [[C2 E2]|[_ (e & E2)]]
    end; [congruence|].
    rewrite E2. run. cbn [fst snd]. split; [eexists; reflexivity|].
    run. simpl. intuition.
  - cbn [fst snd]. split; [eexists; reflexivity|]. run. simpl. intuition.
Qed.

(** Extra X26.  When both repositories are confirmed and
    [createOrGetBranch] reports that the destination branch could not be
    made, sync-repo-contents answers 400 with the reason it was given, and
    nothing more is asked: the source tree is not listed, no file is read
    or written. *)
Theorem sync_repo_contents_stops_without_destination_branch :
  forall (rep1 rep2 : Reply) (reason : string) (tr3 : Trace),
    upstream env [] source = rep1 ->
    upstream env [source] dest = rep2 ->
    confirmed username rep1 = true ->
    confirmed username rep2 = true ->
    createOrGetBranch username (sync_repo_contents.destRepo input)
      (sync_repo_contents.destBranch input) token env (checked rep1 rep2) =
      (Ok (sync_repo_contents.mkBranchResult false reason), tr3) ->
    sync_repo_contents.serve createOrGetBranch req env [] =
    (Ok (respond 400
           (VObj [("error",
                   VStr ("Failed to create/access destination branch: " +:+ reason))])),
     tr3).
Proof.
  intros rep1 rep2 reason tr3 H1 H2 C1 C2 Hb. enter.
  destruct (@validateRepo_at username token (sync_repo_contents.sourceRepo input) env
              [AuthGetUser; ProfilesSelect ["github_access_token"; "github_username"] id]
              [] eq_refl)
    as [[_ E]|[C _]]; [|congruence]. rewrite E, H1. run.
  match goal with |- context [sync_repo_contents.validateRepo _ _ _ env ?tr] =>
    destruct (@validateRepo_at username token (sync_repo_contents.destRepo input) env tr
                [source] eq_refl)
      as [[_ E2]|[C _]]
  end; [|congruence].
  rewrite E2, H2. run. cbn [app] in Hb. rewrite Hb. run. reflexivity.
Qed.

(** Extra X27.  When both repositories are confirmed, the destination
    branch is there, and the listing of the source tree is refused,
    sync-repo-contents answers 401 with the token-expired text for an
    upstream 401, and 500 with a fixed text for every other status; no file
    is read or written. *)
Theorem sync_repo_contents_stops_without_source_tree :
  forall (rep1 rep2 : Reply) (reason : string) (tr3 : Trace) (r : FetchResponse),
    upstream env [] source = rep1 ->
    upstream env [source] dest = rep2 ->
    confirmed username rep1 = true ->
    confirmed username rep2 = true ->
    createOrGetBranch username (sync_repo_contents.destRepo input)
      (sync_repo_contents.destBranch input) token env (checked rep1 rep2) =
      (Ok (sync_repo_contents.mkBranchResult true reason), tr3) ->
    upstream env (issued tr3) tree = Settled r ->
    ok r = false ->
    sync_repo_contents.serve createOrGetBranch req env [] =
    (Ok (if (status r =? 401)%Z
         then respond 401
                (VObj [("error",
                        VStr "Your GitHub token is invalid or has expired. Please log out and log back in.")])
         else respond 500
                (VObj [("error",
                        VStr "Failed to fetch source repository tree. Please verify the branch exists.")])),
     tr3 ++ call tree (Settled r)).
Proof.
  intros rep1 rep2 reason tr3 r H1 H2 C1 C2 Hb Hr Hok. enter.
  destruct (@validateRepo_at username token (sync_repo_contents.sourceRepo input) env
              [AuthGetUser; ProfilesSelect ["github_access_token"; "github_username"] id]
              [] eq_refl)
    as [[_ E]|[C _]]; [|congruence]. rewrite E, H1. run.
  match goal with |- context [sync_repo_contents.validateRepo _ _ _ env ?tr] =>
    destruct (@validateRepo_at username token (sync_repo_contents.destRepo input) env tr
                [source] eq_refl)
      as [[_ E2]|[C _]]
  end; [|congruence].
  rewrite E2, H2. run. cbn [app] in Hb. rewrite Hb. run. cbn [sync_repo_contents.success negb]. run.
  rewrite Hr. run. rewrite Hok. run.
  destruct (status r =? 401)%Z; run; reflexivity.
Qed.

(** With both repositories confirmed, the destination branch there and the
    source tree listed, the handler goes on with the listing it was given. *)
Lemma sync_serve_runs_report :
  forall (rep1 rep2 : Reply) (reason : string) (tr3 : Trace) (r : FetchResponse)
         (treeData : value) (response : Response) (tr4 : Trace),
    upstream env [] source = rep1 ->
    upstream env [source] dest = rep2 ->
    confirmed username rep1 = true ->
    confirmed username rep2 = true ->
    createOrGetBranch username (sync_repo_contents.destRepo input)
      (sync_repo_contents.destBranch input) token env (checked rep1 rep2) =
      (Ok (sync_repo_contents.mkBranchResult true reason), tr3) ->
    upstream env (issued tr3) tree = Settled r ->
    ok r = true ->
    json r = inr treeData ->
    sync_repo_contents.report input username token treeData env (tr3 ++ call tree (Settled r)) =
      (Ok response, tr4) ->
    sync_repo_contents.serve createOrGetBranch req env [] = (Ok response, tr4).
Proof.
  intros rep1 rep2 reason tr3 r treeData response tr4 H1 H2 C1 C2 Hb Hr Hok Hdoc Hrep. enter.
  destruct (@validateRepo_at username token (sync_repo_contents.sourceRepo input) env
              [AuthGetUser; ProfilesSelect ["github_access_token"; "github_username"] id]
              [] eq_refl)
    as [[_ E]|[C _]]; [|congruence]. rewrite E, H1. run.
  match goal with |- context [sync_repo_contents.validateRepo _ _ _ env ?tr] =>
    destruct (@validateRepo_at username token (sync_repo_contents.destRepo input) env tr
                [source] eq_refl)
      as [[_ E2]|[C _]]
  end; [|congruence].
  rewrite E2, H2. run. cbn [app] in Hb. rewrite Hb. run. cbn [sync_repo_contents.success negb]. run.
  rewrite Hr. run. rewrite Hok. run. unfold json_. rewrite Hdoc. run.
  rewrite Hrep. reflexivity.
Qed.

(** Claim C7.  When both repositories are confirmed, the destination branch
    is there and the source tree is listed (its entries are objects), the
    handler attempts the first 100 blobs of the listing, in order, and
    nothing else: after the listing its events are one attempt per such
    blob, so an entry that is not a blob, and a blob after the hundredth, is
    not read, probed or written.  The response is a success, also when blobs
    are left out, with [total_files] the number of all the blobs of the
    listing and [files_synced] the number of writes the upstream
    accepted. *)
Theorem sync_attempts_first_100_blobs :
  forall (rep1 rep2 : Reply) (reason : string) (tr3 : Trace) (r : FetchResponse)
         (fields : list (string * value)) (items : list value),
    upstream env [] source = rep1 ->
    upstream env [source] dest = rep2 ->
    confirmed username rep1 = true ->
    confirmed username rep2 = true ->
    createOrGetBranch username (sync_repo_contents.destRepo input)
      (sync_repo_contents.destBranch input) token env (checked rep1 rep2) =
      (Ok (sync_repo_contents.mkBranchResult true reason), tr3) ->
    upstream env (issued tr3) tree = Settled r ->
    ok r = true ->
    json r = inr (VObj fields) ->
    field "tree" fields = VArr items ->
    Forall is_entry items ->
    exists segs : list Trace,
      sync_repo_contents.serve createOrGetBranch req env [] =
      (Ok (respond 200
             (VObj [("success", VBool true);
                    ("files_synced", VNum (successful_writes (concat segs)));
                    ("total_files", VNum (Z.of_nat (length (filter blob items))))])),
       tr3 ++ call tree (Settled r) ++ concat segs) /\
      Forall2 (attempt input username token) (firstn 100 (filter blob items)) segs /\
      (length segs <= 100)%nat.
Proof.
  intros rep1 rep2 reason tr3 r fields items H1 H2 C1 C2 Hb Hr Hok Hdoc Htree Hitems.
  destruct (@report_attempts_first_100_blobs input username token fields items env
              (tr3 ++ call tree (Settled r)) Htree Hitems)
    as (segs & Hrun & Hatt & Hlen).
  exists segs. split; [|split; assumption].
  rewrite <- app_assoc in Hrun.
  exact (@sync_serve_runs_report rep1 rep2 reason tr3 r (VObj fields) _ _
           H1 H2 C1 C2 Hb Hr Hok Hdoc Hrun).
Qed.

End SyncChecks.

Lemma sync_repo_contents_refuses_unconfirmed_repositories_witness :
  (exists msg,
      fst (sync_repo_contents.serve Example.branch_ready (Example.post Example.sync)
             (Example.env Example.granting) []) =
      Ok (respond 403 (VObj [("error", VStr msg)]))) /\
  (forall r, In r (issued (snd (sync_repo_contents.serve Example.branch_ready
                                  (Example.post Example.sync)
                                  (Example.env Example.granting) []))) ->
             r = sync_repo_contents.get_repo "bob" "gho_bob"
                   (sync_repo_contents.sourceRepo Example.sync_input) \/
             r = sync_repo_contents.get_repo "bob" "gho_bob"
                   (sync_repo_contents.destRepo Example.sync_input)).
Proof.
  apply (@sync_repo_contents_refuses_unconfirmed_repositories Example.branch_ready
           (Example.post Example.sync) (Example.env Example.granting) Example.sync
           Example.sync_input "user-1" "gho_bob" "bob");
    try reflexivity; discriminate.
Defined.

Lemma sync_repo_contents_stops_without_destination_branch_witness :
  sync_repo_contents.serve Example.branch_missing (Example.post Example.sync)
    (Example.env Example.confirming) [] =
  (Ok (respond 400
         (VObj [("error",
                 VStr ("Failed to create/access destination branch: "
                       +:+ "Reference does not exist"))])),
   [AuthGetUser; ProfilesSelect ["github_access_token"; "github_username"] "user-1"]
     ++ call (sync_repo_contents.get_repo "bob" "gho_bob" "site")
          (Settled Example.owned_by_bob)
     ++ call (sync_repo_contents.get_repo "bob" "gho_bob" "mirror")
          (Settled Example.owned_by_bob)).
Proof.
  apply (@sync_repo_contents_stops_without_destination_branch Example.branch_missing
           (Example.post Example.sync) (Example.env Example.confirming) Example.sync
           Example.sync_input "user-1" "gho_bob" "bob")
    with (rep1 := Settled Example.owned_by_bob) (rep2 := Settled Example.owned_by_bob);
    try reflexivity; discriminate.
Defined.

Lemma sync_repo_contents_stops_without_source_tree_witness :
  sync_repo_contents.serve Example.branch_ready (Example.post Example.sync)
    (Example.env Example.confirming_twice) [] =
  (Ok (if (status Example.not_found =? 401)%Z
       then respond 401
              (VObj [("error",
                      VStr "Your GitHub token is invalid or has expired. Please log out and log back in.")])
       else respond 500
              (VObj [("error",
                      VStr "Failed to fetch source repository tree. Please verify the branch exists.")])),
   ([AuthGetUser; ProfilesSelect ["github_access_token"; "github_username"] "user-1"]
      ++ call (sync_repo_contents.get_repo "bob" "gho_bob" "site")
           (Settled Example.owned_by_bob)
      ++ call (sync_repo_contents.get_repo "bob" "gho_bob" "mirror")
           (Settled Example.owned_by_bob))
     ++ call (sync_repo_contents.get_source_tree Example.sync_input "bob" "gho_bob")
          (Settled Example.not_found)).
Proof.
  apply (@sync_repo_contents_stops_without_source_tree Example.branch_ready
           (Example.post Example.sync) (Example.env Example.confirming_twice) Example.sync
           Example.sync_input "user-1" "gho_bob" "bob")
    with (rep1 := Settled Example.owned_by_bob) (rep2 := Settled Example.owned_by_bob)
         (reason := "");
    try reflexivity; discriminate.
Defined.
Lemma sync_attempts_first_100_blobs_witness :
  exists segs : list Trace,
    sync_repo_contents.serve Example.branch_ready (Example.post Example.sync)
      (Example.env (Example.syncing Example.listing)) [] =
    (Ok (respond 200
           (VObj [("success", VBool true);
                  ("files_synced", VNum (successful_writes (concat segs)));
                  ("total_files", VNum (Z.of_nat (length (filter blob Example.listing))))])),
     ([AuthGetUser; ProfilesSelect ["github_access_token"; "github_username"] "user-1"]
        ++ call (sync_repo_contents.get_repo "bob" "gho_bob" "site")
             (Settled Example.owned_by_bob)
        ++ call (sync_repo_contents.get_repo "bob" "gho_bob" "mirror")
             (Settled Example.owned_by_bob))
       ++ call (sync_repo_contents.get_source_tree Example.sync_input "bob" "gho_bob")
            (Settled (mkFetchResponse 200 "" (inr (VObj Example.listing_fields))))
       ++ concat segs) /\
    Forall2 (attempt Example.sync_input "bob" "gho_bob")
      (firstn 100 (filter blob Example.listing)) segs /\
    (length segs <= 100)%nat.
Proof.
  apply (@sync_attempts_first_100_blobs Example.branch_ready
           (Example.post Example.sync) (Example.env (Example.syncing Example.listing))
           Example.sync Example.sync_input "user-1" "gho_bob" "bob")
    with (rep1 := Settled Example.owned_by_bob) (rep2 := Settled Example.owned_by_bob)
         (reason := "") (fields := Example.listing_fields);
    try reflexivity; try discriminate.
  repeat constructor; eexists; reflexivity.
Defined.

(** A source tree of 101 blobs, through the whole handler: 100 are
    attempted, 101 reported as the total, and the answer is a success. *)
Lemma sync_serve_of_101_blobs :
  let up := Example.syncing (repeat (Example.tree_entry "e.txt" "blob" "b3") 101) in
  fst (sync_repo_contents.serve Example.branch_ready (Example.post Example.sync)
         (Example.env up) []) =
  Ok (respond 200 (VObj [("success", VBool true);
                         ("files_synced", VNum 100);
                         ("total_files", VNum 101)])) /\
  length (issued (snd (sync_repo_contents.serve Example.branch_ready
                         (Example.post Example.sync) (Example.env up) [])))
  = 303%nat.
Proof. split; vm_compute; reflexivity. Qed.

(** ** The handlers without an ownership gate: what they do check *)

Lemma holds_token_intro env uid token :
  auth_user env = Some uid ->
  Some token = token_of (profiles env uid) ->
  token <> "" ->
  holds_token env token.
Proof. intros Hu Ht Hn. exists uid. auto. Qed.

(** Extra X28.  The only request star-repo issues is, for a body that
    passed the schema, a [PUT] when [starred] is true and a [DELETE] when it
    is false, to [/user/starred/<owner>/<repo>], with no body and with the
    token stored for the signed-in caller.  The owner is not compared with
    the caller's account. *)
Theorem star_repo_request :
  forall (req : Req) (env : Env) (r : Request),
    In r (issued (snd (star_repo.serve req env []))) ->
    exists body input token,
      req_json req = inr body /\
      star_repo.starRepoSchema body = inr input /\
      holds_token env token /\
      r = mkRequest (if star_repo.starred input then "PUT" else "DELETE")
            (api +:+ "/user/starred/" +:+ star_repo.owner input +:+ "/"
             +:+ star_repo.repo input)
            [bearer token;
             ("Accept", "application/vnd.github.v3+json");
             ("Content-Length", "0");
             ("User-Agent", "RepoPush")]
            None.
Proof.
  intros req env.
  pose (P := fun r : Request =>
               exists body input token,
                 req_json req = inr body /\
                 star_repo.starRepoSchema body = inr input /\
                 holds_token env token /\
                 r = mkRequest (if star_repo.starred input then "PUT" else "DELETE")
                       (api +:+ "/user/starred/" +:+ star_repo.owner input +:+ "/"
                        +:+ star_repo.repo input)
                       [bearer token;
                        ("Accept", "application/vnd.github.v3+json");
                        ("Content-Length", "0");
                        ("User-Agent", "RepoPush")]
                       None).
  intros r. apply (@issues_only_from_start env P _ (star_repo.serve req) r).
  unfold star_repo.serve. io_enter Hb.
  apply io_bind; [apply io_parse|]. intros input Hs%returns_parse.
  io_profile' uid Hu token Ht Hn.
  io_walk. exists a, input, token. repeat split; auto.
  eapply holds_token_intro; eauto.
Qed.

Lemma star_repo_request_witness :
  exists body input token,
    req_json (Example.post Example.star_doc) = inr body /\
    star_repo.starRepoSchema body = inr input /\
    holds_token (Example.env Example.granting) token /\
    star_repo.star Example.star_input "gho_bob" =
      mkRequest (if star_repo.starred input then "PUT" else "DELETE")
        (api +:+ "/user/starred/" +:+ star_repo.owner input +:+ "/" +:+ star_repo.repo input)
        [bearer token;
         ("Accept", "application/vnd.github.v3+json");
         ("Content-Length", "0");
         ("User-Agent", "RepoPush")]
        None.
Proof.
  apply (@star_repo_request (Example.post Example.star_doc) (Example.env Example.granting)
           (star_repo.star Example.star_input "gho_bob")).
  vm_compute. left. reflexivity.
Defined.

(** Extra X29.  move-files asks for sign-in and a stored token and for
    nothing else: every request it issues is the read, the write or the
    delete it builds for an item of a body that passed the schema, with the
    token stored for the signed-in caller; the owner, the repository and the
    paths are those of the body, as they came. *)
Theorem move_files_requests :
  forall (req : Req) (env : Env) (r : Request),
    In r (issued (snd (move_files.serve req env []))) ->
    exists body input token f,
      req_json req = inr body /\
      move_files.moveFilesSchema body = inr input /\
      holds_token env token /\
      In f (move_files.files input) /\
      moves input token f r.
Proof.
  intros req env.
  pose (P := fun r : Request =>
               exists body input token f,
                 req_json req = inr body /\
                 move_files.moveFilesSchema body = inr input /\
                 holds_token env token /\
                 In f (move_files.files input) /\
                 moves input token f r).
  intros r. apply (@issues_only_from_start env P _ (move_files.serve req) r).
  unfold move_files.serve. io_enter Hb.
  apply io_bind; [apply io_parse|]. intros input Hs%returns_parse.
  apply io_bind; [apply io_getUser|]. intros [uid|] Hu%returns_getUser; [|apply io_ret].
  apply io_bind; [apply io_select_single|].
  intros profile [Ht _]%returns_select_single. rewrite selected_here in Ht.
  destruct (absent (token_of profile)) eqn:C; [apply io_ret|].
  apply absent_some in C. destruct C as (token & Et & Ht'). rewrite Et in *. cbn [the].
  assert (HP : forall f r', In f (move_files.files input) -> moves input token f r' -> P r').
  { intros f r' Hf H. exists a, input, token, f. repeat split; auto.
    eapply holds_token_intro; eauto. }
  apply io_bind; [|intros; apply io_ret].
  apply io_for_of. intros f [] Hf. unfold move_files.move_one.
  io_walk; apply (HP f); auto; unfold moves; one_of_the_shapes.
Qed.

Lemma move_files_requests_witness :
  exists body input token f,
    req_json (Example.post (Example.move "alice")) = inr body /\
    move_files.moveFilesSchema body = inr input /\
    holds_token (Example.env Example.granting) token /\
    In f (move_files.files input) /\
    moves input token f (Example.move_write "alice").
Proof.
  apply (@move_files_requests (Example.post (Example.move "alice"))
           (Example.env Example.granting) (Example.move_write "alice")).
  vm_compute. right. left. reflexivity.
Defined.

(** ** The repository segment of a URL *)

(** The gate of rename-repo compares the [owner] field and nothing else:
    for every caller and every text [target], the body whose owner is the
    caller's stored account name and whose repository is [../] followed by
    [target] passes the schema and the gate, and the one request issued is
    the [PATCH] whose URL is the text [/repos/<account>/../<target>], with
    the caller's stored token. *)
Lemma rename_repo_forwards_any_repository_text :
  forall (env : Env) (id token username target new_name : string),
    auth_user env = Some id ->
    profiles env id = Some (mkProfile (Some token) (Some username)) ->
    token <> "" -> username <> "" -> new_name <> "" ->
    issued (snd (rename_repo.serve
                   (mkReq "POST"
                      (inr (VObj [("owner", VStr username);
                                  ("repo", VStr ("../" +:+ target));
                                  ("new_name", VStr new_name)])))
                   env [])) =
    [mkRequest "PATCH" (api +:+ "/repos/" +:+ username +:+ "/../" +:+ target)
       [bearer token;
        ("Accept", "application/vnd.github.v3+json");
        ("User-Agent", "RepoPush")]
       (Some (VObj [("name", VStr new_name)]))].
Proof.
  intros env id token username target new_name Hu Hp Ht Hn Hnew.
  assert (Hs : rename_repo.renameRepoSchema
                 (VObj [("owner", VStr username);
                        ("repo", VStr ("../" +:+ target));
                        ("new_name", VStr new_name)]) =
               inr (rename_repo.mkInput username ("../" +:+ target) new_name)).
  { unfold rename_repo.renameRepoSchema, z.object, z.prop_of.
    cbn [field lookup String.eqb Ascii.eqb Bool.eqb].
    rewrite !string_accepts by (repeat constructor; apply min1_accepts; auto; discriminate).
    reflexivity. }
  apply String.eqb_neq in Ht.
  unfold rename_repo.serve, req_body, parse.
  cbn [req_method req_json String.eqb Ascii.eqb Bool.eqb].
  run. rewrite Hs. run. rewrite Hu. run. rewrite Hp. run.
  cbn [absent the orb rename_repo.owner differs]. rewrite Ht, String.eqb_refl.
  cbn [negb orb]. run.
  destruct (upstream env [] _) as [r|m]; run;
    [destruct (ok r); run;
     [unfold json_; destruct (json r) as [|doc]; run; [|destruct doc; run]|]|];
    reflexivity.
Qed.

Lemma rename_repo_forwards_any_repository_text_example :
  issued (snd (rename_repo.serve
                 (mkReq "POST"
                    (inr (VObj [("owner", VStr "bob");
                                ("repo", VStr ("../" +:+ "alice/site"));
                                ("new_name", VStr "blog")])))
                 (Example.env Example.granting) [])) =
  [mkRequest "PATCH" (api +:+ "/repos/" +:+ "bob" +:+ "/../" +:+ "alice/site")
     [bearer "gho_bob";
      ("Accept", "application/vnd.github.v3+json");
      ("User-Agent", "RepoPush")]
     (Some (VObj [("name", VStr "blog")]))].
Proof.
  apply (@rename_repo_forwards_any_repository_text (Example.env Example.granting)
           "user-1" "gho_bob" "bob" "alice/site" "blog");
    try reflexivity; discriminate.
Defined.

(** Extra X31.  create-file does not refuse the repository name [..], which
    its pattern for [repo] lets through: for every caller, every path and
    every content the schema accepts (the bytes few enough for one call),
    the body with the caller's stored account name as owner and [..] as
    repository passes the schema and the gate, and the one request issued
    is the [PUT] whose URL is the text [/repos/<account>/../contents/<path>],
    with the caller's stored token. *)
Theorem create_file_accepts_dot_dot_repository :
  forall (max_arguments : Z) (env : Env) (id token username p content : string),
    auth_user env = Some id ->
    profiles env id = Some (mkProfile (Some token) (Some username)) ->
    token <> "" ->
    ownerSchema (VStr username) = inr username ->
    pathSchema (VStr p) = inr p ->
    (Z.of_nat (String.length content) <= 10485760)%Z ->
    spreads max_arguments content ->
    issued (snd (create_file.serve max_arguments
                   (mkReq "POST"
                      (inr (VObj [("owner", VStr username);
                                  ("repo", VStr "..");
                                  ("path", VStr p);
                                  ("content", VStr content)])))
                   env [])) =
    [mkRequest "PUT" (api +:+ "/repos/" +:+ username +:+ "/../contents/" +:+ p)
       [bearer token;
        ("Accept", "application/vnd.github.v3+json");
        ("Content-Type", "application/json");
        ("User-Agent", "RepoPush")]
       (Some (VObj [("message", VStr ("Create " +:+ p));
                    ("content", VStr (encoded content));
                    ("branch", VStr "main")]))].
Proof.
  intros n env id token username p content Hu Hp Ht Ho Hpath Hlen Hfit.
  assert (Hs : create_file.createFileSchema
                 (VObj [("owner", VStr username); ("repo", VStr "..");
                        ("path", VStr p); ("content", VStr content)]) =
               inr (create_file.mkInput username ".." p content None None)).
  { unfold create_file.createFileSchema, z.object, z.prop_of.
    cbn [field lookup String.eqb Ascii.eqb Bool.eqb].
    rewrite Ho, Hpath.
    rewrite (@string_accepts [z.max 10485760] content)
      by (repeat constructor; apply max_accepts; exact Hlen).
    reflexivity. }
  assert (Hn : username <> "").
  { intros ->. vm_compute in Ho. discriminate Ho. }
  apply String.eqb_neq in Ht, Hn.
  unfold create_file.serve, req_body.
  cbn [req_method req_json String.eqb Ascii.eqb Bool.eqb].
  run. rewrite Hs. run. rewrite Hu. run. rewrite Hp. run.
  cbn [absent the orb create_file.owner differs]. rewrite Ht, Hn, String.eqb_refl.
  cbn [negb orb]. run. rewrite (@base64Content_run _ _ env _ Hfit). run.
  destruct (upstream env [] _) as [r|m]; run;
    [destruct (ok r); run;
     [unfold json_; destruct (json r) as [|doc]; run|destruct (status r =? 422)%Z; run]|];
    reflexivity.
Qed.

Lemma create_file_accepts_dot_dot_repository_witness :
  issued (snd (create_file.serve 65536
                 (mkReq "POST"
                    (inr (VObj [("owner", VStr "bob");
                                ("repo", VStr "..");
                                ("path", VStr "alice/contents/x.txt");
                                ("content", VStr "hi")])))
                 (Example.env Example.granting) [])) =
  [mkRequest "PUT" (api +:+ "/repos/" +:+ "bob" +:+ "/../contents/" +:+ "alice/contents/x.txt")
     [bearer "gho_bob";
      ("Accept", "application/vnd.github.v3+json");
      ("Content-Type", "application/json");
      ("User-Agent", "RepoPush")]
     (Some (VObj [("message", VStr ("Create " +:+ "alice/contents/x.txt"));
                  ("content", VStr (encoded "hi"));
                  ("branch", VStr "main")]))].
Proof.
  apply (@create_file_accepts_dot_dot_repository 65536 (Example.env Example.granting)
           "user-1" "gho_bob" "bob" "alice/contents/x.txt" "hi");
    try reflexivity; discriminate.
Defined.
